(** * Observability core of the pipeline: event bus, subscribers,
      metrics collector, pipeline context and step timing.

    Shallow embedding of [event-manager.py].  Python objects that the code
    mutates (event dictionaries, the collector's nested dictionaries and
    lists, pipeline contexts) live in a store addressed by locations, so
    that aliasing between a caller's object and the object a callee writes
    to is visible.  Code that may raise runs in a state-and-exception monad
    over that store. *)

From Stdlib Require Import QArith.
From stdpp Require Import gmap strings list fin_maps.

Open Scope string_scope.
Open Scope list_scope.

(** ** Python values and objects *)

Definition loc := positive.

(** A value is a scalar or a reference to a mutable object.  Python's
    [float] is idealised as a rational: the code only adds, subtracts and
    divides time readings. *)
Inductive val :=
  | VNone
  | VBool (b : bool)
  | VInt (z : Z)
  | VFloat (q : Q)
  | VStr (s : string)
  | VRef (l : loc).

(** [PipelineContext]'s attributes.  [step_times] maps a step name to the
    reading of [time.time()] taken by the last [record_step_start]. *)
Record PipelineContext := mkContext {
  pipeline_id : string;
  parent_id : val;
  start_time : Q;
  step_times : gmap string Q
}.

Inductive obj :=
  | ODict (d : gmap string val)
  | OList (xs : list val)
  | OTuple (xs : list val)
  | OInst (cls : string) (attrs : list (string * val))
  | OCtx (c : PipelineContext).

(** An instance of [Exception]: [type(e).__name__] and [str(e)].
    Signals that derive from [BaseException] only ([KeyboardInterrupt],
    [SystemExit]) are process control, not failures of the code, and are
    not values of this type. *)
Record exn := mkExn { exn_type : string; exn_msg : string }.

Inductive log_level := DEBUG | INFO | ERROR.

(** The world user code can read and change: the object store, the wall
    clock (the readings [time.time()] will return, in order, and how many
    were taken), the supply of fresh run identifiers ([uuid.uuid4()]) and
    the module logger's output. *)
Record world := mkWorld {
  w_heap : gmap loc obj;
  w_clock : nat -> Q;
  w_tick : nat;
  w_uuid : nat -> string;
  w_nuuid : nat;
  w_log : list (log_level * string)
}.

Definition set_heap (h : gmap loc obj) (w : world) : world :=
  mkWorld h (w_clock w) (w_tick w) (w_uuid w) (w_nuuid w) (w_log w).

Definition set_log (l : list (log_level * string)) (w : world) : world :=
  mkWorld (w_heap w) (w_clock w) (w_tick w) (w_uuid w) (w_nuuid w) l.

(** ** The state-and-exception monad *)

Inductive result (A : Type) :=
  | Ok (a : A)
  | Raise (e : exn).
Arguments Ok {A} a.
Arguments Raise {A} e.

(** [ST S A]: a computation over a state [S] that returns an [A] or
    raises.  User code (subscribers, wrapped operations) runs over the
    [world]. *)
Definition ST (S A : Type) : Type := S -> result A * S.

Abbreviation M := (ST world).

Definition ret {S A} (a : A) : ST S A := fun s => (Ok a, s).

Definition bind {S A B} (m : ST S A) (k : A -> ST S B) : ST S B :=
  fun s => match m s with
           | (Ok a, s') => k a s'
           | (Raise e, s') => (Raise e, s')
           end.

(** [raise e], and [raise T(msg)] for a new exception. *)
Definition reraise {S A} (e : exn) : ST S A := fun s => (Raise e, s).

Definition raise {S A} (ty msg : string) : ST S A := reraise (mkExn ty msg).

(** [try: m except Exception as e: h e] *)
Definition try_except {S A} (m : ST S A) (h : exn -> ST S A) : ST S A :=
  fun s => match m s with
           | (Ok a, s') => (Ok a, s')
           | (Raise e, s') => h e s'
           end.

Notation "'let!' x ':=' m 'in' k" := (bind m (fun x => k))
  (at level 10, x name, m at level 100, k at level 200,
   format "'[v' 'let!'  x  ':='  m  'in' '/' k ']'").
Notation "'do!' m 'in' k" := (bind m (fun _ => k))
  (at level 10, m at level 100, k at level 200,
   format "'[v' 'do!'  m  'in' '/' k ']'").

(** [time.time()]: the next reading of the wall clock. *)
Definition time_time : M Q :=
  fun w => (Ok (w_clock w (w_tick w)),
            mkWorld (w_heap w) (w_clock w) (S (w_tick w))
                    (w_uuid w) (w_nuuid w) (w_log w)).

(** [str(uuid.uuid4())]. *)
Definition uuid4 : M string :=
  fun w => (Ok (w_uuid w (w_nuuid w)),
            mkWorld (w_heap w) (w_clock w) (w_tick w)
                    (w_uuid w) (S (w_nuuid w)) (w_log w)).

Definition logger (lv : log_level) (msg : string) : M unit :=
  fun w => (Ok tt, set_log (w_log w ++ [(lv, msg)]) w).

(** ** Store primitives *)

(** Object creation: a location not yet in the store. *)
Definition alloc (o : obj) : M loc :=
  fun w => let l := fresh (dom (w_heap w)) in
           (Ok l, set_heap (<[l := o]> (w_heap w)) w).

Definition store (l : loc) (o : obj) : M unit :=
  fun w => (Ok tt, set_heap (<[l := o]> (w_heap w)) w).

(** Reading an object as a dictionary; anything else is a [TypeError]
    (what subscripting or [.get] on a non-mapping ends in). *)
Definition get_dict (l : loc) : M (gmap string val) :=
  fun w => match w_heap w !! l with
           | Some (ODict d) => (Ok d, w)
           | _ => (Raise (mkExn "TypeError" "object is not a dict"), w)
           end.

(** Reading an object as a [PipelineContext]; on anything else the
    attribute access fails. *)
Definition get_ctx (l : loc) : M PipelineContext :=
  fun w => match w_heap w !! l with
           | Some (OCtx c) => (Ok c, w)
           | _ => (Raise (mkExn "AttributeError"
                                "object is not a PipelineContext"), w)
           end.

Definition get_list (l : loc) : M (list val) :=
  fun w => match w_heap w !! l with
           | Some (OList xs) => (Ok xs, w)
           | _ => (Raise (mkExn "TypeError" "object is not a list"), w)
           end.

(** [d.get(k, default)] *)
Definition dict_get (d : gmap string val) (k : string) (dflt : val) : val :=
  default dflt (d !! k).

(** [d[k]] *)
Definition dict_getitem (d : gmap string val) (k : string) : M val :=
  match d !! k with
  | Some v => ret v
  | None => raise "KeyError" k
  end.

(** [d[k] = v] on the dictionary at [l]. *)
Definition dict_setitem (l : loc) (k : string) (v : val) : M unit :=
  let! d := get_dict l in store l (ODict (<[k := v]> d)).

(** [xs.append(v)] on the list at [l]. *)
Definition list_append (l : loc) (v : val) : M unit :=
  let! xs := get_list l in store l (OList (xs ++ [v])).

(** Following a reference. *)
Definition as_ref (v : val) : M loc :=
  match v with
  | VRef l => ret l
  | _ => raise "TypeError" "object is not subscriptable"
  end.

(** Dictionary keys are strings, as the type hints of the module say
    ([pipeline_id: str], [step: str], [metric_name: str]).  A key of
    another type is outside this model: the code would use it as a key
    and record, the model stops here.  What the collector does with an
    event is therefore stated for events whose ids are strings
    ([str_ids] below). *)
Definition as_key (v : val) : M string :=
  match v with
  | VStr s => ret s
  | _ => raise "TypeError" "key is not a str"
  end.

(** ** EventSubscriber *)

(** A subscriber object: its class name, its filter and its
    [handle_event] method, which gets the event by reference and may do
    anything to the world and raise.  [LoggingSubscriber] and
    [FileStorageSubscriber] are subscribers of this kind; the collector's
    handler is spelled out below. *)
Record EventSubscriber := mkSubscriber {
  class_name : string;
  event_types : list string;
  handle_event : loc -> M unit
}.

(** [self.event_types = event_types or dflt]: [None] and the empty list
    are both falsy. *)
Definition event_types_or (arg : option (list string))
    (dflt : list string) : list string :=
  match arg with
  | Some (t :: ts) => t :: ts
  | _ => dflt
  end.

Definition EventSubscriber_init (cls : string) (arg : option (list string))
    (h : loc -> M unit) : EventSubscriber :=
  mkSubscriber cls (event_types_or arg ["*"]) h.

(** ["*" in self.event_types or event_type in self.event_types].  The
    event type is whatever the event holds under ["event_type"]; a value
    that is not a [str] equals no element of the filter. *)
Definition should_handle (s : EventSubscriber) (event_type : val) : bool :=
  bool_decide ("*" ∈ event_types s)
  || match event_type with
     | VStr t => bool_decide (t ∈ event_types s)
     | _ => false
     end.

(** ** History of bus activity

    What the bus did, in order: the events it dispatched and the
    [handle_event] calls it made, each with the event object's content at
    that moment.  The history is kept beside the world, where subscribers
    and wrapped operations cannot reach it. *)
Inductive obs :=
  | Published (event : loc) (content : gmap string val)
  | Handled (s : EventSubscriber) (event : loc) (content : option obj).

Record system := mkSystem {
  s_world : world;
  s_hist : list obs
}.

Abbreviation T := (ST system).

Definition lift {A} (m : M A) : T A :=
  fun s => let (r, w') := m (s_world s) in (r, mkSystem w' (s_hist s)).

Definition observe (o : obs) : T unit :=
  fun s => (Ok tt, mkSystem (s_world s) (s_hist s ++ [o])).

Definition peek (l : loc) : T (option obj) :=
  fun s => (Ok (w_heap (s_world s) !! l), s).

(** ** PipelineEventManager *)

(** [with self.lock: self.subscribers.append(subscriber)] *)
Definition register_subscriber (subscribers : list EventSubscriber)
    (subscriber : EventSubscriber) : list EventSubscriber :=
  subscribers ++ [subscriber].

(** [f"Error in subscriber {subscriber.__class__.__name__}: {str(e)}"] *)
Definition error_message (subscriber : EventSubscriber) (e : exn) : string :=
  ("Error in subscriber " ++ class_name subscriber ++ ": " ++ exn_msg e)%string.

(** One turn of the loop of [publish_event]: the filter test, the call
    inside [try], and the [except Exception] clause that logs and goes
    on. *)
Definition deliver (subscriber : EventSubscriber) (event : loc)
    (event_type : val) : T unit :=
  if should_handle subscriber event_type then
    try_except
      (let! content := peek event in
       do! observe (Handled subscriber event content) in
       lift (handle_event subscriber event))
      (fun e => lift (logger ERROR (error_message subscriber e)))
  else ret tt.

(** [for subscriber in self.subscribers: ...] with no registration going
    on meanwhile (see the interleaved machine below for that). *)
Fixpoint dispatch (subscribers : list EventSubscriber) (event : loc)
    (event_type : val) : T unit :=
  match subscribers with
  | [] => ret tt
  | subscriber :: rest =>
      do! deliver subscriber event event_type in
      dispatch rest event event_type
  end.

(** [if "timestamp" not in event: event["timestamp"] = time.time()] *)
Definition stamp (event : loc) : M unit :=
  let! d := get_dict event in
  match d !! "timestamp" with
  | Some _ => ret tt
  | None =>
      let! now := time_time in
      dict_setitem event "timestamp" (VFloat now)
  end.

Definition publish_event (subscribers : list EventSubscriber)
    (event : loc) : T unit :=
  do! lift (stamp event) in
  let! d := lift (get_dict event) in
  let event_type := dict_get d "event_type" (VStr "unknown") in
  do! observe (Published event d) in
  dispatch subscribers event event_type.

(** ** MetricsCollector *)

(** [[f(x) for x in xs]] where [f] may raise. *)
Fixpoint mapM {S A B} (f : A -> ST S B) (xs : list A) : ST S (list B) :=
  match xs with
  | [] => ret []
  | x :: rest =>
      let! y := f x in
      let! ys := mapM f rest in
      ret (y :: ys)
  end.

(** [o[k]] for a reference [o] to a dictionary. *)
Definition subscript (l : loc) (k : string) : M val :=
  let! d := get_dict l in dict_getitem d k.

(** [o[k1][k2]] *)
Definition subscript2 (l : loc) (k1 k2 : string) : M loc :=
  let! v := subscript l k1 in
  let! l1 := as_ref v in
  let! v2 := subscript l1 k2 in
  as_ref v2.

Definition val_eq_str (v : val) (s : string) : bool :=
  match v with
  | VStr t => bool_decide (t = s)
  | _ => false
  end.

(** [if pipeline_id not in self.metrics:
        self.metrics[pipeline_id] = {"steps": {}, "metrics": {}}] *)
Definition ensure_run (metrics : loc) (pid : string) : M unit :=
  let! root := get_dict metrics in
  match root !! pid with
  | Some _ => ret tt
  | None =>
      let! steps := alloc (ODict ∅) in
      let! mets := alloc (ODict ∅) in
      let! run := alloc (ODict (<["steps" := VRef steps]>
                                  (<["metrics" := VRef mets]> ∅))) in
      dict_setitem metrics pid (VRef run)
  end.

(** [if key not in bucket: bucket[key] = []] *)
Definition ensure_list (bucket : loc) (key : string) : M unit :=
  let! d := get_dict bucket in
  match d !! key with
  | Some _ => ret tt
  | None =>
      let! fresh_list := alloc (OList []) in
      dict_setitem bucket key (VRef fresh_list)
  end.

(** [bucket[key].append(entry)] for a new dictionary [entry]. *)
Definition append_entry (bucket : loc) (key : string)
    (entry : gmap string val) : M unit :=
  let! target := subscript bucket key in
  let! target := as_ref target in
  let! e := alloc (ODict entry) in
  list_append target (VRef e).

(** [MetricsCollector.handle_event] on the collector whose [self.metrics]
    is the dictionary at [metrics].  The collector-wide lock is taken
    around the body; the body runs without interruption here.  The
    default of [event.get("timestamp", time.time())] is evaluated whether
    or not the event has a timestamp. *)
Definition MetricsCollector_handle_event (metrics : loc) (event : loc)
    : M unit :=
  let! ev := get_dict event in
  let event_type := dict_get ev "event_type" (VStr "unknown") in
  let pipeline_id := dict_get ev "pipeline_id" (VStr "unknown") in
  let step := dict_get ev "step" (VStr "unknown") in
  let! pid := as_key pipeline_id in
  do! ensure_run metrics pid in
  if val_eq_str event_type "metric" then
    let metric_name := dict_get ev "metric_name" (VStr "unknown") in
    let metric_value := dict_get ev "metric_value" (VInt 0) in
    let! name := as_key metric_name in
    let! mets := subscript2 metrics pid "metrics" in
    do! ensure_list mets name in
    let! now := time_time in
    append_entry mets name
      (<["value" := metric_value]>
         (<["step" := step]>
            (<["timestamp" := dict_get ev "timestamp" (VFloat now)]> ∅)))
  else if val_eq_str event_type "step_end" then
    let! stepk := as_key step in
    let! steps := subscript2 metrics pid "steps" in
    do! ensure_list steps stepk in
    let duration := dict_get ev "duration" (VInt 0) in
    let! now := time_time in
    append_entry steps stepk
      (<["duration" := duration]>
         (<["timestamp" := dict_get ev "timestamp" (VFloat now)]> ∅))
  else ret tt.

(** [MetricsCollector(event_types)]: a new collector with an empty
    [self.metrics]. *)
Definition MetricsCollector_init (arg : option (list string))
    : M (loc * EventSubscriber) :=
  let! metrics := alloc (ODict ∅) in
  ret (metrics,
       mkSubscriber "MetricsCollector"
         (event_types_or arg ["metric"; "step_end"])
         (MetricsCollector_handle_event metrics)).

(** [[run[field] for run in runs]] for a reference [runs] to a list of
    dictionaries. *)
Definition column (field : string) (runs : val) : M (list val) :=
  let! l := as_ref runs in
  let! xs := get_list l in
  mapM (fun run => let! r := as_ref run in subscript r field) xs.

(** [get_step_durations]: a new dictionary of new lists, returned by
    value. *)
Definition get_step_durations (metrics : loc) (pipeline_id : string)
    : M (gmap string (list val)) :=
  let! root := get_dict metrics in
  match root !! pipeline_id with
  | None => ret ∅
  | Some _ =>
      let! steps := subscript2 metrics pipeline_id "steps" in
      let! sd := get_dict steps in
      let! cols := mapM (fun kv : string * val =>
                           let! ds := column "duration" kv.2 in
                           ret (kv.1, ds))
                        (map_to_list sd) in
      ret (list_to_map cols)
  end.

Definition get_metric_values (metrics : loc) (pipeline_id : string)
    (metric_name : string) : M (list val) :=
  let! root := get_dict metrics in
  match root !! pipeline_id with
  | None => ret []
  | Some _ =>
      let! mets := subscript2 metrics pipeline_id "metrics" in
      let! md := get_dict mets in
      match md !! metric_name with
      | None => ret []
      | Some runs => column "value" runs
      end
  end.

(** Python numbers: [bool] and [int] are integers, [float] is idealised. *)
Inductive num :=
  | NInt (z : Z)
  | NFloat (q : Q).

Definition as_num (v : val) : option num :=
  match v with
  | VBool b => Some (NInt (Z.b2z b))
  | VInt z => Some (NInt z)
  | VFloat q => Some (NFloat q)
  | _ => None
  end.

Definition num_Q (n : num) : Q :=
  match n with
  | NInt z => inject_Z z
  | NFloat q => q
  end.

(** A computation that touches no state. *)
Definition of_result {S A} (r : result A) : ST S A := fun s => (r, s).

(** [a + b] *)
Definition py_add (a b : val) : result val :=
  match as_num a, as_num b with
  | Some (NInt x), Some (NInt y) => Ok (VInt (x + y))
  | Some x, Some y => Ok (VFloat (num_Q x + num_Q y))
  | _, _ => Raise (mkExn "TypeError" "unsupported operand type(s) for +")
  end.

(** [a / b]: true division. *)
Definition py_truediv (a b : val) : result val :=
  match as_num a, as_num b with
  | Some x, Some y =>
      if Qeq_bool (num_Q y) 0
      then Raise (mkExn "ZeroDivisionError" "division by zero")
      else Ok (VFloat (num_Q x / num_Q y))
  | _, _ => Raise (mkExn "TypeError" "unsupported operand type(s) for /")
  end.

(** [sum(xs)]: starts from the integer [0] and adds from the left. *)
Fixpoint py_sum_from (acc : val) (xs : list val) : result val :=
  match xs with
  | [] => Ok acc
  | x :: rest =>
      match py_add acc x with
      | Ok acc' => py_sum_from acc' rest
      | Raise e => Raise e
      end
  end.

Definition py_sum (xs : list val) : result val := py_sum_from (VInt 0) xs.

(** [if not durations: return None] and
    [return sum(durations) / len(durations)]; [None] is Python's
    "no data". *)
Definition average (durations : list val) : result val :=
  match durations with
  | [] => Ok VNone
  | _ =>
      match py_sum durations with
      | Ok total => py_truediv total (VInt (Z.of_nat (length durations)))
      | Raise e => Raise e
      end
  end.

Definition get_average_duration (metrics : loc) (pipeline_id : string)
    (step : string) : M val :=
  let! by_step := get_step_durations metrics pipeline_id in
  let durations := default [] (by_step !! step) in
  of_result (average durations).

(** ** json.dumps / json.loads

    The text [json.dumps] produces is kept as its syntax tree; parsing
    that text back is reading the tree. *)
#[local] Unset Elimination Schemes.
Inductive json :=
  | JNull
  | JBool (b : bool)
  | JInt (z : Z)
  | JFloat (q : Q)
  | JStr (s : string)
  | JArr (items : list json)
  | JObj (fields : list (string * json)).
#[local] Set Elimination Schemes.

(** [[f(x) for x in xs]] for a store-reading [f]. *)
Fixpoint mapR {A B} (f : A -> result B) (xs : list A) : result (list B) :=
  match xs with
  | [] => Ok []
  | x :: rest =>
      match f x with
      | Raise e => Raise e
      | Ok y => match mapR f rest with
                | Raise e => Raise e
                | Ok ys => Ok (y :: ys)
                end
      end
  end.

(** The interpreter's recursion limit, which bounds the nesting the
    encoder accepts. *)
Definition recursion_limit : nat := 1000.

(** The encoder.  [seen] holds the containers being encoded (json's
    [markers]): meeting one again is a circular reference.  Tuples encode
    as arrays; objects of other classes are not serialisable. *)
Fixpoint dumps (depth : nat) (seen : gset loc) (h : gmap loc obj) (v : val)
    : result json :=
  match v with
  | VNone => Ok JNull
  | VBool b => Ok (JBool b)
  | VInt z => Ok (JInt z)
  | VFloat q => Ok (JFloat q)
  | VStr s => Ok (JStr s)
  | VRef l =>
      if decide (l ∈ seen) then
        Raise (mkExn "ValueError" "Circular reference detected")
      else
        match depth with
        | O => Raise (mkExn "RecursionError" "maximum recursion depth exceeded")
        | S depth' =>
            let seen' := {[l]} ∪ seen in
            match h !! l with
            | Some (ODict d) =>
                match mapR (fun kv : string * val =>
                              match dumps depth' seen' h kv.2 with
                              | Ok j => Ok (kv.1, j)
                              | Raise e => Raise e
                              end) (map_to_list d) with
                | Ok fields => Ok (JObj fields)
                | Raise e => Raise e
                end
            | Some (OList xs) | Some (OTuple xs) =>
                match mapR (dumps depth' seen' h) xs with
                | Ok items => Ok (JArr items)
                | Raise e => Raise e
                end
            | _ => Raise (mkExn "TypeError" "Object is not JSON serializable")
            end
        end
  end.

Definition json_dumps (v : val) : M json :=
  fun w => (dumps recursion_limit ∅ (w_heap w) v, w).

(** The decoder builds new objects, children first.  When a key occurs
    twice in an object, its last value stays. *)
Fixpoint json_loads (j : json) : M val :=
  match j with
  | JNull => ret VNone
  | JBool b => ret (VBool b)
  | JInt z => ret (VInt z)
  | JFloat q => ret (VFloat q)
  | JStr s => ret (VStr s)
  | JArr items =>
      let! xs := mapM json_loads items in
      let! l := alloc (OList xs) in
      ret (VRef l)
  | JObj fields =>
      let! kvs := mapM (fun kv : string * json =>
                          let! v := json_loads kv.2 in
                          ret (kv.1, v)) fields in
      let! l := alloc (ODict (list_to_map (reverse kvs))) in
      ret (VRef l)
  end.

(** [export_metrics]: [json.loads(json.dumps(self.metrics))]. *)
Definition export_metrics (metrics : loc) : M val :=
  let! text := json_dumps (VRef metrics) in
  json_loads text.

(** ** PipelineContext *)

(** [PipelineContext(pipeline_id, parent_id)].  [pipeline_id or uuid]:
    [None] and the empty string are falsy. *)
Definition PipelineContext_init (pid : option string) (parent : val)
    : M loc :=
  let! id := match pid with
             | Some (String a s) => ret (String a s)
             | _ => uuid4
             end in
  let! now := time_time in
  alloc (OCtx (mkContext id parent now ∅)).

Definition event_fields (kind : string) (c : PipelineContext)
    (step : string) : gmap string val :=
  <["event_type" := VStr kind]>
    (<["pipeline_id" := VStr (pipeline_id c)]>
       (<["parent_id" := parent_id c]>
          (<["step" := VStr step]> ∅))).

Definition record_step_start (bus : list EventSubscriber) (self : loc)
    (step : string) : T unit :=
  let! now := lift time_time in
  let! c := lift (get_ctx self) in
  do! lift (store self (OCtx (mkContext (pipeline_id c) (parent_id c)
                                (start_time c)
                                (<[step := now]> (step_times c))))) in
  let! c := lift (get_ctx self) in
  let! event := lift (alloc (ODict (event_fields "step_start" c step))) in
  publish_event bus event.

(** [type(outputs).__name__] and the shape of [outputs]. *)
Definition output_info_of (outputs : val) : M val :=
  let plain (ty : string) : M val :=
    let! l := alloc (ODict (<["type" := VStr ty]> ∅)) in ret (VRef l) in
  let sized (ty : string) (n : nat) : M val :=
    let! l := alloc (ODict (<["type" := VStr ty]>
                              (<["length" := VInt (Z.of_nat n)]> ∅))) in
    ret (VRef l) in
  let with_attrs (ty : string) (names : list string) : M val :=
    let! a := alloc (OList (VStr <$> names)) in
    let! l := alloc (ODict (<["type" := VStr ty]>
                              (<["attributes" := VRef a]> ∅))) in
    ret (VRef l) in
  match outputs with
  | VNone => ret VNone
  | VBool _ => plain "bool"
  | VInt _ => plain "int"
  | VFloat _ => plain "float"
  | VStr _ => plain "str"
  | VRef l =>
      fun w =>
        match w_heap w !! l with
        | Some (OList xs) => sized "list" (length xs) w
        | Some (OTuple xs) => sized "tuple" (length xs) w
        | Some (OInst cls attrs) => with_attrs cls (attrs.*1) w
        | Some (OCtx _) =>
            with_attrs "PipelineContext"
              ["pipeline_id"; "parent_id"; "event_manager"; "start_time";
               "step_times"] w
        | Some (ODict _) => plain "dict" w
        | None => plain "object" w
        end
  end.

Definition record_step_end (bus : list EventSubscriber) (self : loc)
    (step : string) (outputs : val) : T unit :=
  let! c := lift (get_ctx self) in
  let started := default (start_time c) (step_times c !! step) in
  let! now := lift time_time in
  let duration := (now - started)%Q in
  let! output_info := lift (output_info_of outputs) in
  let! c := lift (get_ctx self) in
  let! event := lift (alloc (ODict (<["duration" := VFloat duration]>
                                      (<["output_info" := output_info]>
                                         (event_fields "step_end" c step))))) in
  publish_event bus event.

(** [str(error)] and [type(error).__name__] go into the event. *)
Definition record_error (bus : list EventSubscriber) (self : loc)
    (step : string) (error : exn) : T unit :=
  let! c := lift (get_ctx self) in
  let! event := lift (alloc (ODict (<["error" := VStr (exn_msg error)]>
                                      (<["error_type" := VStr (exn_type error)]>
                                         (event_fields "error" c step))))) in
  publish_event bus event.

Definition record_metric (bus : list EventSubscriber) (self : loc)
    (step : string) (metric_name : string) (value : val) : T unit :=
  let! c := lift (get_ctx self) in
  let! event := lift (alloc (ODict (<["metric_name" := VStr metric_name]>
                                      (<["metric_value" := value]>
                                         (event_fields "metric" c step))))) in
  publish_event bus event.

(** [get_step_timing]: [None] when the step has no recorded start. *)
Definition get_step_timing (self : loc) (step : string) : M val :=
  let! c := get_ctx self in
  match step_times c !! step with
  | Some started =>
      let! now := time_time in
      ret (VFloat (now - started))
  | None => ret VNone
  end.

(** ** step_timing *)

(** [isinstance(v, PipelineContext)] *)
Definition is_PipelineContext (v : val) : M bool :=
  fun w => (Ok match v with
               | VRef l => match w_heap w !! l with
                           | Some (OCtx _) => true
                           | _ => false
                           end
               | _ => false
               end, w).

Definition is_None (v : val) : bool :=
  match v with VNone => true | _ => false end.

(** The context the wrapper works with: [self.context], else the first
    positional argument, else the keyword argument [context], else a new
    one.  The keyword branch is the [elif] of the first test, so it is
    also taken when [self.context] is set. *)
Definition resolve_context (self_context : val) (args : list val)
    (kwargs : gmap string val) : M val :=
  let context := self_context in
  let! first_is_ctx := match args with
                       | a :: _ => is_PipelineContext a
                       | [] => ret false
                       end in
  let! context :=
    if is_None context && first_is_ctx then ret (default VNone (head args))
    else match kwargs !! "context" with
         | Some k =>
             let! b := is_PipelineContext k in
             ret (if b then k else context)
         | None => ret context
         end in
  if is_None context then
    let! l := PipelineContext_init None VNone in ret (VRef l)
  else ret context.

(** Calling a method of [context]: [context] has to be an object. *)
Definition as_object (v : val) : M loc :=
  match v with
  | VRef l => ret l
  | _ => raise "AttributeError" "object has no attribute"
  end.

(** The wrapper that [step_timing(step_name, context)] puts around
    [func], called with positional [args] and keyword [kwargs]. *)
Definition step_timing (bus : list EventSubscriber) (step_name : string)
    (self_context : val) (func : list val -> gmap string val -> M val)
    (args : list val) (kwargs : gmap string val) : T val :=
  let! context := lift (resolve_context self_context args kwargs) in
  let! context := lift (as_object context) in
  do! record_step_start bus context step_name in
  try_except
    (let! result := lift (func args kwargs) in
     do! record_step_end bus context step_name result in
     ret result)
    (fun e =>
       do! record_error bus context step_name e in
       reraise e).

(** ** publish_event while other threads register

    The loop of [publish_event] reads [self.subscribers] through a list
    iterator: a position into the live list, compared with the list's
    current length at every turn.  [register_subscriber] appends under
    [self.lock]; [publish_event] never takes that lock.  A schedule is a
    sequence of atomic actions of the publishing thread and of registering
    threads. *)
Inductive action :=
  | Turn
  | Acquire (thread : nat)
  | Append (thread : nat) (subscriber : EventSubscriber)
  | Release (thread : nat).

Record bus_state := mkBus {
  subscribers : list EventSubscriber;
  lock_holder : option nat;
  cursor : nat;
  looping : bool;
  b_sys : system
}.

(** One atomic action; [None] when the action cannot run in this state
    (the lock is taken, or not held by the thread). *)
Definition bus_step (event : loc) (event_type : val) (a : action)
    (b : bus_state) : option bus_state :=
  match a with
  | Turn =>
      if looping b then
        match subscribers b !! cursor b with
        | Some s =>
            Some (mkBus (subscribers b) (lock_holder b) (S (cursor b)) true
                        (deliver s event event_type (b_sys b)).2)
        | None =>
            Some (mkBus (subscribers b) (lock_holder b) (cursor b) false
                        (b_sys b))
        end
      else Some b
  | Acquire t =>
      match lock_holder b with
      | None => Some (mkBus (subscribers b) (Some t) (cursor b) (looping b)
                            (b_sys b))
      | Some _ => None
      end
  | Append t s =>
      if decide (lock_holder b = Some t) then
        Some (mkBus (register_subscriber (subscribers b) s) (lock_holder b)
                    (cursor b) (looping b) (b_sys b))
      else None
  | Release t =>
      if decide (lock_holder b = Some t) then
        Some (mkBus (subscribers b) None (cursor b) (looping b) (b_sys b))
      else None
  end.

Fixpoint bus_run (event : loc) (event_type : val) (schedule : list action)
    (b : bus_state) : option bus_state :=
  match schedule with
  | [] => Some b
  | a :: rest =>
      match bus_step event event_type a b with
      | Some b' => bus_run event event_type rest b'
      | None => None
      end
  end.

(** The state in which the loop of [publish_event] starts. *)
Definition bus_start (subs : list EventSubscriber) (holder : option nat)
    (s : system) : bus_state :=
  mkBus subs holder 0 true s.

(** The events the history shows as dispatched, in order. *)
Definition published (h : list obs) : list (loc * gmap string val) :=
  omap (fun o => match o with
                 | Published e d => Some (e, d)
                 | Handled _ _ _ => None
                 end) h.

(** * Part II: notions used to state the properties *)

(** The [handle_event] calls the history shows: which subscriber, with
    which event object. *)
Definition calls (h : list obs) : list (EventSubscriber * loc) :=
  omap (fun o => match o with
                 | Handled s e _ => Some (s, e)
                 | Published _ _ => None
                 end) h.

(** The world after one turn of the loop for a matching subscriber. *)
Definition deliver_world (s : EventSubscriber) (event : loc) (w : world)
    : world :=
  match handle_event s event w with
  | (Ok _, w') => w'
  | (Raise x, w') =>
      set_log (w_log w' ++ [(ERROR, error_message s x)]) w'
  end.

Definition deliver_sys (event : loc) (event_type : val) (sys : system)
    (s : EventSubscriber) : system :=
  if should_handle s event_type then
    mkSystem (deliver_world s event (s_world sys))
             (s_hist sys ++ [Handled s event (w_heap (s_world sys) !! event)])
  else sys.

Definition dispatch_sys (subs : list EventSubscriber) (event : loc)
    (event_type : val) (sys : system) : system :=
  foldl (deliver_sys event event_type) sys subs.

(** A computation that leaves the object at [l] as it is. *)
Definition preserves {A} (l : loc) (m : M A) : Prop :=
  forall w, w_heap (m w).2 !! l = w_heap w !! l.

(** The event type the bus reads off an event's content. *)
Definition event_type_of (d : gmap string val) : val :=
  dict_get d "event_type" (VStr "unknown").

(** What [stamp] does to the store: nothing when the event has a
    timestamp, one write to the event's dictionary otherwise. *)
Definition stamped (d : gmap string val) (w : world) : gmap string val :=
  match d !! "timestamp" with
  | Some _ => d
  | None => <["timestamp" := VFloat (w_clock w (w_tick w))]> d
  end.

Definition stamp_world (e : loc) (d : gmap string val) (w : world) : world :=
  match d !! "timestamp" with
  | Some _ => w
  | None =>
      mkWorld (<[e := ODict (<["timestamp" := VFloat (w_clock w (w_tick w))]> d)]>
                 (w_heap w))
              (w_clock w) (S (w_tick w)) (w_uuid w) (w_nuuid w) (w_log w)
  end.

(** What holds of the bus at every moment of a publish that started
    from the list [subs0] with the calls [base] already in the history:
    the list has only grown, and the calls made so far are the matching
    subscribers among those the iterator has passed. *)
Definition bus_inv (event : loc) (event_type : val)
    (subs0 : list EventSubscriber) (base : list (EventSubscriber * loc))
    (b : bus_state) : Prop :=
  (exists added, subscribers b = subs0 ++ added)
  /\ cursor b <= length (subscribers b)
  /\ calls (s_hist (b_sys b))
     = base ++ ((fun s => (s, event))
                  <$> List.filter (fun s => should_handle s event_type)
                        (take (cursor b) (subscribers b))).

(** A computation that only adds objects to the store and leaves the
    clock, the identifier supply and the log alone. *)
Definition allocates_only {A} (m : M A) : Prop :=
  forall w, exists a w',
    m w = (Ok a, w')
    /\ (forall l x, w_heap w !! l = Some x -> w_heap w' !! l = Some x)
    /\ w_clock w' = w_clock w /\ w_tick w' = w_tick w
    /\ w_uuid w' = w_uuid w /\ w_nuuid w' = w_nuuid w
    /\ w_log w' = w_log w.

(** The context after [self.step_times[step] = t]. *)
Definition started_at (c : PipelineContext) (step : string) (t : Q)
    : PipelineContext :=
  mkContext (pipeline_id c) (parent_id c) (start_time c)
            (<[step := t]> (step_times c)).

(** The next reading of the clock. *)
Definition now (w : world) : Q := w_clock w (w_tick w).

(** A bus none of whose subscribers writes to the object at [l],
    whatever event it is handed. *)
Definition bus_preserves (bus : list EventSubscriber) (l : loc) : Prop :=
  forall s e, s ∈ bus -> preserves l (handle_event s e).

(** ** The shape of the collector's state

    [self.metrics] is a tree of dictionaries and lists:
    run id -> {"steps": step -> [{"duration", "timestamp"}],
               "metrics": name -> [{"value", "step", "timestamp"}]}.
    A shape assigns to each location of that tree the role its object
    plays and what it holds; the store realises the shape when every
    such location holds the object its role describes. *)
Inductive node :=
  | NRoot (runs : gmap string loc)
  | NRun (steps metrics : loc)
  | NSteps (lists : gmap string loc)
  | NMetrics (lists : gmap string loc)
  | NStepList (entries : list loc)
  | NMetricList (entries : list loc)
  | NStepEntry (duration timestamp : val)
  | NMetricEntry (value step timestamp : val).

Definition realize (n : node) : obj :=
  match n with
  | NRoot runs => ODict (VRef <$> runs)
  | NRun steps metrics =>
      ODict (<["steps" := VRef steps]> (<["metrics" := VRef metrics]> ∅))
  | NSteps lists => ODict (VRef <$> lists)
  | NMetrics lists => ODict (VRef <$> lists)
  | NStepList entries => OList (VRef <$> entries)
  | NMetricList entries => OList (VRef <$> entries)
  | NStepEntry duration timestamp =>
      ODict (<["duration" := duration]> (<["timestamp" := timestamp]> ∅))
  | NMetricEntry value step timestamp =>
      ODict (<["value" := value]>
               (<["step" := step]> (<["timestamp" := timestamp]> ∅)))
  end.

(** Every reference inside a node leads to a node of the role expected
    there. *)
Definition node_ok (S : gmap loc node) (n : node) : Prop :=
  match n with
  | NRoot runs =>
      forall pid r, runs !! pid = Some r -> exists s m, S !! r = Some (NRun s m)
  | NRun steps metrics =>
      (exists ls, S !! steps = Some (NSteps ls))
      /\ (exists ls, S !! metrics = Some (NMetrics ls))
  | NSteps lists =>
      forall k l, lists !! k = Some l -> exists es, S !! l = Some (NStepList es)
  | NMetrics lists =>
      forall k l, lists !! k = Some l ->
                  exists es, S !! l = Some (NMetricList es)
  | NStepList entries =>
      Forall (fun e => exists d t, S !! e = Some (NStepEntry d t)) entries
  | NMetricList entries =>
      Forall (fun e => exists v st t, S !! e = Some (NMetricEntry v st t))
             entries
  | NStepEntry _ _ => True
  | NMetricEntry _ _ _ => True
  end.

Definition collector_repr (h : gmap loc obj) (metrics : loc)
    (S : gmap loc node) : Prop :=
  (exists runs, S !! metrics = Some (NRoot runs))
  /\ (forall l n, S !! l = Some n -> node_ok S n)
  /\ (forall l n, S !! l = Some n -> h !! l = Some (realize n)).

(** What a shape says was recorded. *)
Definition duration_of (S : gmap loc node) (e : loc) : val :=
  match S !! e with
  | Some (NStepEntry d _) => d
  | _ => VNone
  end.

Definition value_of (S : gmap loc node) (e : loc) : val :=
  match S !! e with
  | Some (NMetricEntry v _ _) => v
  | _ => VNone
  end.

Definition durations_at (S : gmap loc node) (l : loc) : list val :=
  match S !! l with
  | Some (NStepList es) => duration_of S <$> es
  | _ => []
  end.

Definition values_at (S : gmap loc node) (l : loc) : list val :=
  match S !! l with
  | Some (NMetricList es) => value_of S <$> es
  | _ => []
  end.

Definition run_of (S : gmap loc node) (metrics : loc) (pid : string)
    : option (loc * loc) :=
  match S !! metrics with
  | Some (NRoot runs) =>
      match runs !! pid with
      | Some r => match S !! r with
                  | Some (NRun s m) => Some (s, m)
                  | _ => None
                  end
      | None => None
      end
  | _ => None
  end.

(** The durations recorded for each step of run [pid], in the order
    they were recorded. *)
Definition recorded_durations (S : gmap loc node) (metrics : loc)
    (pid : string) : gmap string (list val) :=
  match run_of S metrics pid with
  | Some (s, _) => match S !! s with
                   | Some (NSteps ls) => durations_at S <$> ls
                   | _ => ∅
                   end
  | None => ∅
  end.

(** The values recorded for metric [name] of run [pid]. *)
Definition recorded_values (S : gmap loc node) (metrics : loc)
    (pid name : string) : list val :=
  match run_of S metrics pid with
  | Some (_, m) => match S !! m with
                   | Some (NMetrics ls) =>
                       match ls !! name with
                       | Some l => values_at S l
                       | None => []
                       end
                   | _ => []
                   end
  | None => []
  end.

(** The arithmetic mean, in the design text's words: the sum divided by
    the count. *)
Definition Qsum (qs : list Q) : Q := foldr Qplus 0%Q qs.

Definition arithmetic_mean (qs : list Q) : Q :=
  (Qsum qs / inject_Z (Z.of_nat (length qs)))%Q.

(** The role a node plays, and how far it is from the leaves. *)
Definition rank (n : node) : nat :=
  match n with
  | NRoot _ => 5
  | NRun _ _ => 4
  | NSteps _ | NMetrics _ => 3
  | NStepList _ | NMetricList _ => 2
  | NStepEntry _ _ | NMetricEntry _ _ _ => 1
  end.

Definition same_role (n n' : node) : Prop :=
  match n, n' with
  | NRoot _, NRoot _ | NRun _ _, NRun _ _ | NSteps _, NSteps _
  | NMetrics _, NMetrics _ | NStepList _, NStepList _
  | NMetricList _, NMetricList _ | NStepEntry _ _, NStepEntry _ _
  | NMetricEntry _ _ _, NMetricEntry _ _ _ => True
  | _, _ => False
  end.

Definition scalar (v : val) : Prop :=
  match v with
  | VRef _ => False
  | _ => True
  end.

(** What was recorded are numbers and strings, as the type hints of the
    [record_*] methods say. *)
Definition payloads_scalar (S : gmap loc node) : Prop :=
  forall l n, S !! l = Some n ->
    match n with
    | NStepEntry d t => scalar d /\ scalar t
    | NMetricEntry v st t => scalar v /\ scalar st /\ scalar t
    | _ => True
    end.

(** The values an object holds, and the objects that can be reached
    from a value by following references. *)
Definition children (o : obj) : list val :=
  match o with
  | ODict d => (map_to_list d).*2
  | OList xs => xs
  | OTuple xs => xs
  | OInst _ attrs => attrs.*2
  | OCtx c => [parent_id c]
  end.

Inductive reachable (h : gmap loc obj) : val -> loc -> Prop :=
  | reach_here l : reachable h (VRef l) l
  | reach_step l o v l' :
      h !! l = Some o -> v ∈ children o -> reachable h v l' ->
      reachable h (VRef l) l'.

(** [h'] keeps every object of [h], and its other objects refer to no
    object of [h]. *)
Definition grows (h h' : gmap loc obj) : Prop :=
  (forall l x, h !! l = Some x -> h' !! l = Some x)
  /\ (forall l o l', h !! l = None -> h' !! l = Some o ->
                     VRef l' ∈ children o -> h !! l' = None).

Definition new_in (h : gmap loc obj) (v : val) : Prop :=
  forall l, v = VRef l -> h !! l = None.

(** Induction on JSON trees, through the lists of items and fields. *)
Fixpoint json_ind (P : json -> Prop)
    (HNull : P JNull) (HBool : forall b, P (JBool b))
    (HInt : forall z, P (JInt z)) (HFloat : forall q, P (JFloat q))
    (HStr : forall s, P (JStr s))
    (HArr : forall items, Forall P items -> P (JArr items))
    (HObj : forall fields, Forall (fun f => P f.2) fields -> P (JObj fields))
    (j : json) {struct j} : P j :=
  match j with
  | JNull => HNull
  | JBool b => HBool b
  | JInt z => HInt z
  | JFloat q => HFloat q
  | JStr s => HStr s
  | JArr items =>
      HArr items
        ((fix go (l : list json) : Forall P l :=
            match l with
            | [] => @List.Forall_nil _ P
            | x :: r =>
                @List.Forall_cons _ P x r
                  (json_ind P HNull HBool HInt HFloat HStr HArr HObj x) (go r)
            end) items)
  | JObj fields =>
      HObj fields
        ((fix go (l : list (string * json)) : Forall (fun f => P f.2) l :=
            match l with
            | [] => @List.Forall_nil _ (fun f => P f.2)
            | x :: r =>
                @List.Forall_cons _ (fun f => P f.2) x r
                  (json_ind P HNull HBool HInt HFloat HStr HArr HObj x.2)
                  (go r)
            end) fields)
  end.

(** The decoder never fails; it leaves every existing object as it is,
    and what it returns is made of new objects only. *)
Definition loads_ok (j : json) : Prop :=
  forall w, exists v w',
    json_loads j w = (Ok v, w')
    /\ grows (w_heap w) (w_heap w')
    /\ new_in (w_heap w) v.

(** [R] holds between the elements of two lists, position by position. *)
Fixpoint all2 {A B} (R : A -> B -> Prop) (xs : list A) (ys : list B) : Prop :=
  match xs, ys with
  | [], [] => True
  | x :: xs', y :: ys' => R x y /\ all2 R xs' ys'
  | _, _ => False
  end.

(** Every field of [fs] is a key of [d] whose value is related to it. *)
Fixpoint all_fields (R : json -> val -> Prop) (d : gmap string val)
    (fs : list (string * json)) : Prop :=
  match fs with
  | [] => True
  | f :: fs' => (exists v, d !! f.1 = Some v /\ R f.2 v) /\ all_fields R d fs'
  end.

(** The structure at [v] in the store [h] has the content [j]: the same
    scalars, lists of the same items in the same order, dictionaries of
    the same keys with the same contents. *)
Fixpoint holds (h : gmap loc obj) (j : json) (v : val) {struct j} : Prop :=
  match j with
  | JNull => v = VNone
  | JBool b => v = VBool b
  | JInt z => v = VInt z
  | JFloat q => v = VFloat q
  | JStr s => v = VStr s
  | JArr items =>
      exists l xs,
        v = VRef l
        /\ (h !! l = Some (OList xs) \/ h !! l = Some (OTuple xs))
        /\ all2 (holds h) items xs
  | JObj fields =>
      exists l d,
        v = VRef l
        /\ h !! l = Some (ODict d)
        /\ NoDup fields.*1
        /\ (forall k, is_Some (d !! k) <-> k ∈ fields.*1)
        /\ all_fields (holds h) d fields
  end.

(** [h2] comes from [h'] by changing at most the objects reachable
    from [r] (and adding objects). *)
Definition mutated_copy (h' : gmap loc obj) (r : val) (h2 : gmap loc obj)
    : Prop :=
  forall l x, h' !! l = Some x -> ~ reachable h' r l -> h2 !! l = Some x.

(** From [(S, w)] to [(S', w')]: every object that exists and is not
    part of the shape stays as it is, and stays outside the shape. *)
Definition frames (S : gmap loc node) (w : world) (S' : gmap loc node)
    (w' : world) : Prop :=
  forall l x, S !! l = None -> w_heap w !! l = Some x ->
              w_heap w' !! l = Some x /\ S' !! l = None.

(** The two kinds of bucket and of list in a run, and their entries. *)
Definition bucket_node (metric : bool) (ls : gmap string loc) : node :=
  if metric then NMetrics ls else NSteps ls.

Definition list_node (metric : bool) (es : list loc) : node :=
  if metric then NMetricList es else NStepList es.

Definition entry_scalar (n : node) : Prop :=
  match n with
  | NStepEntry d t => scalar d /\ scalar t
  | NMetricEntry v st t => scalar v /\ scalar st /\ scalar t
  | _ => True
  end.

Definition entry_of (metric : bool) (n : node) : Prop :=
  match n with
  | NStepEntry _ _ => metric = false
  | NMetricEntry _ _ _ => metric = true
  | _ => False
  end.

(** A call of one of the context's recording methods. *)
Inductive ctx_call :=
  | CallStart (step : string)
  | CallEnd (step : string) (outputs : val)
  | CallError (step : string) (error : exn)
  | CallMetric (step : string) (metric_name : string) (value : val).

Definition run_call (bus : list EventSubscriber) (self : loc)
    (c : ctx_call) : T unit :=
  match c with
  | CallStart step => record_step_start bus self step
  | CallEnd step outputs => record_step_end bus self step outputs
  | CallError step error => record_error bus self step error
  | CallMetric step name value => record_metric bus self step name value
  end.

Fixpoint run_calls (bus : list EventSubscriber) (self : loc)
    (cs : list ctx_call) : T unit :=
  match cs with
  | [] => ret tt
  | c :: rest => do! run_call bus self c in run_calls bus self rest
  end.

(** The collector's dictionaries as a tree: [c] is the child of node
    [n] under key [k]. *)
Definition child_at (n : node) (k : string) (c : loc) : Prop :=
  match n with
  | NRoot ls | NSteps ls | NMetrics ls => ls !! k = Some c
  | NRun s m => (k = "steps" /\ c = s) \/ (k = "metrics" /\ c = m)
  | _ => False
  end.

(** No object of the state is referenced from two places: a run, a
    bucket or a list belongs to one key of one dictionary. *)
Definition unshared (S : gmap loc node) : Prop :=
  forall l1 n1 k1 l2 n2 k2 c,
    S !! l1 = Some n1 -> S !! l2 = Some n2 ->
    child_at n1 k1 c -> child_at n2 k2 c -> l1 = l2 /\ k1 = k2.

(** The list kept for a key of a run: the durations of a step
    ([metric = false]) or the values of a metric ([metric = true]). *)
Definition list_at (metric : bool) (S : gmap loc node) (metrics : loc)
    (pid key : string) : option loc :=
  match run_of S metrics pid with
  | Some (s, m) =>
      match S !! (if metric then m else s) with
      | Some (NSteps ls) | Some (NMetrics ls) => ls !! key
      | _ => None
      end
  | None => None
  end.

(** What a list holds, and what is recorded under a key of a run;
    [None] when the key has no list. *)
Definition items_at (metric : bool) (S : gmap loc node) (l : loc)
    : list val :=
  if metric then values_at S l else durations_at S l.

Definition recorded (metric : bool) (S : gmap loc node) (metrics : loc)
    (pid key : string) : option (list val) :=
  items_at metric S <$> list_at metric S metrics pid key.

(** The duration or the value an entry holds. *)
Definition payload (n : node) : val :=
  match n with
  | NStepEntry d _ => d
  | NMetricEntry v _ _ => v
  | _ => VNone
  end.

(** The event type that fills a kind of bucket, and the fields of the
    event that give the key and the value. *)
Definition kind_name (metric : bool) : string :=
  if metric then "metric" else "step_end".

Definition key_field (metric : bool) : string :=
  if metric then "metric_name" else "step".

Definition payload_field (metric : bool) : string :=
  if metric then "metric_value" else "duration".

(** The collector's state is a well-formed tree without sharing. *)
Definition well_formed (h : gmap loc obj) (metrics : loc) : Prop :=
  exists S, collector_repr h metrics S /\ unshared S.

(** What an event asks the collector to record: the kind of bucket, the
    run, the key and the value. *)
Definition request (ev : gmap string val) (b : bool) (pid key : string)
    : Prop :=
  dict_get ev "pipeline_id" (VStr "unknown") = VStr pid
  /\ dict_get ev "event_type" (VStr "unknown") = VStr (kind_name b)
  /\ dict_get ev (key_field b) (VStr "unknown") = VStr key.

(** A subscriber that leaves every existing object as it is (it may
    create objects, write to the log, raise). *)
Definition keeps_store (s : EventSubscriber) : Prop :=
  forall e w l o, w_heap w !! l = Some o ->
                  w_heap (handle_event s e w).2 !! l = Some o.

(** An event that names its run, its step and its metric by strings, as
    the type hints of the [record_*] methods have it; a name that is
    absent counts as ["unknown"].  On these events [as_key] never
    fails. *)
Definition str_ids (ev : gmap string val) : Prop :=
  (exists pid, dict_get ev "pipeline_id" (VStr "unknown") = VStr pid)
  /\ (exists step, dict_get ev "step" (VStr "unknown") = VStr step)
  /\ (exists name, dict_get ev "metric_name" (VStr "unknown") = VStr name).

(** The states a collector goes through: it is created, it handles
    events that are dictionaries with string ids, and between these
    other code runs, which may do anything but write to the objects the
    collector has created ([own]). *)
Inductive collector_life (metrics : loc) : gset loc -> world -> Prop :=
  | life_init arg w sub w' :
      MetricsCollector_init arg w = (Ok (metrics, sub), w') ->
      collector_life metrics {[metrics]} w'
  | life_event own w event ev :
      collector_life metrics own w ->
      w_heap w !! event = Some (ODict ev) ->
      str_ids ev ->
      collector_life metrics
        (own ∪ (dom (w_heap (MetricsCollector_handle_event metrics event w).2)
                ∖ dom (w_heap w)))
        (MetricsCollector_handle_event metrics event w).2
  | life_other own w w' :
      collector_life metrics own w ->
      (forall l o, l ∈ own -> w_heap w !! l = Some o ->
                   w_heap w' !! l = Some o) ->
      collector_life metrics own w'.

(** What [output_info] is: [None], or a new dictionary of scalars and
    at most one list of strings. *)
Definition descriptor (h : gmap loc obj) (v : val) : Prop :=
  v = VNone
  \/ exists lo d,
       v = VRef lo /\ h !! lo = Some (ODict d)
       /\ forall k x, d !! k = Some x ->
            scalar x
            \/ exists la names,
                 x = VRef la /\ la <> lo
                 /\ h !! la = Some (OList (VStr <$> names)).

(** [type(v).__name__] *)
Definition type_name (h : gmap loc obj) (v : val) : string :=
  match v with
  | VNone => "NoneType"
  | VBool _ => "bool"
  | VInt _ => "int"
  | VFloat _ => "float"
  | VStr _ => "str"
  | VRef l =>
      match h !! l with
      | Some (ODict _) => "dict"
      | Some (OList _) => "list"
      | Some (OTuple _) => "tuple"
      | Some (OInst cls _) => cls
      | Some (OCtx _) => "PipelineContext"
      | None => "object"
      end
  end.

(** What a step_end event says about the outputs [v] of the step:
    nothing when [v] is [None]; otherwise a dictionary made for the
    event, with the name of [v]'s type, and with the length of a list
    or tuple, or the attribute names of an object that has a
    [__dict__] (in a list made for the event).  [h] is the store before
    the description is built and [h'] the store after; [oi] is the
    event's [output_info]. *)
Definition describes (h h' : gmap loc obj) (v oi : val) : Prop :=
  match v with
  | VNone => oi = VNone
  | _ =>
      exists l info,
        oi = VRef l /\ h !! l = None /\ h' !! l = Some (ODict info)
        /\ match v with
           | VRef r =>
               match h !! r with
               | Some (OList xs) | Some (OTuple xs) =>
                   info = <["type" := VStr (type_name h v)]>
                            (<["length" := VInt (Z.of_nat (length xs))]> ∅)
               | Some (OInst _ attrs) =>
                   exists a,
                     h !! a = None /\ a <> l
                     /\ h' !! a = Some (OList (VStr <$> attrs.*1))
                     /\ info = <["type" := VStr (type_name h v)]>
                                 (<["attributes" := VRef a]> ∅)
               | Some (OCtx _) =>
                   exists a,
                     h !! a = None /\ a <> l
                     /\ h' !! a
                        = Some (OList (VStr <$> ["pipeline_id"; "parent_id";
                                                 "event_manager"; "start_time";
                                                 "step_times"]))
                     /\ info = <["type" := VStr (type_name h v)]>
                                 (<["attributes" := VRef a]> ∅)
               | _ => info = <["type" := VStr (type_name h v)]> ∅
               end
           | _ => info = <["type" := VStr (type_name h v)]> ∅
           end
  end.

(** The claim as the design text words it: the step_end event emitted
    for an operation that returned [v] holds [v] under one of its
    keys. *)
Definition step_end_carries_result : Prop :=
  forall bus step_name self_context func args kwargs sys v sys',
    step_timing bus step_name self_context func args kwargs sys
    = (Ok v, sys') ->
    exists e d k,
      last (published (s_hist sys')) = Some (e, d) /\ d !! k = Some v.

(** ** Sample objects

    Small concrete worlds and subscribers on which the statements below
    are exercised. *)

Definition sample_clock (n : nat) : Q := inject_Z (100 + 5 * Z.of_nat n).

Definition sample_uuid (n : nat) : string :=
  match n with O => "run-a" | _ => "run-b" end.

Definition metric_event : gmap string val :=
  <["event_type" := VStr "metric"]>
    (<["pipeline_id" := VStr "p1"]>
       (<["step" := VStr "embed"]>
          (<["metric_name" := VStr "latency_ms"]>
             (<["metric_value" := VFloat (241 # 2)]> ∅)))).

(** A world whose store holds one event, without a timestamp, at
    location 1. *)
Definition sample_world : world :=
  mkWorld (<[1%positive := ODict metric_event]> ∅)
          sample_clock 0 sample_uuid 0 [].

Definition sample_sys : system := mkSystem sample_world [].

(** A subscriber whose handler fails, as a persistence subscriber does
    when the disk is full. *)
Definition failing_subscriber : EventSubscriber :=
  EventSubscriber_init "FileStorageSubscriber" None
    (fun _ => raise "OSError" "No space left on device").

(** A subscriber that writes one line to the log. *)
Definition noting_subscriber : EventSubscriber :=
  EventSubscriber_init "LoggingSubscriber" (Some ["metric"; "error"])
    (fun _ => logger INFO "event seen").

(** A subscriber interested in step ends only. *)
Definition step_end_subscriber : EventSubscriber :=
  EventSubscriber_init "StepEndSubscriber" (Some ["step_end"])
    (fun _ => logger INFO "step ended").

Definition sample_bus : list EventSubscriber :=
  register_subscriber
    (register_subscriber
       (register_subscriber [] failing_subscriber) step_end_subscriber)
    noting_subscriber.

(** A context for run ["p1"], created at 100, whose step ["load"] was
    started at 105, in a world where three readings were taken. *)
Definition sample_context : PipelineContext :=
  mkContext "p1" VNone (100 # 1) (<["load" := 105 # 1]> ∅).

Definition context_world : world :=
  mkWorld (<[2%positive := OCtx sample_context]> ∅)
          sample_clock 3 sample_uuid 1 [].

Definition context_sys : system := mkSystem context_world [].

(** A context is created, step ["load"] is started and ended on it, and
    then its timing is asked for. *)
Definition start_end_then_timing : T val :=
  let! ctx := lift (PipelineContext_init (Some "p1") VNone) in
  do! record_step_start sample_bus ctx "load" in
  do! record_step_end sample_bus ctx "load" VNone in
  lift (get_step_timing ctx "load").

(** The world after one more reading of the clock. *)
Definition ticked (w : world) : world :=
  mkWorld (w_heap w) (w_clock w) (S (w_tick w)) (w_uuid w) (w_nuuid w)
          (w_log w).

(** Snapshot dispatch, as the design text describes it: whatever is
    registered while a publish is in flight, the subscribers called are
    the matching ones of the list the publish started from. *)
Definition snapshot_dispatch : Prop :=
  forall e t schedule subs holder sys b',
    bus_run e t schedule (bus_start subs holder sys) = Some b' ->
    looping b' = false ->
    calls (s_hist (b_sys b'))
    = calls (s_hist sys)
      ++ ((fun s => (s, e)) <$> List.filter (fun s => should_handle s t) subs).

(** Thread 7 registers a subscriber after the first turn of a publish
    and before the loop has reached the end of the list. *)
Definition register_during_publish : list action :=
  [Turn; Acquire 7; Append 7 noting_subscriber; Release 7; Turn; Turn].

(** An operation that returns its first argument's length marker, and
    one that fails. *)
Definition answering_operation (args : list val) (kwargs : gmap string val)
    : M val :=
  ret (VInt 7).

Definition failing_operation (args : list val) (kwargs : gmap string val)
    : M val :=
  raise "ValueError" "bad input".

Definition step_end_event (pid step : string) (d : Q) : gmap string val :=
  <["event_type" := VStr "step_end"]>
    (<["pipeline_id" := VStr pid]>
       (<["step" := VStr step]>
          (<["duration" := VFloat d]> ∅))).

(** A new collector is handed two ends of step ["load"] of run ["p1"],
    of 2 and 4 seconds, and one metric. *)
Definition collector_run : M loc :=
  let! ms := MetricsCollector_init None in
  let! e1 := alloc (ODict (step_end_event "p1" "load" (2 # 1))) in
  do! handle_event ms.2 e1 in
  let! e2 := alloc (ODict (step_end_event "p1" "load" (4 # 1))) in
  do! handle_event ms.2 e2 in
  let! e3 := alloc (ODict metric_event) in
  do! handle_event ms.2 e3 in
  ret ms.1.

Definition collector_world : world :=
  (collector_run (mkWorld ∅ sample_clock 0 sample_uuid 0 [])).2.

(** The shape of the state that run builds; its root is at location 1. *)
Definition collector_shape : gmap loc node :=
  <[1%positive := NRoot (<["p1" := 5%positive]> ∅)]>
    (<[5%positive := NRun 3%positive 4%positive]>
       (<[3%positive := NSteps (<["load" := 6%positive]> ∅)]>
          (<[4%positive := NMetrics (<["latency_ms" := 11%positive]> ∅)]>
             (<[6%positive := NStepList [7%positive; 9%positive]]>
                (<[7%positive := NStepEntry (VFloat (2 # 1)) (VFloat (100 # 1))]>
                   (<[9%positive := NStepEntry (VFloat (4 # 1))
                                              (VFloat (105 # 1))]>
                      (<[11%positive := NMetricList [12%positive]]>
                         (<[12%positive :=
                              NMetricEntry (VFloat (241 # 2)) (VStr "embed")
                                           (VFloat (110 # 1))]> ∅)))))))).

(** A store with a metric event at 1, the empty state of a collector at
    2, the context of run ["p1"] at 3 and the end of a step of 2 seconds
    at 4. *)
Definition observed_world : world :=
  mkWorld (<[1%positive := ODict metric_event]>
             (<[2%positive := ODict ∅]>
                (<[3%positive := OCtx sample_context]>
                   (<[4%positive :=
                        ODict (step_end_event "p1" "load" (2 # 1))]> ∅))))
          sample_clock 3 sample_uuid 1 [].

Definition observed_sys : system := mkSystem observed_world [].

(** The collector whose state is at 2, with its default filter. *)
Definition sample_collector : EventSubscriber :=
  mkSubscriber "MetricsCollector" ["metric"; "step_end"]
               (MetricsCollector_handle_event 2%positive).

(** A store with the empty state of a collector at 2 and, at 1, the end
    of a step whose duration is the string ["fast"]. *)
Definition bad_duration_world : world :=
  mkWorld (<[1%positive :=
               ODict (<["event_type" := VStr "step_end"]>
                        (<["pipeline_id" := VStr "p1"]>
                           (<["step" := VStr "load"]>
                              (<["duration" := VStr "fast"]> ∅))))]>
             (<[2%positive := ODict ∅]> ∅))
          sample_clock 0 sample_uuid 0 [].

(** The world after the collector has handled that event. *)
Definition bad_duration_recorded : world :=
  (MetricsCollector_handle_event 2%positive 1%positive bad_duration_world).2.

(** A store with two contexts: the one a decorator was given at 2, the
    one a caller passes by keyword at 3. *)
Definition two_contexts_world : world :=
  mkWorld (<[2%positive := OCtx sample_context]>
             (<[3%positive := OCtx (mkContext "p2" VNone (100 # 1) ∅)]> ∅))
          sample_clock 0 sample_uuid 0 [].

(** A store with a metric event of run ["p1"] at 1, the empty state of a
    collector at 2 and the end of a step of run ["p2"] at 3. *)
Definition busy_world : world :=
  mkWorld (<[1%positive := ODict metric_event]>
             (<[2%positive := ODict ∅]>
                (<[3%positive :=
                     ODict (step_end_event "p2" "load" (3 # 1))]> ∅)))
          sample_clock 0 sample_uuid 0 [].

(** The world after the collector has handled the metric event. *)
Definition busy_recorded : world :=
  (MetricsCollector_handle_event 2%positive 1%positive busy_world).2.

(** A bus that holds the collector whose state is at 2, between a
    subscriber that logs and one that fails. *)
Definition collector_bus : list EventSubscriber :=
  [noting_subscriber; sample_collector; failing_subscriber].

(** A context is created, step ["load"] is started on it, and its
    timing is asked for while the step is open. *)
Definition start_then_timing : T val :=
  let! ctx := lift (PipelineContext_init (Some "p1") VNone) in
  do! record_step_start sample_bus ctx "load" in
  lift (get_step_timing ctx "load").

(** * Part III: properties *)

(** ** The event bus *)

Lemma deliver_eq s e t sys :
  deliver s e t sys = (Ok tt, deliver_sys e t sys s).
Proof.
  unfold deliver, deliver_sys, deliver_world.
  destruct (should_handle s t); [|reflexivity].
  unfold try_except, bind, peek, observe, lift, logger; simpl.
  destruct (handle_event s e (s_world sys)) as [[[]|x] w']; reflexivity.
Qed.

Lemma dispatch_eq subs e t sys :
  dispatch subs e t sys = (Ok tt, dispatch_sys subs e t sys).
Proof.
  revert sys. induction subs as [|s subs IH]; intros sys; [reflexivity|].
  simpl. unfold bind. rewrite deliver_eq. apply IH.
Qed.

Lemma dispatch_sys_app pre post e t sys :
  dispatch_sys (pre ++ post) e t sys
  = dispatch_sys post e t (dispatch_sys pre e t sys).
Proof. unfold dispatch_sys. apply foldl_app. Qed.

Lemma calls_app h1 h2 : calls (h1 ++ h2) = calls h1 ++ calls h2.
Proof. unfold calls. apply omap_app. Qed.

Lemma published_app h1 h2 :
  published (h1 ++ h2) = published h1 ++ published h2.
Proof. unfold published. apply omap_app. Qed.

Lemma deliver_sys_calls e t sys s :
  calls (s_hist (deliver_sys e t sys s))
  = calls (s_hist sys) ++ (if should_handle s t then [(s, e)] else []).
Proof.
  unfold deliver_sys. destruct (should_handle s t); simpl.
  - rewrite calls_app. reflexivity.
  - rewrite app_nil_r. reflexivity.
Qed.

Lemma dispatch_sys_calls subs e t sys :
  calls (s_hist (dispatch_sys subs e t sys))
  = calls (s_hist sys)
    ++ ((fun s => (s, e)) <$> List.filter (fun s => should_handle s t) subs).
Proof.
  revert sys. induction subs as [|s subs IH]; intros sys; simpl.
  - rewrite app_nil_r. reflexivity.
  - unfold dispatch_sys in *. simpl. rewrite IH, deliver_sys_calls.
    rewrite <- app_assoc. f_equal.
    destruct (should_handle s t); reflexivity.
Qed.

Lemma deliver_sys_published e t sys s :
  published (s_hist (deliver_sys e t sys s)) = published (s_hist sys).
Proof.
  unfold deliver_sys. destruct (should_handle s t); simpl; [|reflexivity].
  rewrite published_app. simpl. apply app_nil_r.
Qed.

Lemma dispatch_sys_published subs e t sys :
  published (s_hist (dispatch_sys subs e t sys)) = published (s_hist sys).
Proof.
  revert sys. induction subs as [|s subs IH]; intros sys; [reflexivity|].
  unfold dispatch_sys in *. simpl. rewrite IH. apply deliver_sys_published.
Qed.

Lemma stamp_eq e d w :
  w_heap w !! e = Some (ODict d) ->
  stamp e w = (Ok tt, stamp_world e d w).
Proof.
  intros He. unfold stamp, stamp_world, bind, get_dict. rewrite He.
  destruct (d !! "timestamp") as [v|] eqn:Ets; [reflexivity|].
  unfold time_time, dict_setitem, bind, get_dict, store, set_heap; simpl.
  rewrite He. reflexivity.
Qed.

Lemma stamp_world_lookup e d w :
  w_heap w !! e = Some (ODict d) ->
  w_heap (stamp_world e d w) !! e = Some (ODict (stamped d w)).
Proof.
  intros He. unfold stamp_world, stamped.
  destruct (d !! "timestamp"); [exact He|]. simpl. apply lookup_insert_eq.
Qed.

Lemma stamped_event_type d w : event_type_of (stamped d w) = event_type_of d.
Proof.
  unfold stamped, event_type_of, dict_get.
  destruct (d !! "timestamp"); [reflexivity|].
  rewrite lookup_insert_ne; [reflexivity|discriminate].
Qed.

(** [publish_event] on an event that is a dictionary: it returns
    normally, in the state the loop reaches from the stamped event. *)
Lemma publish_event_eq subs e d sys :
  w_heap (s_world sys) !! e = Some (ODict d) ->
  publish_event subs e sys
  = (Ok tt,
     dispatch_sys subs e (event_type_of d)
       (mkSystem (stamp_world e d (s_world sys))
                 (s_hist sys ++ [Published e (stamped d (s_world sys))]))).
Proof.
  intros He. unfold publish_event, bind, lift.
  rewrite (stamp_eq _ _ _ He). simpl.
  unfold get_dict. rewrite (stamp_world_lookup _ _ _ He). simpl.
  unfold observe. simpl. rewrite dispatch_eq.
  fold (event_type_of (stamped d (s_world sys))).
  rewrite stamped_event_type. reflexivity.
Qed.

Lemma deliver_world_preserves s e l w :
  preserves l (handle_event s e) ->
  w_heap (deliver_world s e w) !! l = w_heap w !! l.
Proof.
  intros Hp. unfold deliver_world. specialize (Hp w).
  destruct (handle_event s e w) as [[[]|x] w']; simpl in *; exact Hp.
Qed.

(** With subscribers that leave the event object alone, the loop leaves
    it alone, and every call it makes sees the content the loop started
    with. *)
Lemma dispatch_sys_preserves subs e t sys :
  (forall s, s ∈ subs -> preserves e (handle_event s e)) ->
  w_heap (s_world (dispatch_sys subs e t sys)) !! e
  = w_heap (s_world sys) !! e
  /\ exists hs,
       s_hist (dispatch_sys subs e t sys) = s_hist sys ++ hs
       /\ Forall (fun o => exists s,
                    o = Handled s e (w_heap (s_world sys) !! e)) hs.
Proof.
  revert sys. induction subs as [|s subs IH]; intros sys Hp.
  - split; [reflexivity|]. exists []. rewrite app_nil_r. split; constructor.
  - unfold dispatch_sys in *. simpl.
    assert (Hs : preserves e (handle_event s e)) by (apply Hp; left).
    assert (Hrest : forall s', s' ∈ subs -> preserves e (handle_event s' e))
      by (intros s' Hin; apply Hp; right; exact Hin).
    destruct (IH (deliver_sys e t sys s) Hrest) as (Hh & hs & Hhist & Hall).
    assert (Hd : w_heap (s_world (deliver_sys e t sys s)) !! e
                 = w_heap (s_world sys) !! e).
    { unfold deliver_sys. destruct (should_handle s t); [|reflexivity].
      simpl. apply deliver_world_preserves, Hs. }
    split; [rewrite Hh; exact Hd|].
    rewrite Hd in Hall. unfold deliver_sys in Hhist.
    destruct (should_handle s t) eqn:Hsh.
    + exists (Handled s e (w_heap (s_world sys) !! e) :: hs).
      split.
      * unfold deliver_sys. rewrite Hsh, Hhist. simpl.
        rewrite <- app_assoc. reflexivity.
      * constructor; [eexists; reflexivity|exact Hall].
    + exists hs. unfold deliver_sys. rewrite Hsh. split; assumption.
Qed.

Lemma should_handle_iff s t :
  should_handle s t = true
  <-> "*" ∈ event_types s \/ exists ty, t = VStr ty /\ ty ∈ event_types s.
Proof.
  unfold should_handle. rewrite orb_true_iff, bool_decide_eq_true. split.
  - intros [H|H]; [left; exact H|right].
    destruct t; try discriminate. apply bool_decide_eq_true in H. eauto.
  - intros [H|(ty & -> & H)]; [left; exact H|right].
    apply bool_decide_eq_true. exact H.
Qed.

(** The world the loop leaves: each matching subscriber in turn has run
    its handler, and a handler's failure has been logged. *)
Lemma dispatch_sys_world subs e t sys :
  s_world (dispatch_sys subs e t sys)
  = foldl (fun w s =>
             match handle_event s e w with
             | (Ok _, w') => w'
             | (Raise x, w') =>
                 set_log (w_log w' ++ [(ERROR, error_message s x)]) w'
             end)
      (s_world sys) (List.filter (fun s => should_handle s t) subs).
Proof.
  revert sys. induction subs as [|s subs IH]; intros sys; [reflexivity|].
  unfold dispatch_sys in *. simpl. rewrite IH. unfold deliver_sys.
  destruct (should_handle s t); reflexivity.
Qed.

(** C5.  [publish_event] calls [handle_event] on exactly the registered
    subscribers that [should_handle] accepts for the event's type, in
    registration order and with the published event: the world it
    leaves is the stamped one with the handlers of those subscribers
    run over it one after the other (a failure being logged), and the
    calls it made are those.  [should_handle] accepts when the filter
    holds the wildcard or the event type itself, and a subscriber it
    rejects is not among the ones called. *)
Theorem publish_event_calls_matching_in_order subs e d sys :
  w_heap (s_world sys) !! e = Some (ODict d) ->
  let matching :=
    List.filter (fun s => should_handle s (event_type_of d)) subs in
  exists sys',
    publish_event subs e sys = (Ok tt, sys')
    /\ s_world sys'
       = foldl (fun w s =>
                  match handle_event s e w with
                  | (Ok _, w') => w'
                  | (Raise x, w') =>
                      set_log (w_log w' ++ [(ERROR, error_message s x)]) w'
                  end)
           (stamp e (s_world sys)).2 matching
    /\ calls (s_hist sys')
       = calls (s_hist sys) ++ ((fun s => (s, e)) <$> matching)
    /\ (forall s, should_handle s (event_type_of d) = true
                  <-> "*" ∈ event_types s
                      \/ exists ty, event_type_of d = VStr ty
                                    /\ ty ∈ event_types s)
    /\ (forall s, should_handle s (event_type_of d) = false ->
                  s ∉ matching).
Proof.
  intros He matching. eexists.
  split; [apply (publish_event_eq _ _ _ _ He)|].
  split; [|split; [|split]].
  - rewrite dispatch_sys_world. rewrite (stamp_eq _ _ _ He). reflexivity.
  - rewrite dispatch_sys_calls. simpl. rewrite calls_app. simpl.
    rewrite app_nil_r. reflexivity.
  - intros s. apply should_handle_iff.
  - intros s Hno Hin. apply list_elem_of_In, filter_In in Hin.
    destruct Hin as [_ Hyes]. congruence.
Qed.

Lemma publish_event_calls_matching_in_order_witness :
  exists sys',
    publish_event sample_bus 1%positive sample_sys = (Ok tt, sys')
    /\ (calls (s_hist sys')).*1 = [failing_subscriber; noting_subscriber]
    /\ w_log (s_world sys')
       = [(ERROR, "Error in subscriber FileStorageSubscriber: No space left on device");
          (INFO, "event seen")].
Proof.
  destruct (publish_event_calls_matching_in_order sample_bus 1%positive
              metric_event sample_sys eq_refl) as (sys' & Hp & Hw & Hc & _).
  exists sys'. split; [exact Hp|]. split.
  - rewrite Hc. reflexivity.
  - rewrite Hw. vm_compute. reflexivity.
Defined.

(** C1.  [publish_event] returns normally whatever the subscribers do.
    When the turn of a matching subscriber [s] comes and its
    [handle_event] raises [x], the bus catches [x], writes an error line
    naming the class of [s] to the log, and goes on: every matching
    subscriber registered after [s] is still called with the same
    event. *)
Theorem publish_event_isolates_failures subs e d sys :
  w_heap (s_world sys) !! e = Some (ODict d) ->
  exists sys',
    publish_event subs e sys = (Ok tt, sys')
    /\ forall pre s post,
         subs = pre ++ s :: post ->
         should_handle s (event_type_of d) = true ->
         exists sys1 sys2,
           publish_event pre e sys = (Ok tt, sys1)
           /\ deliver s e (event_type_of d) sys1 = (Ok tt, sys2)
           /\ dispatch post e (event_type_of d) sys2 = (Ok tt, sys')
           /\ (forall x w',
                 handle_event s e (s_world sys1) = (Raise x, w') ->
                 s_world sys2
                 = set_log (w_log w' ++ [(ERROR, error_message s x)]) w')
           /\ calls (s_hist sys')
              = calls (s_hist sys2)
                ++ ((fun s' => (s', e))
                      <$> List.filter
                            (fun s' => should_handle s' (event_type_of d))
                            post).
Proof.
  intros He. eexists. split; [apply (publish_event_eq _ _ _ _ He)|].
  intros pre s post -> Hsh.
  eexists. eexists.
  split; [apply (publish_event_eq _ _ _ _ He)|].
  split; [apply deliver_eq|].
  split.
  - rewrite dispatch_eq. f_equal.
    rewrite dispatch_sys_app. reflexivity.
  - split.
    + intros x w' Hx. unfold deliver_sys. rewrite Hsh. simpl.
      unfold deliver_world. rewrite Hx. reflexivity.
    + rewrite dispatch_sys_app.
      change (dispatch_sys (s :: post) e (event_type_of d) ?a)
        with (dispatch_sys post e (event_type_of d)
                (deliver_sys e (event_type_of d) a s)).
      apply dispatch_sys_calls.
Qed.

Lemma publish_event_isolates_failures_witness :
  exists sys',
    publish_event sample_bus 1%positive sample_sys = (Ok tt, sys')
    /\ w_log (s_world sys')
       = [(ERROR, "Error in subscriber FileStorageSubscriber: No space left on device"%string);
          (INFO, "event seen"%string)].
Proof.
  destruct (publish_event_isolates_failures sample_bus 1%positive
              metric_event sample_sys eq_refl) as (sys' & Hp & _).
  exists sys'. split; [exact Hp|].
  vm_compute in Hp. injection Hp as <-. reflexivity.
Defined.



(** ** The loop of [publish_event] under concurrent registration *)

Section Interleaving.
Variable event : loc.
Variable event_type : val.

Lemma bus_step_inv subs0 base a b b' :
  bus_step event event_type a b = Some b' ->
  bus_inv event event_type subs0 base b ->
  bus_inv event event_type subs0 base b'.
Proof.
  intros Hstep ([added Hadd] & Hle & Hcalls). unfold bus_inv.
  destruct a as [|t|t s|t]; simpl in Hstep.
  - destruct (looping b); [|injection Hstep as <-; repeat split; eauto].
    destruct (subscribers b !! cursor b) as [s|] eqn:Hs;
      injection Hstep as <-; simpl.
    + split; [eauto|]. split.
      * apply lookup_lt_Some in Hs. lia.
      * rewrite deliver_eq. simpl. rewrite deliver_sys_calls, Hcalls.
        rewrite (take_S_r _ _ _ Hs), List.filter_app, fmap_app.
        rewrite <- app_assoc. simpl.
        destruct (should_handle s event_type); reflexivity.
    + repeat split; eauto.
  - destruct (lock_holder b); [discriminate|].
    injection Hstep as <-. repeat split; eauto.
  - destruct (decide (lock_holder b = Some t)); [|discriminate].
    injection Hstep as <-. simpl. unfold register_subscriber.
    split; [exists (added ++ [s]); rewrite Hadd, app_assoc; reflexivity|].
    split; [rewrite length_app; lia|].
    rewrite take_app_le by exact Hle. exact Hcalls.
  - destruct (decide (lock_holder b = Some t)); [|discriminate].
    injection Hstep as <-. repeat split; eauto.
Qed.

Lemma bus_run_inv subs0 base schedule b b' :
  bus_run event event_type schedule b = Some b' ->
  bus_inv event event_type subs0 base b ->
  bus_inv event event_type subs0 base b'.
Proof.
  revert b. induction schedule as [|a rest IH]; intros b Hrun Hinv.
  - injection Hrun as <-. exact Hinv.
  - simpl in Hrun.
    destruct (bus_step event event_type a b) as [b1|] eqn:Hstep;
      [|discriminate].
    eapply IH; [exact Hrun|]. eapply bus_step_inv; eauto.
Qed.

(** The publishing thread's turn can always run and leaves the lock and
    the list as they are. *)
Lemma turn_needs_no_lock b :
  exists b', bus_step event event_type Turn b = Some b'
             /\ lock_holder b' = lock_holder b
             /\ subscribers b' = subscribers b.
Proof.
  simpl. destruct (looping b); [|eauto].
  destruct (subscribers b !! cursor b); eauto.
Qed.

(** With no registration in between, the machine's turns are the loop
    [dispatch]. *)
Lemma turns_are_dispatch rest done holder sys :
  bus_run event event_type (replicate (S (length rest)) Turn)
          (mkBus (done ++ rest) holder (length done) true sys)
  = Some (mkBus (done ++ rest) holder (length (done ++ rest)) false
                (dispatch_sys rest event event_type sys)).
Proof.
  revert done sys. induction rest as [|s rest IH]; intros done sys.
  - simpl. rewrite app_nil_r.
    rewrite lookup_ge_None_2 by lia. reflexivity.
  - simpl replicate. simpl bus_run. unfold bus_step. simpl looping.
    simpl subscribers. simpl cursor.
    rewrite list_lookup_middle by reflexivity.
    rewrite deliver_eq. simpl.
    specialize (IH (done ++ [s]) (deliver_sys event event_type sys s)).
    rewrite <- app_assoc in IH. simpl in IH.
    rewrite length_app in IH. simpl in IH.
    replace (length done + 1) with (S (length done)) in IH by lia.
    exact IH.
Qed.
End Interleaving.

(** ** The store primitives *)

Lemma alloc_eq o w :
  alloc o w = (Ok (fresh (dom (w_heap w))),
               set_heap (<[fresh (dom (w_heap w)) := o]> (w_heap w)) w).
Proof. reflexivity. Qed.

Lemma fresh_loc_None (h : gmap loc obj) : h !! fresh (dom h) = None.
Proof. apply not_elem_of_dom, is_fresh. Qed.

Lemma lookup_alloc_old (h : gmap loc obj) o l x :
  h !! l = Some x -> <[fresh (dom h) := o]> h !! l = Some x.
Proof.
  intros Hl. rewrite lookup_insert_ne; [exact Hl|].
  intros <-. rewrite fresh_loc_None in Hl. discriminate.
Qed.

Lemma allocates_only_ret {A} (a : A) : allocates_only (ret a).
Proof. intros w. exists a, w. repeat split; auto. Qed.

Lemma allocates_only_alloc o : allocates_only (alloc o).
Proof.
  intros w. eexists. eexists. split; [apply alloc_eq|].
  simpl. repeat split; auto. intros l x. apply lookup_alloc_old.
Qed.

Lemma allocates_only_bind {A B} (m : M A) (k : A -> M B) :
  allocates_only m -> (forall a, allocates_only (k a)) ->
  allocates_only (bind m k).
Proof.
  intros Hm Hk w.
  destruct (Hm w) as (a & w1 & Em & Hh1 & Hc1 & Ht1 & Hu1 & Hn1 & Hl1).
  destruct (Hk a w1) as (b & w2 & Ek & Hh2 & Hc2 & Ht2 & Hu2 & Hn2 & Hl2).
  exists b, w2. unfold bind. rewrite Em, Ek.
  repeat split; try congruence. intros l x Hl. apply Hh2, Hh1, Hl.
Qed.

Lemma output_info_of_allocates outputs : allocates_only (output_info_of outputs).
Proof.
  assert (Hplain : forall ty,
             allocates_only (let! l := alloc (ODict (<["type" := VStr ty]> ∅))
                             in ret (VRef l))).
  { intros ty. apply allocates_only_bind; [apply allocates_only_alloc|].
    intros l. apply allocates_only_ret. }
  assert (Hsized : forall ty n,
             allocates_only
               (let! l := alloc (ODict (<["type" := VStr ty]>
                                          (<["length" := VInt (Z.of_nat n)]> ∅)))
                in ret (VRef l))).
  { intros ty n. apply allocates_only_bind; [apply allocates_only_alloc|].
    intros l. apply allocates_only_ret. }
  assert (Hattrs : forall ty names,
             allocates_only
               (let! a := alloc (OList (VStr <$> names)) in
                let! l := alloc (ODict (<["type" := VStr ty]>
                                          (<["attributes" := VRef a]> ∅))) in
                ret (VRef l))).
  { intros ty names. apply allocates_only_bind; [apply allocates_only_alloc|].
    intros a. apply allocates_only_bind; [apply allocates_only_alloc|].
    intros l. apply allocates_only_ret. }
  destruct outputs; simpl; try apply Hplain; try apply allocates_only_ret.
  intros w. destruct (w_heap w !! l) as [[d|xs|xs|cls attrs|c]|].
  - exact (Hplain "dict" w).
  - exact (Hsized "list" (length xs) w).
  - exact (Hsized "tuple" (length xs) w).
  - exact (Hattrs cls (attrs.*1) w).
  - exact (Hattrs "PipelineContext"
             ["pipeline_id"; "parent_id"; "event_manager"; "start_time";
              "step_times"] w).
  - exact (Hplain "object" w).
Qed.

(** ** PipelineContext *)

Lemma get_ctx_eq l c w :
  w_heap w !! l = Some (OCtx c) -> get_ctx l w = (Ok c, w).
Proof. intros H. unfold get_ctx. rewrite H. reflexivity. Qed.

(** [record_step_end] on a context: one clock reading, the description
    of the outputs, a new event object, and its publication. *)
Lemma record_step_end_eq bus self c step outputs sys :
  w_heap (s_world sys) !! self = Some (OCtx c) ->
  let w := s_world sys in
  let now := w_clock w (w_tick w) in
  exists oi w1,
    output_info_of outputs (ticked w) = (Ok oi, w1)
    /\ w_heap w1 !! self = Some (OCtx c)
    /\ (forall l x, w_heap w !! l = Some x -> w_heap w1 !! l = Some x)
    /\ w_clock w1 = w_clock w /\ w_tick w1 = S (w_tick w)
    /\ w_log w1 = w_log w
    /\ record_step_end bus self step outputs sys
       = publish_event bus (fresh (dom (w_heap w1)))
           (mkSystem
              (set_heap
                 (<[fresh (dom (w_heap w1)) :=
                      ODict (<["duration" :=
                                 VFloat (now - default (start_time c)
                                                  (step_times c !! step))]>
                               (<["output_info" := oi]>
                                  (event_fields "step_end" c step)))]>
                    (w_heap w1)) w1)
              (s_hist sys)).
Proof.
  intros Hc w now.
  destruct (output_info_of_allocates outputs
              (mkWorld (w_heap w) (w_clock w) (S (w_tick w)) (w_uuid w)
                       (w_nuuid w) (w_log w)))
    as (oi & w1 & Eoi & Hh & Hcl & Htk & _ & _ & Hlog).
  simpl in *. exists oi, w1.
  split; [exact Eoi|].
  split; [apply Hh, Hc|]. split; [exact Hh|].
  split; [exact Hcl|]. split; [exact Htk|]. split; [exact Hlog|].
  unfold record_step_end, bind, lift. subst w now.
  rewrite (get_ctx_eq _ _ _ Hc). unfold time_time at 1. simpl.
  rewrite Eoi. simpl.
  rewrite (get_ctx_eq self c w1) by (apply Hh, Hc). simpl.
  reflexivity.
Qed.

Lemma publish_event_preserves bus l e d sys :
  w_heap (s_world sys) !! e = Some (ODict d) ->
  l <> e ->
  bus_preserves bus l ->
  exists sys',
    publish_event bus e sys = (Ok tt, sys')
    /\ w_heap (s_world sys') !! l = w_heap (s_world sys) !! l.
Proof.
  intros He Hne Hp. eexists. split; [apply (publish_event_eq _ _ _ _ He)|].
  assert (Hloop : forall subs sys0,
             (forall s, s ∈ subs -> s ∈ bus) ->
             w_heap (s_world (dispatch_sys subs e (event_type_of d) sys0)) !! l
             = w_heap (s_world sys0) !! l).
  { induction subs as [|s subs IH]; intros sys0 Hsub; [reflexivity|].
    unfold dispatch_sys in *. simpl. rewrite IH.
    - unfold deliver_sys. destruct (should_handle s _); [|reflexivity].
      simpl. apply deliver_world_preserves, Hp, Hsub. left.
    - intros s' Hs'. apply Hsub. right. exact Hs'. }
  rewrite Hloop by auto. simpl. unfold stamp_world.
  destruct (d !! "timestamp"); [reflexivity|]. simpl.
  apply lookup_insert_ne. congruence.
Qed.

(** [record_step_start] overwrites the step's entry of [step_times] with
    the reading it takes, and returns normally. *)
Lemma record_step_start_eq bus self c step sys :
  w_heap (s_world sys) !! self = Some (OCtx c) ->
  exists sys',
    record_step_start bus self step sys = (Ok tt, sys')
    /\ (bus_preserves bus self ->
        w_heap (s_world sys') !! self
        = Some (OCtx (started_at c step (now (s_world sys))))).
Proof.
  intros Hc. unfold record_step_start, bind, lift.
  unfold time_time at 1. simpl.
  rewrite (get_ctx_eq self c) by exact Hc. simpl.
  unfold get_ctx at 1. simpl. rewrite lookup_insert_eq. simpl.
  set (c1 := mkContext _ _ _ _).
  set (h1 := <[self := OCtx c1]> (w_heap (s_world sys))).
  set (e := fresh (dom h1)).
  set (sys1 := mkSystem _ _).
  assert (He : w_heap (s_world sys1) !! e
               = Some (ODict (event_fields "step_start" c1 step))).
  { subst sys1. simpl. apply lookup_insert_eq. }
  assert (Hne : self <> e).
  { intros Heq. pose proof (fresh_loc_None h1) as Hf. fold e in Hf.
    rewrite <- Heq in Hf. subst h1. rewrite lookup_insert_eq in Hf.
    discriminate. }
  eexists. split; [apply (publish_event_eq _ _ _ _ He)|].
  intros Hp.
  destruct (publish_event_preserves bus self e _ sys1 He Hne Hp)
    as (sys' & Hpub & Hkeep).
  rewrite (publish_event_eq _ _ _ _ He) in Hpub. injection Hpub as <-.
  refine (eq_trans Hkeep _). subst sys1. simpl.
  rewrite lookup_insert_ne by congruence. subst h1.
  rewrite lookup_insert_eq. reflexivity.
Qed.

Lemma PipelineContext_init_eq pid parent w :
  exists l id w',
    PipelineContext_init pid parent w = (Ok l, w')
    /\ w_heap w !! l = None
    /\ w_heap w' !! l = Some (OCtx (mkContext id parent (now w) ∅)).
Proof.
  unfold PipelineContext_init, bind.
  destruct pid as [[|a p]|]; simpl;
    (eexists; eexists; eexists; split; [reflexivity|]; simpl;
     split; [apply fresh_loc_None|apply lookup_insert_eq]).
Qed.

Ltac lookup_fields :=
  unfold event_fields;
  repeat (rewrite lookup_insert_ne by discriminate);
  first [apply lookup_insert_eq | apply lookup_empty].

Lemma record_step_end_spec bus self c step outputs sys :
  w_heap (s_world sys) !! self = Some (OCtx c) ->
  exists sys' e d,
    record_step_end bus self step outputs sys = (Ok tt, sys')
    /\ published (s_hist sys') = published (s_hist sys) ++ [(e, d)]
    /\ d !! "event_type" = Some (VStr "step_end")
    /\ d !! "pipeline_id" = Some (VStr (pipeline_id c))
    /\ d !! "step" = Some (VStr step)
    /\ d !! "duration"
       = Some (VFloat (now (s_world sys)
                       - default (start_time c) (step_times c !! step)))
    /\ (bus_preserves bus self ->
        w_heap (s_world sys') !! self = Some (OCtx c))
    /\ (exists oi w1,
          output_info_of outputs (ticked (s_world sys)) = (Ok oi, w1)
          /\ d !! "output_info" = Some oi).
Proof.
  intros Hc.
  destruct (record_step_end_eq bus self c step outputs sys Hc)
    as (oi & w1 & Eoi & Hc1 & _ & _ & _ & _ & Eq).
  set (e := fresh (dom (w_heap w1))) in *.
  set (D := <["duration" := _]> _) in Eq.
  set (sysE := mkSystem _ _) in Eq.
  assert (He : w_heap (s_world sysE) !! e = Some (ODict D))
    by apply lookup_insert_eq.
  assert (Hts : D !! "timestamp" = None) by (subst D; lookup_fields).
  assert (Hne : self <> e).
  { intros Heq. pose proof (fresh_loc_None (w_heap w1)) as Hf. fold e in Hf.
    rewrite <- Heq, Hc1 in Hf. discriminate. }
  rewrite (publish_event_eq _ _ _ _ He) in Eq.
  eexists. exists e, (stamped D (s_world sysE)).
  split; [exact Eq|].
  split.
  { rewrite dispatch_sys_published. simpl. apply published_app. }
  unfold stamped. rewrite Hts.
  split; [subst D; lookup_fields|].
  split; [subst D; lookup_fields|].
  split; [subst D; lookup_fields|].
  split; [subst D; lookup_fields|].
  split.
  - intros Hp.
    destruct (publish_event_preserves bus self e D sysE He Hne Hp)
      as (sys' & Hpub & Hkeep).
    rewrite (publish_event_eq _ _ _ _ He) in Hpub. injection Hpub as <-.
    refine (eq_trans Hkeep _). subst sysE. simpl.
    rewrite lookup_insert_ne by congruence. exact Hc1.
  - exists oi, w1. split; [exact Eoi|]. subst D. lookup_fields.
Qed.

(** Publishing a new event object leaves an existing object alone when
    the subscribers do. *)
Lemma publish_new_keeps bus self o D w hist :
  w_heap w !! self = Some o ->
  bus_preserves bus self ->
  exists sys',
    publish_event bus (fresh (dom (w_heap w)))
      (mkSystem (set_heap (<[fresh (dom (w_heap w)) := ODict D]> (w_heap w)) w)
                hist)
    = (Ok tt, sys')
    /\ w_heap (s_world sys') !! self = Some o.
Proof.
  intros Hself Hp.
  set (e := fresh (dom (w_heap w))).
  set (sysE := mkSystem _ _).
  assert (He : w_heap (s_world sysE) !! e = Some (ODict D))
    by apply lookup_insert_eq.
  assert (Hne : self <> e).
  { intros Heq. pose proof (fresh_loc_None (w_heap w)) as Hf. fold e in Hf.
    rewrite <- Heq, Hself in Hf. discriminate. }
  destruct (publish_event_preserves bus self e D sysE He Hne Hp)
    as (sys' & Hpub & Hkeep).
  exists sys'. split; [exact Hpub|]. rewrite Hkeep. subst sysE. simpl.
  rewrite lookup_insert_ne by congruence. exact Hself.
Qed.

Lemma record_error_keeps bus self c step x sys :
  w_heap (s_world sys) !! self = Some (OCtx c) ->
  bus_preserves bus self ->
  exists sys',
    record_error bus self step x sys = (Ok tt, sys')
    /\ w_heap (s_world sys') !! self = Some (OCtx c).
Proof.
  intros Hc Hp. unfold record_error, bind, lift.
  rewrite (get_ctx_eq _ _ _ Hc). simpl.
  apply (publish_new_keeps bus self (OCtx c) _ (s_world sys) (s_hist sys) Hc Hp).
Qed.

Lemma record_metric_keeps bus self c step name value sys :
  w_heap (s_world sys) !! self = Some (OCtx c) ->
  bus_preserves bus self ->
  exists sys',
    record_metric bus self step name value sys = (Ok tt, sys')
    /\ w_heap (s_world sys') !! self = Some (OCtx c).
Proof.
  intros Hc Hp. unfold record_metric, bind, lift.
  rewrite (get_ctx_eq _ _ _ Hc). simpl.
  apply (publish_new_keeps bus self (OCtx c) _ (s_world sys) (s_hist sys) Hc Hp).
Qed.

(** Calls that do not start [step] leave its recorded start, and the
    creation time, as they are. *)
Lemma run_calls_keep_start bus self step cs :
  bus_preserves bus self ->
  Forall (fun c => c <> CallStart step) cs ->
  forall c sys,
    w_heap (s_world sys) !! self = Some (OCtx c) ->
    exists sys' c',
      run_calls bus self cs sys = (Ok tt, sys')
      /\ w_heap (s_world sys') !! self = Some (OCtx c')
      /\ step_times c' !! step = step_times c !! step
      /\ start_time c' = start_time c.
Proof.
  intros Hp Hcs. induction Hcs as [|call cs Hcall _ IH]; intros c sys Hc.
  - exists sys, c. repeat split; auto.
  - assert (Hone : exists sys1 c1,
               run_call bus self call sys = (Ok tt, sys1)
               /\ w_heap (s_world sys1) !! self = Some (OCtx c1)
               /\ step_times c1 !! step = step_times c !! step
               /\ start_time c1 = start_time c).
    { destruct call as [s|s out|s x|s name value]; simpl.
      - destruct (record_step_start_eq bus self c s sys Hc)
          as (sys1 & E & Hkeep).
        exists sys1. eexists. split; [exact E|]. split; [apply Hkeep, Hp|].
        split; [|reflexivity]. simpl. apply lookup_insert_ne. congruence.
      - destruct (record_step_end_spec bus self c s out sys Hc)
          as (sys1 & e & d & E & _ & _ & _ & _ & _ & Hkeep & _).
        exists sys1, c. split; [exact E|]. split; [apply Hkeep, Hp|].
        split; reflexivity.
      - destruct (record_error_keeps bus self c s x sys Hc Hp)
          as (sys1 & E & Hkeep).
        exists sys1, c. repeat split; auto.
      - destruct (record_metric_keeps bus self c s name value sys Hc Hp)
          as (sys1 & E & Hkeep).
        exists sys1, c. repeat split; auto. }
    destruct Hone as (sys1 & c1 & E1 & Hc1 & Hs1 & Ht1).
    destruct (IH c1 sys1 Hc1) as (sys' & c' & E & Hc' & Hs & Ht).
    exists sys', c'. split.
    + simpl. unfold bind. rewrite E1. exact E.
    + split; [exact Hc'|]. split; congruence.
Qed.


Lemma sample_bus_preserves l : bus_preserves sample_bus l.
Proof.
  intros s e Hs w.
  repeat (apply elem_of_cons in Hs as [-> | Hs]; [reflexivity|]).
  inversion Hs.
Qed.


(** What [get_step_timing] computes: the time elapsed since the step's
    last recorded start whenever the step was started on the context,
    and no value when it never was.  No call removes a recorded start:
    after [record_step_start] and any calls that do not start the step
    again, [record_step_end] of that step among them, it still returns
    the time since that start. *)
Theorem get_step_timing_since_last_start self c step w :
  w_heap w !! self = Some (OCtx c) ->
  (forall started,
     step_times c !! step = Some started ->
     get_step_timing self step w = (Ok (VFloat (now w - started)), ticked w))
  /\ (step_times c !! step = None ->
      get_step_timing self step w = (Ok VNone, w))
  /\ (forall bus sys cs,
        s_world sys = w ->
        bus_preserves bus self ->
        Forall (fun call => call <> CallStart step) cs ->
        exists sys1 sys2,
          record_step_start bus self step sys = (Ok tt, sys1)
          /\ run_calls bus self cs sys1 = (Ok tt, sys2)
          /\ get_step_timing self step (s_world sys2)
             = (Ok (VFloat (now (s_world sys2) - now w)),
                ticked (s_world sys2)))
  /\ (forall bus sys cs,
        s_world sys = w ->
        bus_preserves bus self ->
        step_times c !! step = None ->
        Forall (fun call => call <> CallStart step) cs ->
        exists sys2,
          run_calls bus self cs sys = (Ok tt, sys2)
          /\ get_step_timing self step (s_world sys2)
             = (Ok VNone, s_world sys2)).
Proof.
  intros Hc.
  assert (Hsome : forall w0 c0 started,
             w_heap w0 !! self = Some (OCtx c0) ->
             step_times c0 !! step = Some started ->
             get_step_timing self step w0
             = (Ok (VFloat (now w0 - started)), ticked w0)).
  { intros w0 c0 started Hc0 Hs. unfold get_step_timing, bind.
    rewrite (get_ctx_eq _ _ _ Hc0), Hs. reflexivity. }
  assert (Hnone : forall w0 c0,
             w_heap w0 !! self = Some (OCtx c0) ->
             step_times c0 !! step = None ->
             get_step_timing self step w0 = (Ok VNone, w0)).
  { intros w0 c0 Hc0 Hs. unfold get_step_timing, bind.
    rewrite (get_ctx_eq _ _ _ Hc0), Hs. reflexivity. }
  split; [|split; [|split]].
  - intros started Hs. eapply Hsome; eauto.
  - intros Hs. eapply Hnone; eauto.
  - intros bus sys cs <- Hp Hcs.
    destruct (record_step_start_eq bus self c step sys Hc)
      as (sys1 & E1 & Hkeep).
    specialize (Hkeep Hp).
    destruct (run_calls_keep_start bus self step cs Hp Hcs _ sys1 Hkeep)
      as (sys2 & c2 & E2 & Hc2 & Hs2 & _).
    exists sys1, sys2. split; [exact E1|]. split; [exact E2|].
    eapply Hsome; [exact Hc2|]. rewrite Hs2. simpl. apply lookup_insert_eq.
  - intros bus sys cs <- Hp Hs Hcs.
    destruct (run_calls_keep_start bus self step cs Hp Hcs _ sys Hc)
      as (sys2 & c2 & E2 & Hc2 & Hs2 & _).
    exists sys2. split; [exact E2|].
    eapply Hnone; [exact Hc2|]. rewrite Hs2. exact Hs.
Qed.

Lemma get_step_timing_since_last_start_witness :
  exists sys1 sys2,
    record_step_start sample_bus 2%positive "load" context_sys = (Ok tt, sys1)
    /\ run_calls sample_bus 2%positive [CallEnd "load" VNone] sys1
       = (Ok tt, sys2)
    /\ get_step_timing 2%positive "load" (s_world sys2)
       = (Ok (VFloat (now (s_world sys2) - now context_world)),
          ticked (s_world sys2)).
Proof.
  destruct (get_step_timing_since_last_start 2%positive sample_context
              "load" context_world eq_refl) as (_ & _ & Hseq & _).
  apply (Hseq sample_bus context_sys [CallEnd "load" VNone] eq_refl
              (sample_bus_preserves _)).
  repeat constructor. discriminate.
Defined.

(** C3.  The code against its own docstring ("Step duration or None if
    step not completed").  Step ["load"] is started at 105 and ended at 115,
    so its duration, as the step_end event has it, is 10; asked at 125,
    [get_step_timing] returns 20.  On a step that is started and not
    ended it returns a number as well. *)
Lemma get_step_timing_after_end :
  (start_end_then_timing sample_sys).1 = Ok (VFloat (20 # 1))
  /\ (start_end_then_timing sample_sys).1 <> Ok VNone
  /\ match last (published (s_hist (start_end_then_timing sample_sys).2)) with
     | Some (_, d) => (d !! "event_type", d !! "duration")
     | None => (None, None)
     end = (Some (VStr "step_end"), Some (VFloat (10 # 1)))
  /\ (start_then_timing sample_sys).1 = Ok (VFloat (10 # 1)).
Proof.
  assert (H : (start_end_then_timing sample_sys).1 = Ok (VFloat (20 # 1)))
    by (vm_compute; reflexivity).
  split; [exact H|]. split; [rewrite H; discriminate|].
  split; vm_compute; reflexivity.
Qed.




(** ** step_timing *)

Lemma record_error_spec bus self c step x sys :
  w_heap (s_world sys) !! self = Some (OCtx c) ->
  exists sys' e d,
    record_error bus self step x sys = (Ok tt, sys')
    /\ published (s_hist sys') = published (s_hist sys) ++ [(e, d)]
    /\ d !! "event_type" = Some (VStr "error")
    /\ d !! "pipeline_id" = Some (VStr (pipeline_id c))
    /\ d !! "step" = Some (VStr step)
    /\ d !! "error" = Some (VStr (exn_msg x))
    /\ d !! "error_type" = Some (VStr (exn_type x)).
Proof.
  intros Hc. unfold record_error, bind, lift.
  rewrite (get_ctx_eq _ _ _ Hc). simpl.
  set (e := fresh (dom (w_heap (s_world sys)))).
  set (D := <["error" := _]> _).
  set (sysE := mkSystem _ _).
  assert (He : w_heap (s_world sysE) !! e = Some (ODict D))
    by apply lookup_insert_eq.
  assert (Hts : D !! "timestamp" = None) by (subst D; lookup_fields).
  rewrite (publish_event_eq _ _ _ _ He).
  eexists. exists e, (stamped D (s_world sysE)).
  split; [reflexivity|].
  split.
  { rewrite dispatch_sys_published. simpl. apply published_app. }
  unfold stamped. rewrite Hts.
  repeat split; subst D; lookup_fields.
Qed.

Lemma output_info_describes outputs w :
  exists oi w1,
    output_info_of outputs w = (Ok oi, w1)
    /\ describes (w_heap w) (w_heap w1) outputs oi.
Proof.
  assert (Hplain : forall ty w0,
             exists oi w1,
               (let! l := alloc (ODict (<["type" := VStr ty]> ∅))
                in ret (VRef l)) w0 = (Ok oi, w1)
               /\ exists l info,
                    oi = VRef l /\ w_heap w0 !! l = None
                    /\ w_heap w1 !! l = Some (ODict info)
                    /\ info = <["type" := VStr ty]> ∅).
  { intros ty w0. eexists. eexists. split; [reflexivity|].
    eexists. eexists. split; [reflexivity|].
    split; [apply fresh_loc_None|]. split; [apply lookup_insert_eq|].
    reflexivity. }
  assert (Hsized : forall ty n w0,
             exists oi w1,
               (let! l := alloc (ODict (<["type" := VStr ty]>
                                          (<["length" := VInt (Z.of_nat n)]> ∅)))
                in ret (VRef l)) w0 = (Ok oi, w1)
               /\ exists l info,
                    oi = VRef l /\ w_heap w0 !! l = None
                    /\ w_heap w1 !! l = Some (ODict info)
                    /\ info = <["type" := VStr ty]>
                                (<["length" := VInt (Z.of_nat n)]> ∅)).
  { intros ty n w0. eexists. eexists. split; [reflexivity|].
    eexists. eexists. split; [reflexivity|].
    split; [apply fresh_loc_None|]. split; [apply lookup_insert_eq|].
    reflexivity. }
  assert (Hattrs : forall ty names w0,
             exists oi w1,
               (let! a := alloc (OList (VStr <$> names)) in
                let! l := alloc (ODict (<["type" := VStr ty]>
                                          (<["attributes" := VRef a]> ∅))) in
                ret (VRef l)) w0 = (Ok oi, w1)
               /\ exists l info,
                    oi = VRef l /\ w_heap w0 !! l = None
                    /\ w_heap w1 !! l = Some (ODict info)
                    /\ exists a,
                         w_heap w0 !! a = None /\ a <> l
                         /\ w_heap w1 !! a = Some (OList (VStr <$> names))
                         /\ info = <["type" := VStr ty]>
                                     (<["attributes" := VRef a]> ∅)).
  { intros ty names w0. eexists. eexists. split; [reflexivity|]. simpl.
    set (a := fresh (dom (w_heap w0))).
    set (h1 := <[a := OList (VStr <$> names)]> (w_heap w0)).
    assert (Ha : w_heap w0 !! a = None) by apply fresh_loc_None.
    assert (Hl : h1 !! fresh (dom h1) = None) by apply fresh_loc_None.
    assert (Hne : fresh (dom h1) <> a).
    { intros Heq. rewrite Heq in Hl. subst h1.
      rewrite lookup_insert_eq in Hl. discriminate. }
    eexists. eexists. split; [reflexivity|]. split.
    { subst h1. rewrite lookup_insert_ne in Hl by congruence. exact Hl. }
    split; [apply lookup_insert_eq|].
    exists a. split; [exact Ha|]. split; [congruence|].
    split; [|reflexivity].
    rewrite lookup_insert_ne by exact Hne. apply lookup_insert_eq. }
  destruct outputs as [| | | | |r]; simpl; try apply Hplain.
  - eexists. eexists. split; reflexivity.
  - destruct (w_heap w !! r) as [[d|xs|xs|cls attrs|c]|].
    + exact (Hplain "dict" w).
    + exact (Hsized "list" (length xs) w).
    + exact (Hsized "tuple" (length xs) w).
    + exact (Hattrs cls (attrs.*1) w).
    + exact (Hattrs "PipelineContext"
               ["pipeline_id"; "parent_id"; "event_manager"; "start_time";
                "step_times"] w).
    + exact (Hplain "object" w).
Qed.

(** The event [record_step_end] publishes, in full. *)
Lemma record_step_end_event bus self c step outputs sys :
  w_heap (s_world sys) !! self = Some (OCtx c) ->
  exists sys' e oi w1,
    record_step_end bus self step outputs sys = (Ok tt, sys')
    /\ output_info_of outputs (ticked (s_world sys)) = (Ok oi, w1)
    /\ describes (w_heap (s_world sys)) (w_heap w1) outputs oi
    /\ published (s_hist sys')
       = published (s_hist sys)
         ++ [(e,
              <["timestamp" := VFloat (now w1)]>
                (<["duration" :=
                     VFloat (now (s_world sys)
                             - default (start_time c) (step_times c !! step))]>
                   (<["output_info" := oi]>
                      (event_fields "step_end" c step))))].
Proof.
  intros Hc.
  destruct (record_step_end_eq bus self c step outputs sys Hc)
    as (oi & w1 & Eoi & Hc1 & _ & Hclock & Htick & _ & Eq).
  destruct (output_info_describes outputs (ticked (s_world sys)))
    as (oi' & w1' & Eoi' & Hdesc).
  rewrite Eoi in Eoi'. injection Eoi' as <- <-.
  set (e := fresh (dom (w_heap w1))) in *.
  set (D := <["duration" := _]> _) in Eq.
  set (sysE := mkSystem _ _) in Eq.
  assert (He : w_heap (s_world sysE) !! e = Some (ODict D))
    by apply lookup_insert_eq.
  assert (Hts : D !! "timestamp" = None) by (subst D; lookup_fields).
  rewrite (publish_event_eq _ _ _ _ He) in Eq.
  eexists. exists e, oi, w1. split; [exact Eq|]. split; [exact Eoi|].
  split; [exact Hdesc|].
  rewrite dispatch_sys_published. simpl. rewrite published_app. simpl.
  unfold stamped. rewrite Hts. reflexivity.
Qed.

(** The wrapper around an operation that returns. *)
Lemma step_timing_returns bus step_name self_context func args kwargs sys
    ctx sys0 sys1 v w2 c2 :
  lift (resolve_context self_context args kwargs) sys = (Ok (VRef ctx), sys0) ->
  record_step_start bus ctx step_name sys0 = (Ok tt, sys1) ->
  func args kwargs (s_world sys1) = (Ok v, w2) ->
  w_heap w2 !! ctx = Some (OCtx c2) ->
  exists sys' e oi w3,
    step_timing bus step_name self_context func args kwargs sys
    = (Ok v, sys')
    /\ output_info_of v (ticked w2) = (Ok oi, w3)
    /\ describes (w_heap w2) (w_heap w3) v oi
    /\ published (s_hist sys')
       = published (s_hist sys1)
         ++ [(e,
              <["timestamp" := VFloat (now w3)]>
                (<["duration" :=
                     VFloat (now w2
                             - default (start_time c2)
                                       (step_times c2 !! step_name))]>
                   (<["output_info" := oi]>
                      (event_fields "step_end" c2 step_name))))].
Proof.
  intros Hres Hstart Hfun Hc2. destruct sys0 as [w0 h0].
  destruct (record_step_end_event bus ctx c2 step_name v
              (mkSystem w2 (s_hist sys1)) Hc2)
    as (sys' & e & oi & w3 & Eq & Eoi & Hdesc & Hpub).
  exists sys', e, oi, w3.
  split.
  { unfold step_timing. unfold bind at 1. rewrite Hres.
    unfold bind at 1. unfold lift at 1. simpl.
    unfold bind at 1. rewrite Hstart.
    unfold try_except. unfold bind at 1. unfold lift at 1. rewrite Hfun.
    unfold bind at 1. rewrite Eq. reflexivity. }
  split; [exact Eoi|]. split; [exact Hdesc|exact Hpub].
Qed.




(** ** Reading the collector's state *)

Lemma mapM_pure {S A B} (f : A -> ST S B) (g : A -> B) xs s :
  Forall (fun x => f x s = (Ok (g x), s)) xs ->
  mapM f xs s = (Ok (g <$> xs), s).
Proof.
  induction 1 as [|x xs Hx _ IH]; [reflexivity|].
  simpl. unfold bind. rewrite Hx, IH. reflexivity.
Qed.

Section Reads.
Variables (h : gmap loc obj) (metrics : loc) (S : gmap loc node).
Hypothesis Hrepr : collector_repr h metrics S.
Variable w : world.
Hypothesis Hw : w_heap w = h.

Lemma repr_get_dict l n d :
  S !! l = Some n -> realize n = ODict d -> get_dict l w = (Ok d, w).
Proof.
  intros Hl Hr. destruct Hrepr as (_ & _ & Hh).
  unfold get_dict. rewrite Hw, (Hh _ _ Hl), Hr. reflexivity.
Qed.

Lemma repr_get_list l n xs :
  S !! l = Some n -> realize n = OList xs -> get_list l w = (Ok xs, w).
Proof.
  intros Hl Hr. destruct Hrepr as (_ & _ & Hh).
  unfold get_list. rewrite Hw, (Hh _ _ Hl), Hr. reflexivity.
Qed.

Lemma repr_node_ok l n : S !! l = Some n -> node_ok S n.
Proof. destruct Hrepr as (_ & Hok & _). apply Hok. Qed.

Lemma column_duration l es :
  S !! l = Some (NStepList es) ->
  column "duration" (VRef l) w = (Ok (durations_at S l), w).
Proof.
  intros Hl. unfold column, bind. simpl.
  rewrite (repr_get_list l _ _ Hl eq_refl).
  unfold durations_at. rewrite Hl.
  rewrite (mapM_pure _ (fun v => match v with
                                 | VRef e => duration_of S e
                                 | _ => VNone
                                 end)).
  - rewrite <- list_fmap_compose. reflexivity.
  - apply Forall_fmap. pose proof (repr_node_ok _ _ Hl) as Hok. simpl in Hok.
    eapply Forall_impl; [exact Hok|]. intros e (d & t & He). simpl.
    unfold bind, subscript, bind. simpl.
    rewrite (repr_get_dict e _ _ He eq_refl).
    unfold dict_getitem. rewrite lookup_insert_eq.
    unfold duration_of. rewrite He. reflexivity.
Qed.

Lemma column_value l es :
  S !! l = Some (NMetricList es) ->
  column "value" (VRef l) w = (Ok (values_at S l), w).
Proof.
  intros Hl. unfold column, bind. simpl.
  rewrite (repr_get_list l _ _ Hl eq_refl).
  unfold values_at. rewrite Hl.
  rewrite (mapM_pure _ (fun v => match v with
                                 | VRef e => value_of S e
                                 | _ => VNone
                                 end)).
  - rewrite <- list_fmap_compose. reflexivity.
  - apply Forall_fmap. pose proof (repr_node_ok _ _ Hl) as Hok. simpl in Hok.
    eapply Forall_impl; [exact Hok|]. intros e (v & st & t & He). simpl.
    unfold bind, subscript, bind. simpl.
    rewrite (repr_get_dict e _ _ He eq_refl).
    unfold dict_getitem. rewrite lookup_insert_eq.
    unfold value_of. rewrite He. reflexivity.
Qed.

Lemma subscript2_run runs pid r s m :
  S !! metrics = Some (NRoot runs) -> runs !! pid = Some r ->
  S !! r = Some (NRun s m) ->
  subscript2 metrics pid "steps" w = (Ok s, w)
  /\ subscript2 metrics pid "metrics" w = (Ok m, w).
Proof.
  intros Hroot Hpid Hr. unfold subscript2, subscript, bind.
  rewrite (repr_get_dict metrics _ _ Hroot eq_refl).
  unfold dict_getitem. rewrite lookup_fmap, Hpid. simpl.
  rewrite (repr_get_dict r _ _ Hr eq_refl).
  rewrite lookup_insert_eq. simpl.
  rewrite lookup_insert_ne by discriminate. rewrite lookup_insert_eq.
  split; reflexivity.
Qed.

Lemma get_step_durations_repr pid :
  get_step_durations metrics pid w
  = (Ok (recorded_durations S metrics pid), w).
Proof.
  destruct Hrepr as ([runs Hroot] & _ & _).
  unfold get_step_durations, recorded_durations, run_of, bind.
  rewrite (repr_get_dict metrics _ _ Hroot eq_refl), Hroot.
  rewrite lookup_fmap.
  destruct (runs !! pid) as [r|] eqn:Hpid; simpl; [|reflexivity].
  destruct (repr_node_ok _ _ Hroot _ _ Hpid) as (s & m & Hr).
  rewrite Hr.
  destruct (subscript2_run runs pid r s m Hroot Hpid Hr) as [-> _].
  destruct (repr_node_ok _ _ Hr) as ([ls Hs] & _).
  rewrite (repr_get_dict s _ _ Hs eq_refl), Hs.
  rewrite (mapM_pure _ (prod_map id (fun v => match v with
                                              | VRef l => durations_at S l
                                              | _ => []
                                              end))).
  - rewrite list_to_map_fmap, list_to_map_to_list.
    rewrite <- map_fmap_compose. reflexivity.
  - apply Forall_forall. intros [k v] Hin.
    apply elem_of_map_to_list in Hin. rewrite lookup_fmap in Hin.
    destruct (ls !! k) as [l|] eqn:Hk; [|discriminate].
    injection Hin as <-.
    destruct (repr_node_ok _ _ Hs _ _ Hk) as [es Hl].
    unfold bind. simpl. rewrite (column_duration l es Hl). reflexivity.
Qed.

Lemma get_metric_values_repr pid name :
  get_metric_values metrics pid name w
  = (Ok (recorded_values S metrics pid name), w).
Proof.
  destruct Hrepr as ([runs Hroot] & _ & _).
  unfold get_metric_values, recorded_values, run_of, bind.
  rewrite (repr_get_dict metrics _ _ Hroot eq_refl), Hroot.
  rewrite lookup_fmap.
  destruct (runs !! pid) as [r|] eqn:Hpid; simpl; [|reflexivity].
  destruct (repr_node_ok _ _ Hroot _ _ Hpid) as (s & m & Hr).
  rewrite Hr.
  destruct (subscript2_run runs pid r s m Hroot Hpid Hr) as [_ ->].
  destruct (repr_node_ok _ _ Hr) as (_ & [ls Hm]).
  rewrite (repr_get_dict m _ _ Hm eq_refl), Hm.
  rewrite lookup_fmap.
  destruct (ls !! name) as [l|] eqn:Hk; simpl; [|reflexivity].
  destruct (repr_node_ok _ _ Hm _ _ Hk) as [es Hl].
  apply (column_value l es Hl).
Qed.
End Reads.

(** ** Averages *)

Lemma py_add_num a b x y :
  as_num a = Some x -> as_num b = Some y ->
  exists v n, py_add a b = Ok v /\ as_num v = Some n
              /\ (num_Q n == num_Q x + num_Q y)%Q.
Proof.
  intros Ha Hb. unfold py_add. rewrite Ha, Hb.
  destruct x as [x|x], y as [y|y]; eexists; eexists;
    (split; [reflexivity|]); (split; [reflexivity|]);
    unfold num_Q; try reflexivity.
  rewrite inject_Z_plus. reflexivity.
Qed.

Lemma py_sum_from_num acc a ds ns :
  as_num acc = Some a ->
  Forall2 (fun d n => as_num d = Some n) ds ns ->
  exists v n, py_sum_from acc ds = Ok v /\ as_num v = Some n
              /\ (num_Q n == num_Q a + Qsum (num_Q <$> ns))%Q.
Proof.
  intros Ha Hall. revert acc a Ha.
  induction Hall as [|d n ds ns Hd _ IH]; intros acc a Ha.
  - exists acc, a. split; [reflexivity|]. split; [exact Ha|].
    unfold Qsum. simpl. rewrite Qplus_0_r. reflexivity.
  - destruct (py_add_num acc d a n Ha Hd) as (v1 & n1 & E1 & Hv1 & Hq1).
    destruct (IH v1 n1 Hv1) as (v & m & E & Hv & Hq).
    exists v, m. split.
    + simpl. rewrite E1. exact E.
    + split; [exact Hv|]. rewrite Hq, Hq1. unfold Qsum. simpl.
      rewrite Qplus_assoc. reflexivity.
Qed.

(** The mean of a non-empty list of numbers. *)
Lemma average_mean d ds ns :
  Forall2 (fun d n => as_num d = Some n) (d :: ds) ns ->
  exists q, average (d :: ds) = Ok (VFloat q)
            /\ (q == arithmetic_mean (num_Q <$> ns))%Q.
Proof.
  intros Hnum.
  destruct (py_sum_from_num (VInt 0) (NInt 0) (d :: ds) ns eq_refl Hnum)
    as (total & n & Esum & Hn & Hq).
  exists (num_Q n / inject_Z (Z.of_nat (length (d :: ds))))%Q.
  split.
  - unfold average, py_sum. rewrite Esum.
    unfold py_truediv. rewrite Hn. simpl as_num. cbv iota.
    simpl num_Q.
    destruct (Qeq_bool (inject_Z (Z.of_nat (length (d :: ds)))) 0)
      eqn:Hz; [|reflexivity].
    apply Qeq_bool_eq in Hz. unfold Qeq in Hz. simpl in Hz. lia.
  - unfold arithmetic_mean. rewrite Hq.
    rewrite length_fmap, <- (Forall2_length _ _ _ Hnum).
    simpl num_Q. unfold inject_Z at 1. rewrite Qplus_0_l. reflexivity.
Qed.

Lemma get_average_duration_repr h metrics S w pid step :
  collector_repr h metrics S ->
  w_heap w = h ->
  get_average_duration metrics pid step w
  = (average (default [] (recorded_durations S metrics pid !! step)), w).
Proof.
  intros Hrepr Hw. unfold get_average_duration, bind.
  rewrite (get_step_durations_repr h metrics S Hrepr w Hw). reflexivity.
Qed.

(** C6.  On a well-formed collector state, [get_average_duration]
    returns [None] when the run is unknown or the step has no recorded
    duration, and otherwise the sum of the step's recorded durations
    divided by their number. *)
Theorem get_average_duration_mean h metrics S w pid step :
  collector_repr h metrics S ->
  w_heap w = h ->
  (run_of S metrics pid = None ->
   get_average_duration metrics pid step w = (Ok VNone, w))
  /\ (recorded_durations S metrics pid !! step = None
      \/ recorded_durations S metrics pid !! step = Some [] ->
      get_average_duration metrics pid step w = (Ok VNone, w))
  /\ (forall d ds ns,
        recorded_durations S metrics pid !! step = Some (d :: ds) ->
        Forall2 (fun d n => as_num d = Some n) (d :: ds) ns ->
        exists q,
          get_average_duration metrics pid step w = (Ok (VFloat q), w)
          /\ (q == arithmetic_mean (num_Q <$> ns))%Q).
Proof.
  intros Hrepr Hw.
  rewrite (get_average_duration_repr h metrics S w pid step Hrepr Hw).
  split; [|split].
  - intros Hrun. unfold recorded_durations. rewrite Hrun, lookup_empty.
    reflexivity.
  - intros [-> | ->]; reflexivity.
  - intros d ds ns -> Hnum.
    destruct (average_mean d ds ns Hnum) as (q & Eq & Hq).
    exists q. change (default [] (Some (d :: ds))) with (d :: ds).
    rewrite Eq. split; [reflexivity|exact Hq].
Qed.

(** ** The decoder builds a structure of its own *)

Lemma grows_refl h : grows h h.
Proof.
  split; [auto|]. intros l o l' Hn Hs. rewrite Hn in Hs. discriminate.
Qed.

Lemma grows_trans h h1 h2 : grows h h1 -> grows h1 h2 -> grows h h2.
Proof.
  intros [Hk1 Hn1] [Hk2 Hn2]. split.
  - intros l x Hl. apply Hk2, Hk1, Hl.
  - intros l o l' Hl Hl2 Hin.
    destruct (h1 !! l) as [o1|] eqn:Hl1.
    + rewrite (Hk2 _ _ Hl1) in Hl2. injection Hl2 as <-.
      eapply Hn1; eauto.
    + pose proof (Hn2 _ _ _ Hl1 Hl2 Hin) as Hnone.
      destruct (h !! l') as [x|] eqn:Hx; [|reflexivity].
      rewrite (Hk1 _ _ Hx) in Hnone. discriminate.
Qed.

Lemma grows_None h h' l : grows h h' -> h' !! l = None -> h !! l = None.
Proof.
  intros [Hk _] Hl. destruct (h !! l) as [x|] eqn:Hx; [|reflexivity].
  rewrite (Hk _ _ Hx) in Hl. discriminate.
Qed.

(** Allocating a container whose items are scalars or new objects. *)
Lemma grows_alloc h h1 o :
  grows h h1 ->
  Forall (new_in h) (children o) ->
  grows h (<[fresh (dom h1) := o]> h1)
  /\ new_in h (VRef (fresh (dom h1))).
Proof.
  intros Hg Hnew. pose proof (fresh_loc_None h1) as Hf. split.
  - destruct Hg as [Hk Hn]. split.
    + intros l x Hl. apply lookup_alloc_old, Hk, Hl.
    + intros l o0 l' Hl Hl' Hin.
      destruct (decide (l = fresh (dom h1))) as [->|Hne].
      * rewrite lookup_insert_eq in Hl'. injection Hl' as <-.
        rewrite Forall_forall in Hnew. apply (Hnew _ Hin). reflexivity.
      * rewrite lookup_insert_ne in Hl' by congruence. eapply Hn; eauto.
  - intros l [= <-]. eapply grows_None; eauto.
Qed.

Lemma children_list_to_map (kvs : list (string * val)) v :
  v ∈ children (ODict (list_to_map (reverse kvs))) -> v ∈ kvs.*2.
Proof.
  simpl. intros Hin. apply list_elem_of_fmap in Hin as ([k v'] & -> & Hin).
  apply elem_of_map_to_list in Hin.
  apply elem_of_list_to_map_2 in Hin. rewrite elem_of_reverse in Hin.
  apply list_elem_of_fmap. exists (k, v'). split; [reflexivity|exact Hin].
Qed.

Lemma mapM_loads {A B} (f : A -> M B) (proj : B -> val) xs :
  Forall (fun x => forall w, exists y w',
            f x w = (Ok y, w') /\ grows (w_heap w) (w_heap w')
            /\ new_in (w_heap w) (proj y)) xs ->
  forall w, exists ys w',
    mapM f xs w = (Ok ys, w') /\ grows (w_heap w) (w_heap w')
    /\ Forall (new_in (w_heap w)) (proj <$> ys).
Proof.
  induction 1 as [|x xs Hx _ IH]; intros w.
  - exists [], w. split; [reflexivity|]. split; [apply grows_refl|constructor].
  - destruct (Hx w) as (y & w1 & Ey & Hg1 & Hy).
    destruct (IH w1) as (ys & w2 & Eys & Hg2 & Hys).
    exists (y :: ys), w2. simpl. unfold bind. rewrite Ey, Eys.
    split; [reflexivity|]. split; [eapply grows_trans; eauto|].
    simpl. constructor; [exact Hy|].
    eapply Forall_impl; [exact Hys|]. intros v Hv l Hl.
    eapply grows_None; [exact Hg1|]. apply (Hv l Hl).
Qed.

Lemma json_loads_spec j : loads_ok j.
Proof.
  induction j as [| b | z | q | s | items IH | fields IH] using json_ind;
    try (intros w; eexists; eexists;
         split; [reflexivity|split; [apply grows_refl|intros l; discriminate]]).
  - intros w.
    destruct (mapM_loads json_loads id items IH w)
      as (vs & w1 & Evs & Hg & Hvs).
    rewrite list_fmap_id in Hvs.
    destruct (grows_alloc (w_heap w) (w_heap w1) (OList vs) Hg Hvs)
      as [Hg' Hnew].
    eexists. eexists. split.
    { simpl. unfold bind at 1. rewrite Evs. reflexivity. }
    split; [exact Hg'|exact Hnew].
  - intros w.
    pose (f := fun kv : string * json =>
                 let! v := json_loads kv.2 in ret (S := world) (kv.1, v)).
    assert (Hf : Forall (fun kv : string * json => forall w, exists y w',
                   f kv w = (Ok y, w')
                   /\ grows (w_heap w) (w_heap w')
                   /\ new_in (w_heap w) (y.2)) fields).
    { eapply Forall_impl; [exact IH|]. intros [k j] Hj w0.
      destruct (Hj w0) as (v & w1 & Ev & Hg & Hv).
      exists (k, v), w1. unfold f, bind. simpl in *. rewrite Ev.
      split; [reflexivity|]. split; assumption. }
    destruct (mapM_loads f snd fields Hf w) as (kvs & w1 & Evs & Hg & Hvs).
    unfold f in Evs.
    assert (Hch : Forall (new_in (w_heap w))
                         (children (ODict (list_to_map (reverse kvs))))).
    { apply Forall_forall. intros v Hin.
      rewrite Forall_forall in Hvs. apply Hvs, children_list_to_map, Hin. }
    destruct (grows_alloc (w_heap w) (w_heap w1)
                (ODict (list_to_map (reverse kvs))) Hg Hch) as [Hg' Hnew].
    eexists. eexists. split.
    { simpl. unfold bind at 1. rewrite Evs. reflexivity. }
    split; [exact Hg'|exact Hnew].
Qed.

Lemma reachable_new h h' v l :
  grows h h' -> new_in h v -> reachable h' v l -> h !! l = None.
Proof.
  intros Hg Hv Hr. induction Hr as [l | l0 o v l Hl0 Hin _ IH].
  - apply Hv. reflexivity.
  - apply IH. intros l' ->. destruct Hg as [_ Hn].
    eapply Hn; [|exact Hl0|exact Hin]. apply Hv. reflexivity.
Qed.

(** ** The encoder on a collector state *)

Lemma mapR_ok {A B} (f : A -> result B) xs :
  Forall (fun x => exists y, f x = Ok y) xs -> exists ys, mapR f xs = Ok ys.
Proof.
  induction 1 as [|x xs [y Hy] _ [ys IH]]; [exists []; reflexivity|].
  exists (y :: ys). simpl. rewrite Hy, IH. reflexivity.
Qed.

Lemma mapR_ext {A B} (f g : A -> result B) xs ys :
  (forall x y, f x = Ok y -> g x = Ok y) ->
  mapR f xs = Ok ys -> mapR g xs = Ok ys.
Proof.
  intros Hfg. revert ys. induction xs as [|x xs IH]; intros ys; [auto|].
  simpl. destruct (f x) as [y|e] eqn:Ex; [|discriminate].
  rewrite (Hfg _ _ Ex).
  destruct (mapR f xs) as [ys'|e]; [|discriminate].
  rewrite (IH ys' eq_refl). auto.
Qed.

Lemma dumps_scalar depth seen h v :
  scalar v -> exists j, dumps depth seen h v = Ok j.
Proof. destruct v, depth; simpl; intros Hs; try contradiction; eauto. Qed.

Lemma dumps_dict depth seen h l d :
  l ∉ seen -> h !! l = Some (ODict d) ->
  (forall k v, d !! k = Some v ->
               exists j, dumps depth ({[l]} ∪ seen) h v = Ok j) ->
  exists j, dumps (S depth) seen h (VRef l) = Ok j.
Proof.
  intros Hl Hd Hch. simpl. rewrite decide_False by exact Hl. rewrite Hd.
  destruct (mapR_ok (fun kv : string * val =>
                       match dumps depth ({[l]} ∪ seen) h kv.2 with
                       | Ok j => Ok (kv.1, j)
                       | Raise e => Raise e
                       end) (map_to_list d)) as [fields ->]; [|eauto].
  apply Forall_forall. intros [k v] Hin. apply elem_of_map_to_list in Hin.
  destruct (Hch k v Hin) as [j Hj]. simpl. rewrite Hj. eauto.
Qed.

Lemma dumps_list depth seen h l xs :
  l ∉ seen -> h !! l = Some (OList xs) ->
  Forall (fun v => exists j, dumps depth ({[l]} ∪ seen) h v = Ok j) xs ->
  exists j, dumps (S depth) seen h (VRef l) = Ok j.
Proof.
  intros Hl Hd Hch. simpl. rewrite decide_False by exact Hl. rewrite Hd.
  destruct (mapR_ok _ _ Hch) as [items ->]. eauto.
Qed.

Section Encoder.
Variables (h : gmap loc obj) (metrics : loc) (S : gmap loc node).
Hypothesis Hrepr : collector_repr h metrics S.
Hypothesis Hscalar : payloads_scalar S.

Lemma dumps_node k : forall depth seen l n,
  S !! l = Some n -> rank n <= k -> k <= depth ->
  (forall l', l' ∈ seen -> exists n', S !! l' = Some n' /\ rank n < rank n') ->
  exists j, dumps depth seen h (VRef l) = Ok j.
Proof.
  destruct Hrepr as (_ & Hok & Hheap).
  induction k as [|k IH]; intros depth seen l n Hl Hrank Hdepth Hseen.
  { destruct n; simpl in Hrank; lia. }
  assert (Hnot : l ∉ seen).
  { intros Hin. destruct (Hseen _ Hin) as (n' & Hl' & Hlt).
    rewrite Hl in Hl'. injection Hl' as <-. lia. }
  destruct depth as [|depth]; [lia|].
  assert (Hseen' : forall c, rank c < rank n ->
             forall l', l' ∈ ({[l]} ∪ seen : gset loc) ->
             exists n', S !! l' = Some n' /\ rank c < rank n').
  { intros c Hc l' Hin. apply elem_of_union in Hin as [Hin|Hin].
    - apply elem_of_singleton in Hin as ->. exists n. split; [exact Hl|lia].
    - destruct (Hseen _ Hin) as (n' & Hn' & Hlt). exists n'.
      split; [exact Hn'|lia]. }
  pose proof (Hheap _ _ Hl) as Hobj. pose proof (Hok _ _ Hl) as Hnode.
  pose proof (Hscalar _ _ Hl) as Hsc.
  destruct n as [runs|s m|ls|ls|es|es|d t|v st t]; simpl in Hobj, Hnode, Hsc.
  - eapply dumps_dict; [exact Hnot|exact Hobj|]. intros pid v Hv.
    rewrite lookup_fmap in Hv. destruct (runs !! pid) as [r|] eqn:Hr;
      [|discriminate]. injection Hv as <-.
    destruct (Hnode _ _ Hr) as (s & m & Hrun).
    eapply (IH depth _ r _ Hrun); [simpl in *; lia|lia|].
    apply Hseen'. simpl. lia.
  - destruct Hnode as ([ls Hs] & [lm Hm]).
    eapply dumps_dict; [exact Hnot|exact Hobj|]. intros key v Hv.
    destruct (decide (key = "steps")) as [->|Hne1].
    { rewrite lookup_insert_eq in Hv. injection Hv as <-.
      eapply (IH depth _ s _ Hs); [simpl in *; lia|lia|].
      apply Hseen'. simpl. lia. }
    rewrite lookup_insert_ne in Hv by congruence.
    destruct (decide (key = "metrics")) as [->|Hne2].
    { rewrite lookup_insert_eq in Hv. injection Hv as <-.
      eapply (IH depth _ m _ Hm); [simpl in *; lia|lia|].
      apply Hseen'. simpl. lia. }
    rewrite lookup_insert_ne in Hv by congruence.
    rewrite lookup_empty in Hv. discriminate.
  - eapply dumps_dict; [exact Hnot|exact Hobj|]. intros key v Hv.
    rewrite lookup_fmap in Hv. destruct (ls !! key) as [l0|] eqn:Hr;
      [|discriminate]. injection Hv as <-.
    destruct (Hnode _ _ Hr) as (es & Hlist).
    eapply (IH depth _ l0 _ Hlist); [simpl in *; lia|lia|].
    apply Hseen'. simpl. lia.
  - eapply dumps_dict; [exact Hnot|exact Hobj|]. intros key v Hv.
    rewrite lookup_fmap in Hv. destruct (ls !! key) as [l0|] eqn:Hr;
      [|discriminate]. injection Hv as <-.
    destruct (Hnode _ _ Hr) as (es & Hlist).
    eapply (IH depth _ l0 _ Hlist); [simpl in *; lia|lia|].
    apply Hseen'. simpl. lia.
  - eapply dumps_list; [exact Hnot|exact Hobj|].
    apply Forall_fmap. eapply Forall_impl; [exact Hnode|].
    intros e (d & t & He). simpl.
    eapply (IH depth _ e _ He); [simpl in *; lia|lia|].
    apply Hseen'. simpl. lia.
  - eapply dumps_list; [exact Hnot|exact Hobj|].
    apply Forall_fmap. eapply Forall_impl; [exact Hnode|].
    intros e (v & st & t & He). simpl.
    eapply (IH depth _ e _ He); [simpl in *; lia|lia|].
    apply Hseen'. simpl. lia.
  - destruct Hsc as [Hd Ht].
    eapply dumps_dict; [exact Hnot|exact Hobj|]. intros key v Hv.
    apply dumps_scalar.
    destruct (decide (key = "duration")) as [->|Hne1].
    { rewrite lookup_insert_eq in Hv. injection Hv as <-. exact Hd. }
    rewrite lookup_insert_ne in Hv by congruence.
    destruct (decide (key = "timestamp")) as [->|Hne2].
    { rewrite lookup_insert_eq in Hv. injection Hv as <-. exact Ht. }
    rewrite lookup_insert_ne in Hv by congruence.
    rewrite lookup_empty in Hv. discriminate.
  - destruct Hsc as (Hv0 & Hst & Ht).
    eapply dumps_dict; [exact Hnot|exact Hobj|]. intros key v' Hv.
    apply dumps_scalar.
    destruct (decide (key = "value")) as [->|Hne1].
    { rewrite lookup_insert_eq in Hv. injection Hv as <-. exact Hv0. }
    rewrite lookup_insert_ne in Hv by congruence.
    destruct (decide (key = "step")) as [->|Hne2].
    { rewrite lookup_insert_eq in Hv. injection Hv as <-. exact Hst. }
    rewrite lookup_insert_ne in Hv by congruence.
    destruct (decide (key = "timestamp")) as [->|Hne3].
    { rewrite lookup_insert_eq in Hv. injection Hv as <-. exact Ht. }
    rewrite lookup_insert_ne in Hv by congruence.
    rewrite lookup_empty in Hv. discriminate.
Qed.

(** A well-formed state with scalar payloads is serialisable. *)
Lemma dumps_collector :
  exists j, dumps recursion_limit ∅ h (VRef metrics) = Ok j.
Proof.
  destruct Hrepr as ([runs Hroot] & _).
  eapply (dumps_node 5 _ _ metrics _ Hroot); [simpl; lia| |].
  - unfold recursion_limit. lia.
  - intros l' Hin. apply elem_of_empty in Hin. contradiction.
Qed.
End Encoder.

(** What the encoder returns depends only on the objects it read. *)
Lemma dumps_agree h h2 :
  (forall l x, h !! l = Some x -> h2 !! l = Some x) ->
  forall depth seen v j,
    dumps depth seen h v = Ok j -> dumps depth seen h2 v = Ok j.
Proof.
  intros Hagree. induction depth as [|depth IH]; intros seen v j Hd.
  - destruct v; simpl in *; exact Hd.
  - destruct v; simpl in *; try exact Hd.
    destruct (decide (l ∈ seen)); [discriminate|].
    destruct (h !! l) as [o|] eqn:Hl; [|discriminate].
    rewrite (Hagree _ _ Hl).
    destruct o as [d|xs|xs|cls attrs|c]; try discriminate.
    + destruct (mapR _ (map_to_list d)) as [fields|e] eqn:Hm; [|discriminate].
      erewrite mapR_ext; [exact Hd| |exact Hm].
      intros [k v] y. simpl.
      destruct (dumps depth ({[l]} ∪ seen) h v) as [j0|e] eqn:Hv;
        [|discriminate].
      rewrite (IH _ _ _ Hv). auto.
    + destruct (mapR _ xs) as [items|e] eqn:Hm; [|discriminate].
      erewrite mapR_ext; [exact Hd| |exact Hm].
      intros v y Hv. apply IH, Hv.
    + destruct (mapR _ xs) as [items|e] eqn:Hm; [|discriminate].
      erewrite mapR_ext; [exact Hd| |exact Hm].
      intros v y Hv. apply IH, Hv.
Qed.

(** ** The copy has the content of the state *)

Lemma all2_Forall2 {A B} (R : A -> B -> Prop) xs ys :
  all2 R xs ys <-> Forall2 R xs ys.
Proof.
  revert ys. induction xs as [|x xs IH]; intros [|y ys]; simpl.
  - split; [constructor|auto].
  - split; [contradiction|intros H; inversion H].
  - split; [contradiction|intros H; inversion H].
  - rewrite IH. split.
    + intros [Hx Hr]. constructor; assumption.
    + intros H. inversion H; subst. split; assumption.
Qed.

Lemma all_fields_Forall R d fs :
  all_fields R d fs
  <-> Forall (fun f => exists v, d !! f.1 = Some v /\ R f.2 v) fs.
Proof.
  induction fs as [|f fs IH]; simpl.
  - split; [constructor|auto].
  - rewrite IH. split.
    + intros [Hf Hr]. constructor; assumption.
    + intros H. inversion H; subst. split; assumption.
Qed.

Lemma holds_mono h h' :
  (forall l x, h !! l = Some x -> h' !! l = Some x) ->
  forall j v, holds h j v -> holds h' j v.
Proof.
  intros Hk.
  induction j as [| b | z | q | s | items IH | fields IH] using json_ind;
    intros v; simpl; auto.
  - intros (l & xs & -> & Hl & Hall). exists l, xs. split; [reflexivity|].
    split; [destruct Hl as [Hl|Hl]; [left|right]; apply Hk, Hl|].
    apply all2_Forall2. apply all2_Forall2 in Hall.
    clear Hl. revert xs Hall. induction IH as [|j items Hj _ IHi];
      intros xs Hall; inversion Hall; subst; constructor; auto.
  - intros (l & d & -> & Hl & Hnd & Hdom & Hall). exists l, d.
    split; [reflexivity|]. split; [apply Hk, Hl|]. split; [exact Hnd|].
    split; [exact Hdom|].
    apply all_fields_Forall. apply all_fields_Forall in Hall.
    clear Hnd Hdom. induction IH as [|f fields Hf _ IHf];
      inversion Hall as [|? ? (v & Hv & Hh) Hrest]; subst; constructor; auto.
    exists v. split; [exact Hv|apply Hf, Hh].
Qed.

Lemma mapR_Forall2 {A B} (f : A -> result B) xs ys :
  mapR f xs = Ok ys -> Forall2 (fun x y => f x = Ok y) xs ys.
Proof.
  revert ys. induction xs as [|x xs IH]; intros ys; simpl.
  - intros [= <-]. constructor.
  - destruct (f x) as [y|e] eqn:Ex; [|discriminate].
    destruct (mapR f xs) as [ys'|e]; [|discriminate].
    intros [= <-]. constructor; [exact Ex|apply IH; reflexivity].
Qed.

(** What the encoder returns is the content of what it encoded. *)
Lemma dumps_holds h : forall depth seen v j,
  dumps depth seen h v = Ok j -> holds h j v.
Proof.
  induction depth as [|depth IH]; intros seen v j Hd.
  - destruct v; simpl in Hd; try (injection Hd as <-; reflexivity).
    destruct (decide (l ∈ seen)); discriminate.
  - destruct v; simpl in Hd; try (injection Hd as <-; reflexivity).
    destruct (decide (l ∈ seen)); [discriminate|].
    destruct (h !! l) as [[d|xs|xs|cls attrs|c]|] eqn:Hl; try discriminate.
    + destruct (mapR _ (map_to_list d)) as [fields|e] eqn:Hm; [|discriminate].
      injection Hd as <-. apply mapR_Forall2 in Hm.
      assert (Hkeys : fields.*1 = (map_to_list d).*1).
      { clear -Hm. induction Hm as [|[k v] f kvs fs Hf _ IHm]; [reflexivity|].
        simpl in *. destruct (dumps depth _ h v); [|discriminate].
        injection Hf as <-. simpl. f_equal. exact IHm. }
      exists l, d. split; [reflexivity|]. split; [exact Hl|].
      split; [rewrite Hkeys; apply NoDup_fst_map_to_list|].
      split.
      { intros k. rewrite Hkeys. rewrite list_elem_of_fmap. split.
        - intros [v Hv]. exists (k, v). split; [reflexivity|].
          apply elem_of_map_to_list, Hv.
        - intros ([k' v] & -> & Hin). exists v.
          apply elem_of_map_to_list, Hin. }
      apply all_fields_Forall.
      assert (Hin : Forall (fun kv => d !! kv.1 = Some kv.2) (map_to_list d)).
      { apply Forall_forall. intros [k v] Hkv. apply elem_of_map_to_list, Hkv. }
      clear Hkeys. induction Hm as [|[k v] f kvs fs Hf _ IHm];
        [constructor|].
      inversion Hin as [|? ? Hkv Hrest]; subst.
      constructor; [|apply IHm, Hrest].
      simpl in Hf. destruct (dumps depth _ h v) as [j0|e] eqn:Hv;
        [|discriminate].
      injection Hf as <-. simpl in *. exists v. split; [exact Hkv|].
      eapply IH, Hv.
    + destruct (mapR _ xs) as [items|e] eqn:Hm; [|discriminate].
      injection Hd as <-. apply mapR_Forall2 in Hm.
      exists l, xs. split; [reflexivity|]. split; [left; exact Hl|].
      apply all2_Forall2. apply Forall2_flip.
      eapply Forall2_impl; [exact Hm|]. intros x y Hxy. eapply IH, Hxy.
    + destruct (mapR _ xs) as [items|e] eqn:Hm; [|discriminate].
      injection Hd as <-. apply mapR_Forall2 in Hm.
      exists l, xs. split; [reflexivity|]. split; [right; exact Hl|].
      apply all2_Forall2. apply Forall2_flip.
      eapply Forall2_impl; [exact Hm|]. intros x y Hxy. eapply IH, Hxy.
Qed.

Lemma json_loads_keeps j w r w' :
  json_loads j w = (Ok r, w') ->
  forall l x, w_heap w !! l = Some x -> w_heap w' !! l = Some x.
Proof.
  intros E. destruct (json_loads_spec j w) as (r0 & w0 & E0 & [Hk _] & _).
  rewrite E in E0. injection E0 as <- <-. exact Hk.
Qed.

Lemma mapM_keeps {A B} (f : A -> M B) xs :
  Forall (fun x => forall w y w', f x w = (Ok y, w') ->
            forall l o, w_heap w !! l = Some o -> w_heap w' !! l = Some o) xs ->
  forall w ys w', mapM f xs w = (Ok ys, w') ->
  forall l o, w_heap w !! l = Some o -> w_heap w' !! l = Some o.
Proof.
  induction 1 as [|x xs Hx _ IH]; intros w ys w' E l o Hl; simpl in E.
  - injection E as <- <-. exact Hl.
  - unfold bind in E. destruct (f x w) as [[y|e] w1] eqn:Ex; [|discriminate].
    destruct (mapM f xs w1) as [[ys1|e] w2] eqn:Exs; [|discriminate].
    injection E as <- <-. eapply IH; [exact Exs|]. eapply Hx; eauto.
Qed.

(** What the decoder builds has the content it decoded. *)
Lemma loads_holds j :
  forall h0 v0, holds h0 j v0 ->
  forall w r w', json_loads j w = (Ok r, w') -> holds (w_heap w') j r.
Proof.
  induction j as [| b | z | q | s | items IH | fields IH] using json_ind;
    intros h0 v0 H0 w r w' E;
    try (simpl in E; injection E as <- <-; reflexivity).
  - destruct H0 as (l0 & xs0 & _ & _ & Hall0). apply all2_Forall2 in Hall0.
    simpl in E. unfold bind in E.
    destruct (mapM json_loads items w) as [[vs|e] w1] eqn:Em; [|discriminate].
    simpl in E. injection E as <- <-.
    exists (fresh (dom (w_heap w1))), vs. split; [reflexivity|].
    split; [left; apply lookup_insert_eq|].
    apply all2_Forall2.
    assert (Hvs : Forall2 (holds (w_heap w1)) items vs).
    { clear -IH Hall0 Em. revert xs0 Hall0 w vs w1 Em.
      induction IH as [|j items Hj Hrest IHi]; intros xs0 Hall0 w vs w1 Em.
      - simpl in Em. injection Em as <- <-. constructor.
      - inversion Hall0 as [|? x0 ? xs0' Hx0 Hxs0]; subst.
        simpl in Em. unfold bind in Em.
        destruct (json_loads j w) as [[v|e] wa] eqn:Ej; [|discriminate].
        destruct (mapM json_loads items wa) as [[vs1|e] wb] eqn:Er;
          [|discriminate].
        injection Em as <- <-. constructor.
        + eapply holds_mono; [|eapply Hj; eauto].
          eapply (mapM_keeps json_loads items); [|exact Er].
          apply Forall_forall. intros j' _ w0 y w0' E0.
          eapply json_loads_keeps, E0.
        + eapply IHi; eauto. }
    eapply Forall2_impl; [exact Hvs|]. intros j v Hjv.
    eapply holds_mono; [|exact Hjv]. intros l x. apply lookup_alloc_old.
  - destruct H0 as (l0 & d0 & _ & _ & Hnd & _ & Hall0).
    apply all_fields_Forall in Hall0.
    simpl in E. unfold bind in E.
    destruct (mapM _ fields w) as [[kvs|e] w1] eqn:Em; [|discriminate].
    simpl in E. injection E as <- <-.
    assert (Hh : Forall2 (fun f kv => kv.1 = f.1
                                     /\ holds (w_heap w1) f.2 kv.2)
                         fields kvs).
    { clear -IH Hall0 Em. revert w kvs w1 Em.
      induction IH as [|[k j] fields Hj Hrest IHf]; intros w kvs w1 Em.
      - simpl in Em. injection Em as <- <-. constructor.
      - inversion Hall0 as [|? ? (v0 & _ & Hv0) Hall0']; subst.
        simpl in Em. unfold bind in Em. simpl in Em.
        destruct (json_loads j w) as [[v|e] wa] eqn:Ej; [|discriminate].
        simpl in Em.
        destruct (mapM _ fields wa) as [[kvs1|e] wb] eqn:Er; [|discriminate].
        injection Em as <- <-.
        constructor; [|eapply IHf; eauto]. simpl. split; [reflexivity|].
        eapply holds_mono; [|eapply Hj; eauto].
        eapply (mapM_keeps _ fields); [|exact Er].
        apply Forall_forall. intros [k' j'] _ w0 y w0' E0.
        unfold bind in E0. simpl in E0.
        destruct (json_loads j' w0) as [[v'|e] w0a] eqn:E1; [|discriminate].
        injection E0 as _ <-. eapply json_loads_keeps, E1. }
    assert (Hkeys : kvs.*1 = fields.*1).
    { clear -Hh. induction Hh as [|f kv fs kvs [Hk _] _ IHh]; [reflexivity|].
      simpl. f_equal; assumption. }
    assert (Hnd' : NoDup (reverse kvs).*1).
    { rewrite fmap_reverse, reverse_Permutation, Hkeys. exact Hnd. }
    exists (fresh (dom (w_heap w1))), (list_to_map (reverse kvs)).
    split; [reflexivity|]. split; [apply lookup_insert_eq|].
    split; [exact Hnd|]. split.
    { intros k. rewrite <- elem_of_dom, dom_list_to_map_L.
      rewrite elem_of_list_to_set, fmap_reverse, elem_of_reverse, Hkeys.
      reflexivity. }
    apply all_fields_Forall. apply Forall_forall. intros f Hf.
    apply list_elem_of_lookup in Hf as [i Hi].
    destruct (Forall2_lookup_l _ _ _ _ _ Hh Hi) as ([k v] & Hkv & Hk & Hv).
    simpl in Hk, Hv. exists v. split.
    + apply elem_of_list_to_map_1; [exact Hnd'|].
      rewrite elem_of_reverse, <- Hk. eapply list_elem_of_lookup_2, Hkv.
    + eapply holds_mono; [|exact Hv]. intros l x. apply lookup_alloc_old.
Qed.

Lemma collector_repr_frame h h2 metrics S :
  collector_repr h metrics S ->
  (forall l x, h !! l = Some x -> h2 !! l = Some x) ->
  collector_repr h2 metrics S.
Proof.
  intros (Hroot & Hok & Hheap) Hagree. split; [exact Hroot|].
  split; [exact Hok|]. intros l n Hl. apply Hagree, Hheap, Hl.
Qed.

(** C7.  On a well-formed collector state whose recorded values are
    scalars, [export_metrics] returns a structure with the content of
    the whole state, made of new objects only: it shares no object with
    the store as it was, and it leaves every existing object as it is.  Whatever is then done to the objects
    of the returned structure, [export_metrics] serialises the same text
    again and [get_step_durations], [get_metric_values] and
    [get_average_duration] return what they returned before. *)
Theorem export_metrics_independent_copy h metrics S w :
  collector_repr h metrics S ->
  payloads_scalar S ->
  w_heap w = h ->
  exists text r w',
    export_metrics metrics w = (Ok r, w')
    /\ json_dumps (VRef metrics) w = (Ok text, w)
    /\ holds h text (VRef metrics)
    /\ holds (w_heap w') text r
    /\ grows h (w_heap w')
    /\ (forall l, reachable (w_heap w') r l -> h !! l = None)
    /\ forall w2,
         mutated_copy (w_heap w') r (w_heap w2) ->
         json_dumps (VRef metrics) w2 = (Ok text, w2)
         /\ (forall pid,
               (get_step_durations metrics pid w2).1
               = (get_step_durations metrics pid w').1)
         /\ (forall pid name,
               (get_metric_values metrics pid name w2).1
               = (get_metric_values metrics pid name w').1)
         /\ (forall pid step,
               (get_average_duration metrics pid step w2).1
               = (get_average_duration metrics pid step w').1).
Proof.
  intros Hrepr Hscalar Hw.
  destruct (dumps_collector h metrics S Hrepr) as [text Htext];
    [exact Hscalar|].
  destruct (json_loads_spec text w) as (r & w' & Eload & Hg & Hnew).
  rewrite Hw in Hg, Hnew.
  exists text, r, w'.
  assert (Hdump : forall w0, (forall l x, h !! l = Some x ->
                                          w_heap w0 !! l = Some x) ->
                  json_dumps (VRef metrics) w0 = (Ok text, w0)).
  { intros w0 Hagree. unfold json_dumps.
    rewrite (dumps_agree h (w_heap w0) Hagree _ _ _ _ Htext). reflexivity. }
  assert (Hw0 : forall l x, h !! l = Some x -> w_heap w !! l = Some x)
    by (rewrite Hw; auto).
  split.
  { unfold export_metrics, bind. rewrite (Hdump w Hw0). exact Eload. }
  split; [apply Hdump, Hw0|].
  pose proof (dumps_holds _ _ _ _ _ Htext) as Hcontent.
  split; [exact Hcontent|].
  split; [eapply loads_holds; eauto|].
  split; [exact Hg|].
  split; [intros l Hr; eapply reachable_new; eauto|].
  intros w2 Hmut.
  assert (Hagree2 : forall l x, h !! l = Some x -> w_heap w2 !! l = Some x).
  { intros l x Hl. apply Hmut; [apply Hg, Hl|].
    intros Hr. pose proof (reachable_new _ _ _ _ Hg Hnew Hr) as Hn.
    rewrite Hl in Hn. discriminate. }
  pose proof (collector_repr_frame _ _ _ _ Hrepr Hagree2) as Hrepr2.
  pose proof (collector_repr_frame _ _ _ _ Hrepr (proj1 Hg)) as Hrepr'.
  split; [apply Hdump, Hagree2|].
  split; [|split].
  - intros pid.
    rewrite (get_step_durations_repr _ metrics S Hrepr2 w2 eq_refl).
    rewrite (get_step_durations_repr _ metrics S Hrepr' w' eq_refl).
    reflexivity.
  - intros pid name.
    rewrite (get_metric_values_repr _ metrics S Hrepr2 w2 eq_refl).
    rewrite (get_metric_values_repr _ metrics S Hrepr' w' eq_refl).
    reflexivity.
  - intros pid step.
    rewrite (get_average_duration_repr _ metrics S w2 pid step Hrepr2 eq_refl).
    rewrite (get_average_duration_repr _ metrics S w' pid step Hrepr' eq_refl).
    reflexivity.
Qed.

(** ** [handle_event] keeps the collector's state well-formed *)

Lemma same_role_refl n : same_role n n.
Proof. destruct n; exact I. Qed.

Lemma node_ok_mono S S' n :
  (forall l n0, S !! l = Some n0 ->
                exists n1, S' !! l = Some n1 /\ same_role n0 n1) ->
  node_ok S n -> node_ok S' n.
Proof.
  intros Hm. destruct n as [runs|s m|ls|ls|es|es|d t|v st t]; simpl; auto.
  - intros H pid r Hr. destruct (H _ _ Hr) as (s & m & Hs).
    destruct (Hm _ _ Hs) as ([] & Hn & Hrole); try contradiction; eauto.
  - intros ([ls Hs] & [lm Hl]).
    destruct (Hm _ _ Hs) as ([] & Hn & Hrole); try contradiction.
    destruct (Hm _ _ Hl) as ([] & Hn' & Hrole'); try contradiction. eauto.
  - intros H k l Hk. destruct (H _ _ Hk) as (es & Hs).
    destruct (Hm _ _ Hs) as ([] & Hn & Hrole); try contradiction; eauto.
  - intros H k l Hk. destruct (H _ _ Hk) as (es & Hs).
    destruct (Hm _ _ Hs) as ([] & Hn & Hrole); try contradiction; eauto.
  - intros H. eapply Forall_impl; [exact H|]. intros e (d & t & He).
    destruct (Hm _ _ He) as ([] & Hn & Hrole); try contradiction; eauto.
  - intros H. eapply Forall_impl; [exact H|]. intros e (v & st & t & He).
    destruct (Hm _ _ He) as ([] & Hn & Hrole); try contradiction; eauto.
Qed.

(** Putting a node at a location that is new to the shape, or that held
    a node of the same role. *)
Lemma repr_insert h metrics S l n :
  collector_repr h metrics S ->
  (forall n0, S !! l = Some n0 -> same_role n0 n) ->
  node_ok S n ->
  collector_repr (<[l := realize n]> h) metrics (<[l := n]> S).
Proof.
  intros ([runs Hroot] & Hok & Hheap) Hrole Hn.
  assert (Hm : forall l0 n0, S !! l0 = Some n0 ->
                 exists n1, <[l := n]> S !! l0 = Some n1 /\ same_role n0 n1).
  { intros l0 n0 Hl0. destruct (decide (l = l0)) as [<-|Hne].
    - exists n. rewrite lookup_insert_eq. split; [reflexivity|auto].
    - exists n0. rewrite lookup_insert_ne by exact Hne.
      split; [exact Hl0|apply same_role_refl]. }
  split; [|split].
  - destruct (Hm _ _ Hroot) as ([] & Hn1 & Hr); try contradiction. eauto.
  - intros l0 n0 Hl0. destruct (decide (l = l0)) as [<-|Hne].
    + rewrite lookup_insert_eq in Hl0. injection Hl0 as <-.
      eapply node_ok_mono; eauto.
    + rewrite lookup_insert_ne in Hl0 by exact Hne.
      eapply node_ok_mono; eauto.
  - intros l0 n0 Hl0. destruct (decide (l = l0)) as [<-|Hne].
    + rewrite lookup_insert_eq in Hl0. injection Hl0 as <-.
      apply lookup_insert_eq.
    + rewrite lookup_insert_ne in Hl0 by exact Hne.
      rewrite lookup_insert_ne by exact Hne. auto.
Qed.

Lemma repr_fresh h metrics S :
  collector_repr h metrics S -> S !! fresh (dom h) = None.
Proof.
  intros (_ & _ & Hheap). destruct (S !! fresh (dom h)) as [n|] eqn:Hn;
    [|reflexivity].
  apply Hheap in Hn. rewrite fresh_loc_None in Hn. discriminate.
Qed.

Lemma payloads_insert S l n :
  payloads_scalar S -> entry_scalar n -> payloads_scalar (<[l := n]> S).
Proof.
  intros Hp Hn l0 n0 Hl0. destruct (decide (l = l0)) as [<-|Hne].
  - rewrite lookup_insert_eq in Hl0. injection Hl0 as <-.
    destruct n; simpl in *; auto.
  - rewrite lookup_insert_ne in Hl0 by exact Hne. apply (Hp _ _ Hl0).
Qed.

(** Creating the object of a node. *)
Lemma frames_refl S w : frames S w S w.
Proof. intros l x Hl Hx. split; assumption. Qed.

Lemma frames_trans S w S1 w1 S2 w2 :
  frames S w S1 w1 -> frames S1 w1 S2 w2 -> frames S w S2 w2.
Proof.
  intros H1 H2 l x Hl Hx. destruct (H1 l x Hl Hx) as [Hx1 Hl1].
  apply (H2 l x Hl1 Hx1).
Qed.

Lemma alloc_node metrics S w n :
  collector_repr (w_heap w) metrics S ->
  node_ok S n ->
  exists l w',
    alloc (realize n) w = (Ok l, w')
    /\ S !! l = None
    /\ collector_repr (w_heap w') metrics (<[l := n]> S)
    /\ frames S w (<[l := n]> S) w'.
Proof.
  intros Hrepr Hn. eexists. eexists. split; [apply alloc_eq|].
  pose proof (repr_fresh _ _ _ Hrepr) as Hf.
  split; [exact Hf|]. simpl. split.
  - apply repr_insert; auto.
    intros n0 Hn0. rewrite Hf in Hn0. discriminate.
  - intros l x Hl Hx. simpl.
    assert (Hne : fresh (dom (w_heap w)) <> l).
    { intros <-. rewrite fresh_loc_None in Hx. discriminate. }
    rewrite !lookup_insert_ne by exact Hne. split; assumption.
Qed.

(** Replacing the object of a node by one of the same role. *)
Lemma store_node metrics S w l n0 n :
  collector_repr (w_heap w) metrics S ->
  S !! l = Some n0 -> same_role n0 n -> node_ok S n ->
  exists w',
    store l (realize n) w = (Ok tt, w')
    /\ collector_repr (w_heap w') metrics (<[l := n]> S)
    /\ frames S w (<[l := n]> S) w'.
Proof.
  intros Hrepr Hl Hrole Hn. eexists. split; [reflexivity|].
  simpl. split.
  - apply repr_insert; auto.
    intros n1 Hn1. rewrite Hl in Hn1. injection Hn1 as <-. exact Hrole.
  - intros l0 x Hl0 Hx. simpl.
    assert (Hne : l <> l0) by (intros <-; congruence).
    rewrite !lookup_insert_ne by exact Hne. split; assumption.
Qed.

Lemma get_dict_node metrics S w l n d :
  collector_repr (w_heap w) metrics S ->
  S !! l = Some n -> realize n = ODict d -> get_dict l w = (Ok d, w).
Proof.
  intros (_ & _ & Hh) Hl Hr. unfold get_dict.
  rewrite (Hh _ _ Hl), Hr. reflexivity.
Qed.

Lemma get_list_node metrics S w l n xs :
  collector_repr (w_heap w) metrics S ->
  S !! l = Some n -> realize n = OList xs -> get_list l w = (Ok xs, w).
Proof.
  intros (_ & _ & Hh) Hl Hr. unfold get_list.
  rewrite (Hh _ _ Hl), Hr. reflexivity.
Qed.

Lemma insert_keeps (S : gmap loc node) l x l0 n :
  S !! l = None -> S !! l0 = Some n -> <[l := x]> S !! l0 = Some n.
Proof.
  intros Hl Hl0. rewrite lookup_insert_ne; [exact Hl0|]. congruence.
Qed.

Lemma ensure_run_repr metrics S w pid :
  collector_repr (w_heap w) metrics S ->
  exists w' S' runs run s m,
    ensure_run metrics pid w = (Ok tt, w')
    /\ collector_repr (w_heap w') metrics S'
    /\ S' !! metrics = Some (NRoot runs)
    /\ runs !! pid = Some run
    /\ S' !! run = Some (NRun s m)
    /\ (payloads_scalar S -> payloads_scalar S')
    /\ frames S w S' w'.
Proof.
  intros Hrepr. pose proof Hrepr as ([runs Hroot] & Hok & _).
  unfold ensure_run, bind.
  rewrite (get_dict_node _ _ _ _ _ _ Hrepr Hroot eq_refl).
  rewrite lookup_fmap.
  destruct (runs !! pid) as [run|] eqn:Hpid;
    [change (VRef <$> Some run) with (Some (VRef run))
    |change (VRef <$> @None loc) with (@None val)]; cbv beta iota.
  - destruct (Hok _ _ Hroot _ _ Hpid) as (s & m & Hrun).
    exists w, S, runs, run, s, m.
    split; [reflexivity|]. split; [exact Hrepr|]. split; [exact Hroot|].
    split; [exact Hpid|]. split; [exact Hrun|].
    split; [auto|apply frames_refl].
  - destruct (alloc_node metrics S w (NSteps ∅) Hrepr)
      as (s & w1 & E1 & Hs & R1 & F1).
    { intros k l Hk. rewrite lookup_empty in Hk. discriminate. }
    destruct (alloc_node metrics _ w1 (NMetrics ∅) R1)
      as (m & w2 & E2 & Hm & R2 & F2).
    { intros k l Hk. rewrite lookup_empty in Hk. discriminate. }
    destruct (alloc_node metrics _ w2 (NRun s m) R2)
      as (r & w3 & E3 & Hr & R3 & F3).
    { simpl. split.
      - exists ∅. apply insert_keeps; [exact Hm|apply lookup_insert_eq].
      - exists ∅. apply lookup_insert_eq. }
    simpl in E1, E2, E3. rewrite fmap_empty in E1, E2. rewrite E1, E2, E3.
    set (S3 := <[r := NRun s m]> (<[m := NMetrics ∅]> (<[s := NSteps ∅]> S)))
      in *.
    assert (Hroot3 : S3 !! metrics = Some (NRoot runs)).
    { subst S3. apply insert_keeps; [exact Hr|].
      apply insert_keeps; [exact Hm|]. apply insert_keeps; assumption. }
    assert (Hrun3 : S3 !! r = Some (NRun s m)) by apply lookup_insert_eq.
    destruct (store_node metrics S3 w3 metrics (NRoot runs)
                (NRoot (<[pid := r]> runs)) R3 Hroot3 I)
      as (w4 & E4 & R4 & F4).
    { simpl. intros pid' r' Hr'.
      destruct (decide (pid = pid')) as [<-|Hne].
      - rewrite lookup_insert_eq in Hr'. injection Hr' as <-. eauto.
      - rewrite lookup_insert_ne in Hr' by exact Hne.
        destruct R3 as (_ & Hok3 & _). apply (Hok3 _ _ Hroot3 _ _ Hr'). }
    unfold dict_setitem, bind.
    rewrite (get_dict_node _ _ _ _ _ _ R3 Hroot3 eq_refl).
    simpl in E4. rewrite fmap_insert in E4. rewrite E4.
    exists w4, (<[metrics := NRoot (<[pid := r]> runs)]> S3),
      (<[pid := r]> runs), r, s, m.
    split; [reflexivity|]. split; [exact R4|].
    split; [apply lookup_insert_eq|]. split; [apply lookup_insert_eq|].
    split.
    { rewrite lookup_insert_ne; [exact Hrun3|].
      intros <-. rewrite Hroot3 in Hrun3. discriminate. }
    split.
    + intros Hp. subst S3. repeat apply payloads_insert; simpl; auto.
    + eapply frames_trans; [|exact F4].
      eapply frames_trans; [|exact F3].
      eapply frames_trans; [exact F1|exact F2].
Qed.

Lemma ensure_list_repr metric metrics S w bucket ls key :
  collector_repr (w_heap w) metrics S ->
  S !! bucket = Some (bucket_node metric ls) ->
  exists w' S' ls' l es,
    ensure_list bucket key w = (Ok tt, w')
    /\ collector_repr (w_heap w') metrics S'
    /\ S' !! bucket = Some (bucket_node metric ls')
    /\ ls' !! key = Some l
    /\ S' !! l = Some (list_node metric es)
    /\ w_clock w' = w_clock w /\ w_tick w' = w_tick w
    /\ (payloads_scalar S -> payloads_scalar S')
    /\ frames S w S' w'.
Proof.
  intros Hrepr Hb. pose proof Hrepr as (_ & Hok & _).
  assert (Hreal : realize (bucket_node metric ls) = ODict (VRef <$> ls))
    by (destruct metric; reflexivity).
  unfold ensure_list, bind.
  rewrite (get_dict_node _ _ _ _ _ _ Hrepr Hb Hreal).
  rewrite lookup_fmap.
  destruct (ls !! key) as [l|] eqn:Hkey;
    [change (VRef <$> Some l) with (Some (VRef l))
    |change (VRef <$> @None loc) with (@None val)]; cbv beta iota.
  - assert (exists es, S !! l = Some (list_node metric es)) as [es Hl].
    { pose proof (Hok _ _ Hb) as Hn. destruct metric; simpl in Hn;
        destruct (Hn _ _ Hkey) as [es Hes]; exists es; exact Hes. }
    exists w, S, ls, l, es.
    split; [reflexivity|]. split; [exact Hrepr|]. split; [exact Hb|].
    split; [exact Hkey|]. split; [exact Hl|].
    split; [reflexivity|]. split; [reflexivity|].
    split; [auto|apply frames_refl].
  - destruct (alloc_node metrics S w (list_node metric []) Hrepr)
      as (l & w1 & E1 & Hl & R1 & F1).
    { destruct metric; simpl; constructor. }
    assert (Hreal0 : realize (list_node metric []) = OList [])
      by (destruct metric; reflexivity).
    rewrite Hreal0 in E1. rewrite E1.
    set (S1 := <[l := list_node metric []]> S) in *.
    assert (Hb1 : S1 !! bucket = Some (bucket_node metric ls))
      by (apply insert_keeps; assumption).
    assert (Hl1 : S1 !! l = Some (list_node metric []))
      by apply lookup_insert_eq.
    destruct (store_node metrics S1 w1 bucket (bucket_node metric ls)
                (bucket_node metric (<[key := l]> ls)) R1 Hb1)
      as (w2 & E2 & R2 & F2).
    { destruct metric; exact I. }
    { destruct R1 as (_ & Hok1 & _). pose proof (Hok1 _ _ Hb1) as Hn.
      destruct metric; simpl in *; intros k l0 Hk;
        (destruct (decide (key = k)) as [<-|Hne];
         [rewrite lookup_insert_eq in Hk; injection Hk as <-; eauto
         |rewrite lookup_insert_ne in Hk by exact Hne; eauto]). }
    unfold dict_setitem, bind.
    rewrite (get_dict_node _ _ _ _ _ _ R1 Hb1 Hreal).
    assert (Hreal2 : realize (bucket_node metric (<[key := l]> ls))
                     = ODict (<[key := VRef l]> (VRef <$> ls)))
      by (destruct metric; simpl; rewrite fmap_insert; reflexivity).
    rewrite Hreal2 in E2. rewrite E2.
    exists w2, (<[bucket := bucket_node metric (<[key := l]> ls)]> S1),
      (<[key := l]> ls), l, [].
    split; [reflexivity|]. split; [exact R2|].
    split; [apply lookup_insert_eq|]. split; [apply lookup_insert_eq|].
    split.
    { rewrite lookup_insert_ne; [exact Hl1|].
      intros <-. rewrite Hb1 in Hl1. destruct metric; discriminate. }
    assert (Hw1 : w_clock w1 = w_clock w /\ w_tick w1 = w_tick w)
      by (unfold alloc in E1; injection E1 as _ <-; split; reflexivity).
    assert (Hw2 : w_clock w2 = w_clock w1 /\ w_tick w2 = w_tick w1)
      by (unfold store in E2; injection E2 as <-; split; reflexivity).
    destruct Hw1 as [Hc1 Ht1], Hw2 as [Hc2 Ht2].
    split; [congruence|]. split; [congruence|].
    split.
    + intros Hp. subst S1. repeat apply payloads_insert; auto;
        destruct metric; simpl; auto.
    + eapply frames_trans; [exact F1|exact F2].
Qed.

Lemma append_entry_repr metric metrics S w bucket ls key l es n entry :
  collector_repr (w_heap w) metrics S ->
  S !! bucket = Some (bucket_node metric ls) ->
  ls !! key = Some l ->
  S !! l = Some (list_node metric es) ->
  entry_of metric n -> realize n = ODict entry ->
  exists w' S',
    append_entry bucket key entry w = (Ok tt, w')
    /\ collector_repr (w_heap w') metrics S'
    /\ (payloads_scalar S -> entry_scalar n -> payloads_scalar S')
    /\ frames S w S' w'.
Proof.
  intros Hrepr Hb Hkey Hl Hkind Hentry.
  assert (Hreal : realize (bucket_node metric ls) = ODict (VRef <$> ls))
    by (destruct metric; reflexivity).
  assert (Hreall : realize (list_node metric es) = OList (VRef <$> es))
    by (destruct metric; reflexivity).
  unfold append_entry, subscript, bind.
  rewrite (get_dict_node _ _ _ _ _ _ Hrepr Hb Hreal).
  unfold dict_getitem. rewrite lookup_fmap, Hkey.
  change (VRef <$> Some l) with (Some (VRef l)). cbv beta iota.
  unfold ret at 1. unfold as_ref, ret at 1. cbv beta iota.
  destruct (alloc_node metrics S w n Hrepr) as (e & w1 & E1 & He & R1 & F1).
  { destruct n; simpl in *; auto; contradiction. }
  rewrite Hentry in E1. rewrite E1.
  set (S1 := <[e := n]> S) in *.
  assert (Hl1 : S1 !! l = Some (list_node metric es))
    by (apply insert_keeps; assumption).
  assert (He1 : S1 !! e = Some n) by apply lookup_insert_eq.
  destruct (store_node metrics S1 w1 l (list_node metric es)
              (list_node metric (es ++ [e])) R1 Hl1)
    as (w2 & E2 & R2 & F2).
  { destruct metric; exact I. }
  { destruct R1 as (_ & Hok1 & _). pose proof (Hok1 _ _ Hl1) as Hn.
    destruct metric; simpl in *; (apply Forall_app; split; [exact Hn|]);
      constructor; try constructor;
      destruct n; simpl in Hkind; try contradiction; try discriminate; eauto. }
  unfold list_append, bind.
  rewrite (get_list_node _ _ _ _ _ _ R1 Hl1 Hreall).
  assert (Hreal2 : realize (list_node metric (es ++ [e]))
                   = OList ((VRef <$> es) ++ [VRef e]))
    by (destruct metric; simpl; rewrite fmap_app; reflexivity).
  rewrite Hreal2 in E2. rewrite E2.
  exists w2, (<[l := list_node metric (es ++ [e])]> S1).
  split; [reflexivity|]. split; [exact R2|].
  split.
  - intros Hp Hs. subst S1. repeat apply payloads_insert; auto.
    destruct metric; simpl; auto.
  - eapply frames_trans; [exact F1|exact F2].
Qed.

Lemma scalar_dict_get (ev : gmap string val) k dflt :
  (forall k v, ev !! k = Some v -> scalar v) -> scalar dflt ->
  scalar (dict_get ev k dflt).
Proof.
  intros Hev Hd. unfold dict_get. destruct (ev !! k) as [v|] eqn:Hk; simpl.
  - apply (Hev _ _ Hk).
  - exact Hd.
Qed.

(** Whatever event it is handed, and whether it returns or raises,
    [MetricsCollector.handle_event] leaves the collector's state
    well-formed; scalar fields of the event are recorded as scalars; and
    it writes to no existing object outside that state, the event it is
    handed among them. *)
Theorem handle_event_keeps_shape metrics S w event :
  collector_repr (w_heap w) metrics S ->
  exists r w' S',
    MetricsCollector_handle_event metrics event w = (r, w')
    /\ collector_repr (w_heap w') metrics S'
    /\ (payloads_scalar S ->
        (forall ev, w_heap w !! event = Some (ODict ev) ->
                    forall k v, ev !! k = Some v -> scalar v) ->
        payloads_scalar S')
    /\ frames S w S' w'.
Proof.
  intros Hrepr. unfold MetricsCollector_handle_event. unfold bind at 1.
  unfold get_dict at 1.
  destruct (w_heap w !! event) as [[ev|xs|xs|cls attrs|c]|] eqn:Hev;
    try (eexists; exists w, S; split; [reflexivity|];
         split; [exact Hrepr|]; split; [auto|apply frames_refl]).
  assert (Hscal : forall (P : Prop),
             ((forall k v, ev !! k = Some v -> scalar v) -> P) ->
             (forall ev0, Some (ODict ev) = Some (ODict ev0) ->
                          forall k v, ev0 !! k = Some v -> scalar v) -> P).
  { intros P HP H. apply HP, H. reflexivity. }
  unfold bind at 1.
  destruct (dict_get ev "pipeline_id" (VStr "unknown")) as [| | | |pid|];
    try (eexists; exists w, S; split; [reflexivity|];
         split; [exact Hrepr|]; split; [auto|apply frames_refl]).
  simpl as_key. unfold ret at 1. unfold bind at 1.
  destruct (ensure_run_repr metrics S w pid Hrepr)
    as (w1 & S1 & runs & run & s & m & E1 & R1 & Hroot & Hpid & Hrun & P1 & F1).
  rewrite E1.
  destruct (subscript2_run _ metrics S1 R1 w1 eq_refl runs pid run s m
              Hroot Hpid Hrun) as [Esteps Emets].
  destruct R1 as (Hr1 & Hok1 & Hh1).
  destruct (Hok1 _ _ Hrun) as ([ls Hs] & [lm Hm]).
  assert (R1 : collector_repr (w_heap w1) metrics S1) by (split; auto).
  destruct (val_eq_str (dict_get ev "event_type" (VStr "unknown")) "metric").
  - unfold bind at 1.
    destruct (dict_get ev "metric_name" (VStr "unknown")) as [| | | |name|];
      try (eexists; exists w1, S1; split; [reflexivity|];
           split; [exact R1|]; split; [auto|exact F1]).
    simpl as_key. unfold ret at 1. unfold bind at 1. rewrite Emets.
    unfold bind at 1.
    destruct (ensure_list_repr true metrics S1 w1 m lm name R1 Hm)
      as (w2 & S2 & ls2 & l & es & E2 & R2 & Hb2 & Hk2 & Hl2 & _ & _ & P2 & F2).
    rewrite E2. unfold bind at 1. unfold time_time at 1.
    destruct (append_entry_repr true metrics S2 (ticked w2) m ls2 name l es
                (NMetricEntry (dict_get ev "metric_value" (VInt 0))
                              (dict_get ev "step" (VStr "unknown"))
                              (dict_get ev "timestamp" (VFloat (now w2))))
                _ R2 Hb2 Hk2 Hl2 eq_refl eq_refl)
      as (w3 & S3 & E3 & R3 & P3 & F3).
    unfold ticked, now in E3. rewrite E3.
    eexists. exists w3, S3. split; [reflexivity|]. split; [exact R3|].
    split.
    + intros Hp. apply Hscal. intros Hs0. apply P3; [auto|]. simpl.
      repeat split; apply scalar_dict_get; simpl; auto.
    + eapply frames_trans; [exact F1|].
      eapply frames_trans; [exact F2|exact F3].
  - destruct (val_eq_str (dict_get ev "event_type" (VStr "unknown"))
                         "step_end");
      [|eexists; exists w1, S1; split; [reflexivity|];
        split; [exact R1|]; split; [auto|exact F1]].
    unfold bind at 1.
    destruct (dict_get ev "step" (VStr "unknown")) as [| | | |stepk|];
      try (eexists; exists w1, S1; split; [reflexivity|];
           split; [exact R1|]; split; [auto|exact F1]).
    simpl as_key. unfold ret at 1. unfold bind at 1. rewrite Esteps.
    unfold bind at 1.
    destruct (ensure_list_repr false metrics S1 w1 s ls stepk R1 Hs)
      as (w2 & S2 & ls2 & l & es & E2 & R2 & Hb2 & Hk2 & Hl2 & _ & _ & P2 & F2).
    rewrite E2. unfold bind at 1. unfold time_time at 1.
    destruct (append_entry_repr false metrics S2 (ticked w2) s ls2 stepk l es
                (NStepEntry (dict_get ev "duration" (VInt 0))
                            (dict_get ev "timestamp" (VFloat (now w2))))
                _ R2 Hb2 Hk2 Hl2 eq_refl eq_refl)
      as (w3 & S3 & E3 & R3 & P3 & F3).
    unfold ticked, now in E3. rewrite E3.
    eexists. exists w3, S3. split; [reflexivity|]. split; [exact R3|].
    split.
    + intros Hp. apply Hscal. intros Hs0. apply P3; [auto|]. simpl.
      repeat split; apply scalar_dict_get; simpl; auto.
    + eapply frames_trans; [exact F1|].
      eapply frames_trans; [exact F2|exact F3].
Qed.

(** The collector's handler does not write to the event it is handed
    (an object of its own state apart). *)
Corollary handle_event_preserves_event metrics S w event x :
  collector_repr (w_heap w) metrics S ->
  S !! event = None ->
  w_heap w !! event = Some x ->
  w_heap (MetricsCollector_handle_event metrics event w).2 !! event = Some x.
Proof.
  intros Hrepr Hnone Hx.
  destruct (handle_event_keeps_shape metrics S w event Hrepr)
    as (r & w' & S' & E & _ & _ & F).
  rewrite E. simpl. apply (F event x Hnone Hx).
Qed.

(** A new collector's state is well-formed and holds nothing. *)
Lemma MetricsCollector_init_repr arg w :
  exists metrics sub w',
    MetricsCollector_init arg w = (Ok (metrics, sub), w')
    /\ handle_event sub = MetricsCollector_handle_event metrics
    /\ class_name sub = "MetricsCollector"
    /\ collector_repr (w_heap w') metrics {[metrics := NRoot ∅]}
    /\ payloads_scalar {[metrics := NRoot ∅]}.
Proof.
  eexists. eexists. eexists. split; [reflexivity|].
  split; [reflexivity|]. split; [reflexivity|]. split.
  - split; [|split].
    + exists ∅. apply lookup_singleton_eq.
    + intros l n Hl. apply lookup_singleton_Some in Hl as [_ <-].
      intros pid r Hr. rewrite lookup_empty in Hr. discriminate.
    + intros l n Hl. apply lookup_singleton_Some in Hl as [<- <-].
      simpl. rewrite fmap_empty. apply lookup_insert_eq.
  - intros l n Hl. apply lookup_singleton_Some in Hl as [_ <-]. exact I.
Qed.

(** ** A collector at work *)

Lemma collector_world_repr :
  collector_repr (w_heap collector_world) 1%positive collector_shape
  /\ payloads_scalar collector_shape.
Proof.
  split; [split; [|split]|].
  - eexists. reflexivity.
  - apply map_Forall_lookup. unfold collector_shape.
    repeat (apply map_Forall_insert_2; [|]); try apply map_Forall_empty;
      simpl;
      repeat match goal with
             | |- _ /\ _ => split
             | |- Forall _ _ => constructor
             | |- exists _, _ => eexists
             end; try reflexivity; exact I.
  - apply map_Forall_lookup. unfold collector_shape.
    repeat (apply map_Forall_insert_2; [vm_compute; reflexivity|]).
    apply map_Forall_empty.
  - apply map_Forall_lookup. unfold collector_shape.
    repeat (apply map_Forall_insert_2; [simpl; auto|]).
    apply map_Forall_empty.
Qed.

Lemma get_average_duration_mean_witness :
  exists q,
    get_average_duration 1%positive "p1" "load" collector_world
    = (Ok (VFloat q), collector_world)
    /\ (q == 3)%Q.
Proof.
  destruct collector_world_repr as [Hrepr _].
  destruct (get_average_duration_mean _ 1%positive collector_shape
              collector_world "p1" "load" Hrepr eq_refl) as (_ & _ & Hmean).
  destruct (Hmean (VFloat (2 # 1)) [VFloat (4 # 1)]
                  [NFloat (2 # 1); NFloat (4 # 1)] eq_refl) as (q & Eq & Hq).
  { repeat constructor. }
  exists q. split; [exact Eq|]. rewrite Hq. reflexivity.
Defined.

Lemma export_metrics_independent_copy_witness :
  exists r w',
    export_metrics 1%positive collector_world = (Ok r, w')
    /\ forall l, reachable (w_heap w') r l ->
                 w_heap collector_world !! l = None.
Proof.
  destruct collector_world_repr as [Hrepr Hscalar].
  destruct (export_metrics_independent_copy _ 1%positive collector_shape
              collector_world Hrepr Hscalar eq_refl)
    as (text & r & w' & Eq & _ & _ & _ & _ & Hnew & _).
  exists r, w'. split; [exact Eq|exact Hnew].
Defined.

Lemma list_at_path h metrics S metric pid key l :
  collector_repr h metrics S ->
  list_at metric S metrics pid key = Some l
  <-> exists runs r s m ls,
        S !! metrics = Some (NRoot runs) /\ runs !! pid = Some r
        /\ S !! r = Some (NRun s m)
        /\ S !! (if metric then m else s) = Some (bucket_node metric ls)
        /\ ls !! key = Some l.
Proof.
  intros (_ & Hok & _). unfold list_at, run_of. split.
  - destruct (S !! metrics) as [[runs| | | | | | |]|] eqn:Hroot; try discriminate.
    destruct (runs !! pid) as [r|] eqn:Hpid; try discriminate.
    destruct (S !! r) as [[|s m| | | | | |]|] eqn:Hr; try discriminate.
    destruct (Hok _ _ Hr) as ([ls Hs] & [lm Hm]).
    destruct metric; [rewrite Hm|rewrite Hs]; intros Hl;
      eexists _, _, _, _, _; repeat split; eauto.
  - intros (runs & r & s & m & ls & -> & -> & -> & Hb & Hl).
    rewrite Hb. destruct metric; exact Hl.
Qed.

Lemma recorded_values_eq h metrics S pid name :
  collector_repr h metrics S ->
  recorded_values S metrics pid name
  = default [] (recorded true S metrics pid name).
Proof.
  intros (_ & Hok & _). unfold recorded, recorded_values, list_at.
  destruct (run_of S metrics pid) as [[s m]|] eqn:Hrun; [|reflexivity].
  unfold run_of in Hrun.
  destruct (S !! metrics) as [[runs| | | | | | |]|]; try discriminate.
  destruct (runs !! pid) as [r|]; try discriminate.
  destruct (S !! r) as [[|s' m'| | | | | |]|] eqn:Hr; try discriminate.
  injection Hrun as -> ->.
  destruct (Hok _ _ Hr) as (_ & [lm Hm]). rewrite Hm.
  destruct (lm !! name); reflexivity.
Qed.

Lemma recorded_durations_eq h metrics S pid step :
  collector_repr h metrics S ->
  recorded_durations S metrics pid !! step
  = recorded false S metrics pid step.
Proof.
  intros (_ & Hok & _). unfold recorded, recorded_durations, list_at.
  destruct (run_of S metrics pid) as [[s m]|] eqn:Hrun;
    [|apply lookup_empty].
  unfold run_of in Hrun.
  destruct (S !! metrics) as [[runs| | | | | | |]|]; try discriminate.
  destruct (runs !! pid) as [r|]; try discriminate.
  destruct (S !! r) as [[|s' m'| | | | | |]|] eqn:Hr; try discriminate.
  injection Hrun as -> ->.
  destruct (Hok _ _ Hr) as ([ls Hs] & _). rewrite Hs.
  rewrite lookup_fmap. reflexivity.
Qed.

(** Two paths to one list are one path. *)
Lemma list_at_inj h metrics S b pid key b' pid' key' l :
  collector_repr h metrics S -> unshared S ->
  list_at b S metrics pid key = Some l ->
  list_at b' S metrics pid' key' = Some l ->
  b = b' /\ pid = pid' /\ key = key'.
Proof.
  intros Hrepr Hun H1 H2.
  apply (list_at_path _ _ _ _ _ _ _ Hrepr) in H1
    as (runs & r & s & m & ls & Hroot & Hpid & Hr & Hb & Hl).
  apply (list_at_path _ _ _ _ _ _ _ Hrepr) in H2
    as (runs' & r' & s' & m' & ls' & Hroot' & Hpid' & Hr' & Hb' & Hl').
  rewrite Hroot in Hroot'. injection Hroot' as <-.
  assert (Hc : child_at (bucket_node b ls) key l)
    by (destruct b; exact Hl).
  assert (Hc' : child_at (bucket_node b' ls') key' l)
    by (destruct b'; exact Hl').
  destruct (Hun _ _ _ _ _ _ _ Hb Hb' Hc Hc') as [Hbb ->].
  assert (Hbk : b = b').
  { destruct b, b'; try reflexivity; rewrite Hbb in Hb; rewrite Hb in Hb';
      discriminate. }
  subst b'. split; [reflexivity|]. split; [|reflexivity].
  assert (Hrr : r = r').
  { destruct b.
    - refine (proj1 (Hun _ _ "metrics" _ _ "metrics" m Hr Hr' _ _)).
      + right. auto.
      + right. auto.
    - refine (proj1 (Hun _ _ "steps" _ _ "steps" s Hr Hr' _ _)).
      + left. auto.
      + left. auto. }
  subst r'.
  apply (Hun _ _ pid _ _ pid' r Hroot Hroot); assumption.
Qed.

Lemma child_dom h metrics S l n k c :
  collector_repr h metrics S -> S !! l = Some n -> child_at n k c ->
  is_Some (S !! c).
Proof.
  intros (_ & Hok & _) Hl Hc. pose proof (Hok _ _ Hl) as Hn.
  destruct n as [runs|s m|ls|ls|es|es|d t|v st t]; simpl in *;
    try contradiction.
  - destruct (Hn _ _ Hc) as (s & m & ->). eauto.
  - destruct Hn as ([ls Hs] & [lm Hm]).
    destruct Hc as [[_ ->]|[_ ->]]; eauto.
  - destruct (Hn _ _ Hc) as (es & ->). eauto.
  - destruct (Hn _ _ Hc) as (es & ->). eauto.
Qed.

Lemma unshared_insert S x n :
  unshared S ->
  (forall k1 k2 c, child_at n k1 c -> child_at n k2 c -> k1 = k2) ->
  (forall k c l2 n2 k2, child_at n k c -> l2 <> x -> S !! l2 = Some n2 ->
                        ~ child_at n2 k2 c) ->
  unshared (<[x := n]> S).
Proof.
  intros Hun Hself Hother l1 n1 k1 l2 n2 k2 c H1 H2 C1 C2.
  destruct (decide (l1 = x)) as [->|N1], (decide (l2 = x)) as [->|N2].
  - rewrite lookup_insert_eq in H1, H2. injection H1 as <-. injection H2 as <-.
    split; [reflexivity|eauto].
  - rewrite lookup_insert_eq in H1. injection H1 as <-.
    rewrite lookup_insert_ne in H2 by congruence.
    destruct (Hother _ _ _ _ _ C1 N2 H2 C2).
  - rewrite lookup_insert_eq in H2. injection H2 as <-.
    rewrite lookup_insert_ne in H1 by congruence.
    destruct (Hother _ _ _ _ _ C2 N1 H1 C1).
  - rewrite lookup_insert_ne in H1, H2 by congruence. eauto.
Qed.

(** A node without children can be put anywhere. *)
Lemma unshared_insert_leaf S x n :
  unshared S -> (forall k c, ~ child_at n k c) -> unshared (<[x := n]> S).
Proof.
  intros Hun Hleaf. apply unshared_insert; [exact Hun| |].
  - intros k1 k2 c C1. destruct (Hleaf _ _ C1).
  - intros k c l2 n2 k2 C1. destruct (Hleaf _ _ C1).
Qed.

(** The paths to the lists stay when the dictionaries above the lists
    stay. *)
Lemma list_at_kept h metrics S S' b pid key :
  collector_repr h metrics S ->
  (forall l n, S !! l = Some n -> 3 <= rank n -> S' !! l = Some n) ->
  list_at b S' metrics pid key = list_at b S metrics pid key.
Proof.
  intros ([runs Hroot] & Hok & _) Hkeep. unfold list_at, run_of.
  rewrite Hroot, (Hkeep _ _ Hroot) by (simpl; lia).
  destruct (runs !! pid) as [r|] eqn:Hpid; [|reflexivity].
  destruct (Hok _ _ Hroot _ _ Hpid) as (s & m & Hr).
  rewrite Hr, (Hkeep _ _ Hr) by (simpl; lia).
  destruct (Hok _ _ Hr) as ([ls Hs] & [lm Hm]).
  destruct b.
  - rewrite Hm, (Hkeep _ _ Hm) by (simpl; lia). reflexivity.
  - rewrite Hs, (Hkeep _ _ Hs) by (simpl; lia). reflexivity.
Qed.

(** What a list holds stays when the list and the entries stay. *)
Lemma entries_kept S S' b es :
  node_ok S (list_node b es) ->
  (forall e n0, S !! e = Some n0 -> rank n0 <= 1 -> S' !! e = Some n0) ->
  (if b then value_of S' <$> es else duration_of S' <$> es)
  = (if b then value_of S <$> es else duration_of S <$> es).
Proof.
  intros Hn Hkeep. destruct b; simpl in Hn; apply Forall_fmap_ext_1;
    (eapply Forall_impl; [exact Hn|]); simpl.
  - intros e (v & st & t & He). unfold value_of.
    rewrite He, (Hkeep _ _ He) by (simpl; lia). reflexivity.
  - intros e (d & t & He). unfold duration_of.
    rewrite He, (Hkeep _ _ He) by (simpl; lia). reflexivity.
Qed.

Lemma items_at_kept h metrics S S' b l n :
  collector_repr h metrics S ->
  S !! l = Some n -> S' !! l = Some n ->
  (forall e n0, S !! e = Some n0 -> rank n0 <= 1 -> S' !! e = Some n0) ->
  items_at b S' l = items_at b S l.
Proof.
  intros (_ & Hok & _) Hl Hl' Hkeep. pose proof (Hok _ _ Hl) as Hn.
  unfold items_at, values_at, durations_at. rewrite Hl, Hl'.
  destruct n as [runs|s m|ls|ls|es|es|d t|v st t]; destruct b;
    try reflexivity.
  - apply (entries_kept S S' false es Hn Hkeep).
  - apply (entries_kept S S' true es Hn Hkeep).
Qed.

(** What is recorded under a key stays when its list and the nodes on
    the way stay. *)
Lemma recorded_kept h metrics S S' b pid key :
  collector_repr h metrics S ->
  (forall l n, S !! l = Some n -> 3 <= rank n -> S' !! l = Some n) ->
  (forall l n, S !! l = Some n -> rank n <= 1 -> S' !! l = Some n) ->
  (forall l, list_at b S metrics pid key = Some l -> S' !! l = S !! l) ->
  recorded b S' metrics pid key = recorded b S metrics pid key.
Proof.
  intros Hrepr Hup Hlow Hlist. unfold recorded.
  rewrite (list_at_kept _ _ _ _ _ _ _ Hrepr Hup).
  destruct (list_at b S metrics pid key) as [l|] eqn:Hl; [|reflexivity].
  simpl. f_equal.
  pose proof Hl as Hp.
  apply (list_at_path _ _ _ _ _ _ _ Hrepr) in Hp
    as (runs & r & s & m & ls & Hroot & Hpid & Hr & Hb & Hk).
  assert (is_Some (S !! l)) as [n Hn].
  { eapply (child_dom _ _ _ _ _ key l Hrepr Hb). destruct b; exact Hk. }
  apply (items_at_kept _ _ _ _ _ _ n Hrepr Hn); [|exact Hlow].
  rewrite (Hlist _ eq_refl). exact Hn.
Qed.

(** Adding a run that holds nothing changes nothing that is recorded. *)
Lemma recorded_new_run h metrics S runs pid r s m b pid' key :
  collector_repr h metrics S ->
  S !! metrics = Some (NRoot runs) -> runs !! pid = None ->
  S !! r = Some (NRun s m) ->
  S !! s = Some (NSteps ∅) -> S !! m = Some (NMetrics ∅) ->
  recorded b (<[metrics := NRoot (<[pid := r]> runs)]> S) metrics pid' key
  = recorded b S metrics pid' key.
Proof.
  intros Hrepr Hroot Hpid Hr Hs Hm. pose proof Hrepr as (_ & Hok & _).
  assert (Hne : forall l n, S !! l = Some n -> rank n <= 4 ->
                  <[metrics := NRoot (<[pid := r]> runs)]> S !! l = Some n).
  { intros l n Hl Hrk. rewrite lookup_insert_ne; [exact Hl|].
    intros <-. rewrite Hroot in Hl. injection Hl as <-. simpl in Hrk. lia. }
  unfold recorded, list_at, run_of. rewrite lookup_insert_eq, Hroot.
  destruct (decide (pid = pid')) as [<-|Hpp].
  - rewrite lookup_insert_eq, Hpid, (Hne _ _ Hr) by (simpl; lia).
    destruct b.
    + rewrite (Hne _ _ Hm) by (simpl; lia). rewrite lookup_empty. reflexivity.
    + rewrite (Hne _ _ Hs) by (simpl; lia). rewrite lookup_empty. reflexivity.
  - rewrite lookup_insert_ne by exact Hpp.
    destruct (runs !! pid') as [r'|] eqn:Hpid'; [|reflexivity].
    destruct (Hok _ _ Hroot _ _ Hpid') as (s' & m' & Hr').
    rewrite Hr', (Hne _ _ Hr') by (simpl; lia).
    destruct (Hok _ _ Hr') as ([ls Hs'] & [lm Hm']).
    assert (Hitems : forall (bk : loc) (lk : gmap string loc) nb,
               S !! bk = Some nb -> node_ok S nb ->
               (nb = NSteps lk \/ nb = NMetrics lk) ->
               items_at b (<[metrics := NRoot (<[pid := r]> runs)]> S)
                 <$> lk !! key
               = items_at b S <$> lk !! key).
    { intros bk lk nb Hbk Hnb Hcase.
      destruct (lk !! key) as [l|] eqn:Hk; [|reflexivity]. simpl. f_equal.
      assert (exists n, S !! l = Some n /\ rank n <= 2) as (n & Hl & Hrk).
      { destruct Hcase as [-> | ->]; simpl in Hnb;
          destruct (Hnb _ _ Hk) as [es Hes]; eexists; (split; [exact Hes|]);
          simpl; lia. }
      apply (items_at_kept _ _ _ _ _ _ n Hrepr Hl).
      - apply Hne; [exact Hl|lia].
      - intros e n0 He Hrk0. apply Hne; [exact He|lia]. }
    destruct b.
    + rewrite Hm', (Hne _ _ Hm') by (simpl; lia).
      apply (Hitems m' lm _ Hm' (Hok _ _ Hm')). auto.
    + rewrite Hs', (Hne _ _ Hs') by (simpl; lia).
      apply (Hitems s' ls _ Hs' (Hok _ _ Hs')). auto.
Qed.

Lemma ensure_run_effect metrics S w pid :
  collector_repr (w_heap w) metrics S -> unshared S ->
  exists w' S' runs run s m,
    ensure_run metrics pid w = (Ok tt, w')
    /\ collector_repr (w_heap w') metrics S'
    /\ unshared S'
    /\ S' !! metrics = Some (NRoot runs)
    /\ runs !! pid = Some run
    /\ S' !! run = Some (NRun s m)
    /\ (forall b pid' key,
          recorded b S' metrics pid' key = recorded b S metrics pid' key)
    /\ (payloads_scalar S -> payloads_scalar S')
    /\ frames S w S' w'.
Proof.
  intros Hrepr Hun. pose proof Hrepr as ([runs Hroot] & Hok & _).
  unfold ensure_run, bind.
  rewrite (get_dict_node _ _ _ _ _ _ Hrepr Hroot eq_refl).
  rewrite lookup_fmap.
  destruct (runs !! pid) as [run|] eqn:Hpid;
    [change (VRef <$> Some run) with (Some (VRef run))
    |change (VRef <$> @None loc) with (@None val)]; cbv beta iota.
  - destruct (Hok _ _ Hroot _ _ Hpid) as (s & m & Hrun).
    exists w, S, runs, run, s, m.
    split; [reflexivity|]. split; [exact Hrepr|]. split; [exact Hun|].
    split; [exact Hroot|].
    split; [exact Hpid|]. split; [exact Hrun|].
    split; [reflexivity|].
    split; [auto|apply frames_refl].
  - destruct (alloc_node metrics S w (NSteps ∅) Hrepr)
      as (s & w1 & E1 & Hs & R1 & F1).
    { intros k l Hk. rewrite lookup_empty in Hk. discriminate. }
    destruct (alloc_node metrics _ w1 (NMetrics ∅) R1)
      as (m & w2 & E2 & Hm & R2 & F2).
    { intros k l Hk. rewrite lookup_empty in Hk. discriminate. }
    destruct (alloc_node metrics _ w2 (NRun s m) R2)
      as (r & w3 & E3 & Hr & R3 & F3).
    { simpl. split.
      - exists ∅. apply insert_keeps; [exact Hm|apply lookup_insert_eq].
      - exists ∅. apply lookup_insert_eq. }
    simpl in E1, E2, E3. rewrite fmap_empty in E1, E2. rewrite E1, E2, E3.
    set (S1 := <[s := NSteps ∅]> S) in *.
    set (S2 := <[m := NMetrics ∅]> S1) in *.
    set (S3 := <[r := NRun s m]> S2) in *.
    assert (Hold3 : forall l n, S !! l = Some n -> S3 !! l = Some n).
    { intros l n Hl. subst S3 S2 S1. apply insert_keeps; [exact Hr|].
      apply insert_keeps; [exact Hm|]. apply insert_keeps; assumption. }
    assert (Hroot3 : S3 !! metrics = Some (NRoot runs)) by auto.
    assert (Hrun3 : S3 !! r = Some (NRun s m)) by apply lookup_insert_eq.
    assert (Hm3 : S3 !! m = Some (NMetrics ∅)).
    { subst S3. apply insert_keeps; [exact Hr|]. apply lookup_insert_eq. }
    assert (Hs3 : S3 !! s = Some (NSteps ∅)).
    { subst S3 S2. apply insert_keeps; [exact Hr|].
      apply insert_keeps; [exact Hm|]. apply lookup_insert_eq. }
    destruct (store_node metrics S3 w3 metrics (NRoot runs)
                (NRoot (<[pid := r]> runs)) R3 Hroot3 I)
      as (w4 & E4 & R4 & F4).
    { simpl. intros pid' r' Hr'.
      destruct (decide (pid = pid')) as [<-|Hne].
      - rewrite lookup_insert_eq in Hr'. injection Hr' as <-. eauto.
      - rewrite lookup_insert_ne in Hr' by exact Hne.
        destruct R3 as (_ & Hok3 & _). apply (Hok3 _ _ Hroot3 _ _ Hr'). }
    unfold dict_setitem, bind.
    rewrite (get_dict_node _ _ _ _ _ _ R3 Hroot3 eq_refl).
    simpl in E4. rewrite fmap_insert in E4. rewrite E4.
    exists w4, (<[metrics := NRoot (<[pid := r]> runs)]> S3),
      (<[pid := r]> runs), r, s, m.
    split; [reflexivity|]. split; [exact R4|].
    (* the new objects are referenced by nothing old *)
    assert (Hfresh : forall l n k c, S !! l = Some n -> child_at n k c ->
                                     c <> s /\ c <> m /\ c <> r).
    { intros l n k c Hl Hc.
      destruct (child_dom _ _ _ _ _ _ _ Hrepr Hl Hc) as [nc Hnc].
      repeat split; intros ->.
      - rewrite Hs in Hnc. discriminate.
      - subst S1. rewrite lookup_insert_ne in Hm; [congruence|].
        intros <-. rewrite lookup_insert_eq in Hm. discriminate.
      - pose proof (Hold3 _ _ Hnc) as H3. subst S3.
        rewrite lookup_insert_eq in H3.
        subst S2 S1.
        rewrite lookup_insert_ne in Hr; [|intros <-;
          rewrite lookup_insert_eq in Hr; discriminate].
        rewrite lookup_insert_ne in Hr; [congruence|].
        intros <-. rewrite lookup_insert_eq in Hr. discriminate. }
    assert (Hsm : s <> m).
    { intros <-. subst S1. rewrite lookup_insert_eq in Hm. discriminate. }
    assert (Hrs : r <> s /\ r <> m).
    { split; intros <-; congruence. }
    assert (Hcases3 : forall l n, S3 !! l = Some n ->
               (l = r /\ n = NRun s m) \/ (l = m /\ n = NMetrics ∅)
               \/ (l = s /\ n = NSteps ∅) \/ S !! l = Some n).
    { intros l n Hl. subst S3 S2 S1.
      destruct (decide (l = r)) as [->|?];
        [rewrite lookup_insert_eq in Hl; injection Hl as <-; auto
        |rewrite lookup_insert_ne in Hl by congruence].
      destruct (decide (l = m)) as [->|?];
        [rewrite lookup_insert_eq in Hl; injection Hl as <-; auto
        |rewrite lookup_insert_ne in Hl by congruence].
      destruct (decide (l = s)) as [->|?];
        [rewrite lookup_insert_eq in Hl; injection Hl as <-; auto
        |rewrite lookup_insert_ne in Hl by congruence].
      auto. }
    split.
    { assert (Hun1 : unshared S1).
      { apply unshared_insert_leaf; [exact Hun|].
        intros k c Hc. simpl in Hc. rewrite lookup_empty in Hc. discriminate. }
      assert (Hun2 : unshared S2).
      { apply unshared_insert_leaf; [exact Hun1|].
        intros k c Hc. simpl in Hc. rewrite lookup_empty in Hc. discriminate. }
      assert (Hun3 : unshared S3).
      { apply unshared_insert; [exact Hun2| |].
        - intros k1 k2 c [[-> ->]|[-> ->]] [[-> Hc]|[-> Hc]];
            congruence.
        - intros k c l2 n2 k2 Hc Hne Hl2 Hc2.
          assert (Hl3 : S3 !! l2 = Some n2)
            by (subst S3; rewrite lookup_insert_ne by congruence; exact Hl2).
          destruct (Hcases3 _ _ Hl3) as [[-> _]|[[_ ->]|[[_ ->]|Hold]]].
          + congruence.
          + simpl in Hc2. rewrite lookup_empty in Hc2. discriminate.
          + simpl in Hc2. rewrite lookup_empty in Hc2. discriminate.
          + destruct (Hfresh _ _ _ _ Hold Hc2) as (? & ? & ?).
            destruct Hc as [[_ ->]|[_ ->]]; congruence. }
      apply unshared_insert; [exact Hun3| |].
      - intros k1 k2 c Hc1 Hc2. simpl in Hc1, Hc2.
        destruct (decide (pid = k1)) as [<-|N1], (decide (pid = k2)) as [<-|N2];
          try reflexivity.
        + rewrite lookup_insert_eq in Hc1. injection Hc1 as <-.
          rewrite lookup_insert_ne in Hc2 by exact N2.
          destruct (Hfresh _ _ k2 r Hroot Hc2) as (_ & _ & []). reflexivity.
        + rewrite lookup_insert_eq in Hc2. injection Hc2 as <-.
          rewrite lookup_insert_ne in Hc1 by exact N1.
          destruct (Hfresh _ _ k1 r Hroot Hc1) as (_ & _ & []). reflexivity.
        + rewrite lookup_insert_ne in Hc1 by exact N1.
          rewrite lookup_insert_ne in Hc2 by exact N2.
          apply (Hun _ _ k1 _ _ k2 c Hroot Hroot Hc1 Hc2).
      - intros k c l2 n2 k2 Hc Hne Hl2 Hc2. simpl in Hc.
        destruct (Hcases3 _ _ Hl2) as [[-> ->]|[[_ ->]|[[_ ->]|Hold]]].
        + (* the new run refers to s and m *)
          destruct (decide (pid = k)) as [<-|Nk].
          * rewrite lookup_insert_eq in Hc. injection Hc as <-.
            destruct Hrs. destruct Hc2 as [[_ ?]|[_ ?]]; congruence.
          * rewrite lookup_insert_ne in Hc by exact Nk.
            destruct (Hfresh _ _ k c Hroot Hc) as (? & ? & ?).
            destruct Hc2 as [[_ ?]|[_ ?]]; congruence.
        + simpl in Hc2. rewrite lookup_empty in Hc2. discriminate.
        + simpl in Hc2. rewrite lookup_empty in Hc2. discriminate.
        + destruct (decide (pid = k)) as [<-|Nk].
          * rewrite lookup_insert_eq in Hc. injection Hc as <-.
            destruct (Hfresh _ _ _ _ Hold Hc2) as (_ & _ & []). reflexivity.
          * rewrite lookup_insert_ne in Hc by exact Nk.
            destruct (Hun _ _ k _ _ k2 c Hroot Hold Hc Hc2) as [<- _].
            congruence. }
    split; [apply lookup_insert_eq|]. split; [apply lookup_insert_eq|].
    split.
    { rewrite lookup_insert_ne; [exact Hrun3|].
      intros <-. rewrite Hroot3 in Hrun3. discriminate. }
    split.
    { intros b pid' key.
      rewrite (recorded_new_run _ _ S3 runs pid r s m b pid' key R3 Hroot3
                 Hpid Hrun3 Hs3 Hm3).
      apply (recorded_kept _ _ _ _ _ _ _ Hrepr).
      - intros l n Hl _. auto.
      - intros l n Hl _. auto.
      - intros l Hl.
        apply (list_at_path _ _ _ _ _ _ _ Hrepr) in Hl
          as (runs0 & r0 & s0 & m0 & ls0 & _ & _ & _ & Hb & Hk).
        assert (is_Some (S !! l)) as [n Hn].
        { eapply (child_dom _ _ _ _ _ key l Hrepr Hb). destruct b; exact Hk. }
        rewrite Hn. auto. }
    split.
    + intros Hp. subst S3 S2 S1. repeat apply payloads_insert; simpl; auto.
    + eapply frames_trans; [|exact F4].
      eapply frames_trans; [|exact F3].
      eapply frames_trans; [exact F1|exact F2].
Qed.

(** Replacing a dictionary above the lists by another one changes the
    content of no list. *)
Lemma items_at_upper S x n0 n' b l :
  S !! x = Some n0 -> 3 <= rank n0 -> 3 <= rank n' ->
  items_at b (<[x := n']> S) l = items_at b S l.
Proof.
  intros Hx H0 H'.
  assert (Hent : forall e, value_of (<[x := n']> S) e = value_of S e
                           /\ duration_of (<[x := n']> S) e = duration_of S e).
  { intros e. unfold value_of, duration_of.
    destruct (decide (x = e)) as [<-|Hne].
    - rewrite lookup_insert_eq, Hx.
      destruct n0, n'; simpl in *; try lia; auto.
    - rewrite lookup_insert_ne by exact Hne. auto. }
  unfold items_at, values_at, durations_at.
  destruct (decide (x = l)) as [<-|Hne].
  - rewrite lookup_insert_eq, Hx.
    destruct n0, n', b; simpl in *; try lia; reflexivity.
  - rewrite lookup_insert_ne by exact Hne.
    destruct (S !! l) as [[runs|s m|ls|ls|es|es|d t|v st t]|]; destruct b;
      try reflexivity; apply list_fmap_ext; intros i e _; apply Hent.
Qed.

Lemma bucket_node_inj b ls b' ls' :
  bucket_node b ls = bucket_node b' ls' -> b = b' /\ ls = ls'.
Proof. destruct b, b'; simpl; intros H; inversion H; auto. Qed.

Lemma ensure_list_effect metric metrics S w bucket ls key :
  collector_repr (w_heap w) metrics S -> unshared S ->
  S !! bucket = Some (bucket_node metric ls) ->
  exists w' S' ls' l es,
    ensure_list bucket key w = (Ok tt, w')
    /\ collector_repr (w_heap w') metrics S'
    /\ unshared S'
    /\ S' !! bucket = Some (bucket_node metric ls')
    /\ ls' !! key = Some l
    /\ S' !! l = Some (list_node metric es)
    /\ (forall x n, S !! x = Some n -> x <> bucket -> S' !! x = Some n)
    /\ (forall b pid' key',
          recorded b S' metrics pid' key' = recorded b S metrics pid' key'
          \/ (recorded b S metrics pid' key' = None
              /\ recorded b S' metrics pid' key' = Some []
              /\ list_at b S' metrics pid' key' = Some l))
    /\ w_clock w' = w_clock w /\ w_tick w' = w_tick w
    /\ (payloads_scalar S -> payloads_scalar S')
    /\ frames S w S' w'.
Proof.
  intros Hrepr Hun Hb. pose proof Hrepr as (_ & Hok & _).
  assert (Hreal : realize (bucket_node metric ls) = ODict (VRef <$> ls))
    by (destruct metric; reflexivity).
  unfold ensure_list, bind.
  rewrite (get_dict_node _ _ _ _ _ _ Hrepr Hb Hreal).
  rewrite lookup_fmap.
  destruct (ls !! key) as [l|] eqn:Hkey;
    [change (VRef <$> Some l) with (Some (VRef l))
    |change (VRef <$> @None loc) with (@None val)]; cbv beta iota.
  - assert (exists es, S !! l = Some (list_node metric es)) as [es Hl].
    { pose proof (Hok _ _ Hb) as Hn. destruct metric; simpl in Hn;
        destruct (Hn _ _ Hkey) as [es Hes]; exists es; exact Hes. }
    exists w, S, ls, l, es.
    split; [reflexivity|]. split; [exact Hrepr|]. split; [exact Hun|].
    split; [exact Hb|].
    split; [exact Hkey|]. split; [exact Hl|].
    split; [auto|]. split; [auto|].
    split; [reflexivity|]. split; [reflexivity|].
    split; [auto|apply frames_refl].
  - destruct (alloc_node metrics S w (list_node metric []) Hrepr)
      as (l & w1 & E1 & Hl & R1 & F1).
    { destruct metric; simpl; constructor. }
    assert (Hreal0 : realize (list_node metric []) = OList [])
      by (destruct metric; reflexivity).
    rewrite Hreal0 in E1. rewrite E1.
    set (S1 := <[l := list_node metric []]> S) in *.
    assert (Hold1 : forall x n, S !! x = Some n -> S1 !! x = Some n)
      by (intros x n Hx; apply insert_keeps; assumption).
    assert (Hb1 : S1 !! bucket = Some (bucket_node metric ls)) by auto.
    assert (Hl1 : S1 !! l = Some (list_node metric []))
      by apply lookup_insert_eq.
    destruct (store_node metrics S1 w1 bucket (bucket_node metric ls)
                (bucket_node metric (<[key := l]> ls)) R1 Hb1)
      as (w2 & E2 & R2 & F2).
    { destruct metric; exact I. }
    { destruct R1 as (_ & Hok1 & _). pose proof (Hok1 _ _ Hb1) as Hn.
      destruct metric; simpl in *; intros k l0 Hk;
        (destruct (decide (key = k)) as [<-|Hne];
         [rewrite lookup_insert_eq in Hk; injection Hk as <-; eauto
         |rewrite lookup_insert_ne in Hk by exact Hne; eauto]). }
    unfold dict_setitem, bind.
    rewrite (get_dict_node _ _ _ _ _ _ R1 Hb1 Hreal).
    assert (Hreal2 : realize (bucket_node metric (<[key := l]> ls))
                     = ODict (<[key := VRef l]> (VRef <$> ls)))
      by (destruct metric; simpl; rewrite fmap_insert; reflexivity).
    rewrite Hreal2 in E2. rewrite E2.
    set (S2 := <[bucket := bucket_node metric (<[key := l]> ls)]> S1) in *.
    assert (Hlb : l <> bucket) by (intros ->; congruence).
    assert (Hl2 : S2 !! l = Some (list_node metric [])).
    { subst S2. rewrite lookup_insert_ne by congruence. exact Hl1. }
    assert (Hrank : 3 <= rank (bucket_node metric ls)
                    /\ 3 <= rank (bucket_node metric (<[key := l]> ls)))
      by (destruct metric; simpl; lia).
    destruct Hrank as [Hrank Hrank'].
    assert (Hchild : forall k c, child_at (bucket_node metric ls) k c
                                 <-> ls !! k = Some c)
      by (intros; destruct metric; reflexivity).
    assert (Hchild' : forall k c,
               child_at (bucket_node metric (<[key := l]> ls)) k c
               <-> <[key := l]> ls !! k = Some c)
      by (intros; destruct metric; reflexivity).
    exists w2, S2, (<[key := l]> ls), l, [].
    split; [reflexivity|]. split; [exact R2|].
    split.
    { assert (Hun1 : unshared S1).
      { apply unshared_insert_leaf; [exact Hun|].
        intros k c Hc. destruct metric; exact Hc. }
      apply unshared_insert; [exact Hun1| |].
      - intros k1 k2 c Hc1 Hc2. apply Hchild' in Hc1, Hc2.
        destruct (decide (key = k1)) as [<-|N1], (decide (key = k2)) as [<-|N2];
          try reflexivity.
        + rewrite lookup_insert_eq in Hc1. injection Hc1 as <-.
          rewrite lookup_insert_ne in Hc2 by exact N2.
          apply Hchild in Hc2.
          destruct (child_dom _ _ _ _ _ _ _ Hrepr Hb Hc2) as [? ?]. congruence.
        + rewrite lookup_insert_eq in Hc2. injection Hc2 as <-.
          rewrite lookup_insert_ne in Hc1 by exact N1.
          apply Hchild in Hc1.
          destruct (child_dom _ _ _ _ _ _ _ Hrepr Hb Hc1) as [? ?]. congruence.
        + rewrite lookup_insert_ne in Hc1 by exact N1.
          rewrite lookup_insert_ne in Hc2 by exact N2.
          apply (Hun _ _ k1 _ _ k2 c Hb Hb); apply Hchild; assumption.
      - intros k c l2 n2 k2 Hc Hne Hx2 Hc2. apply Hchild' in Hc.
        subst S1. destruct (decide (l2 = l)) as [->|Nl].
        + rewrite lookup_insert_eq in Hx2. injection Hx2 as <-.
          destruct metric; exact Hc2.
        + rewrite lookup_insert_ne in Hx2 by congruence.
          destruct (decide (key = k)) as [<-|Nk].
          * rewrite lookup_insert_eq in Hc. injection Hc as <-.
            destruct (child_dom _ _ _ _ _ _ _ Hrepr Hx2 Hc2) as [? ?].
            congruence.
          * rewrite lookup_insert_ne in Hc by exact Nk.
            apply Hchild in Hc.
            destruct (Hun _ _ k _ _ k2 c Hb Hx2 Hc Hc2) as [<- _].
            congruence. }
    split; [apply lookup_insert_eq|]. split; [apply lookup_insert_eq|].
    split; [exact Hl2|].
    split.
    { intros x n Hx Hne. subst S2. rewrite lookup_insert_ne by congruence.
      auto. }
    split.
    { intros b pid' key'.
      assert (H01 : recorded b S1 metrics pid' key'
                    = recorded b S metrics pid' key').
      { apply (recorded_kept _ _ _ _ _ _ _ Hrepr).
        - intros x n Hx _. auto.
        - intros x n Hx _. auto.
        - intros x Hx.
          apply (list_at_path _ _ _ _ _ _ _ Hrepr) in Hx
            as (runs0 & r0 & s0 & m0 & ls0 & _ & _ & _ & Hb0 & Hk).
          assert (is_Some (S !! x)) as [n Hn].
          { eapply (child_dom _ _ _ _ _ key' x Hrepr Hb0). destruct b; exact Hk. }
          rewrite Hn. auto. }
      rewrite <- H01. clear H01.
      pose proof R1 as ([runs Hroot] & Hok1 & _).
      assert (Hne : forall x n, S1 !! x = Some n -> x <> bucket ->
                                S2 !! x = Some n).
      { intros x n Hx Hxb. subst S2. rewrite lookup_insert_ne by congruence.
        exact Hx. }
      unfold recorded, list_at, run_of.
      rewrite Hroot, (Hne _ _ Hroot)
        by (intros ->; rewrite Hb1 in Hroot; destruct metric; discriminate).
      destruct (runs !! pid') as [r'|] eqn:Hpid'; [|left; reflexivity].
      destruct (Hok1 _ _ Hroot _ _ Hpid') as (s' & m' & Hr').
      rewrite Hr', (Hne _ _ Hr')
        by (intros ->; rewrite Hb1 in Hr'; destruct metric; discriminate).
      destruct (Hok1 _ _ Hr') as ([lsx Hs'] & [lmx Hm']).
      assert (Hgen : forall bk lk,
                 S1 !! bk = Some (bucket_node b lk) ->
                 (match S2 !! bk with
                  | Some (NSteps ls0) | Some (NMetrics ls0) => ls0 !! key'
                  | _ => None
                  end = lk !! key'
                  /\ items_at b S2 <$> lk !! key' = items_at b S1 <$> lk !! key')
                 \/ (lk !! key' = None
                     /\ match S2 !! bk with
                        | Some (NSteps ls0) | Some (NMetrics ls0) => ls0 !! key'
                        | _ => None
                        end = Some l
                     /\ items_at b S2 l = [])).
      { intros bk lk Hbk.
        assert (Hit : forall x, items_at b S2 x = items_at b S1 x).
        { intros x. subst S2.
          apply (items_at_upper S1 bucket _ _ b x Hb1 Hrank Hrank'). }
        destruct (decide (bk = bucket)) as [->|Nbk].
        - rewrite Hb1 in Hbk. injection Hbk as Hbk.
          apply bucket_node_inj in Hbk as [<- <-].
          subst S2. rewrite lookup_insert_eq.
          destruct (decide (key = key')) as [<-|Nk].
          + right. split; [exact Hkey|]. split.
            * destruct metric; simpl; apply lookup_insert_eq.
            * rewrite Hit. unfold items_at, values_at, durations_at.
              rewrite Hl1. destruct metric; reflexivity.
          + left. split.
            * destruct metric; simpl; apply lookup_insert_ne; exact Nk.
            * destruct (ls !! key'); [|reflexivity]. simpl. f_equal. apply Hit.
        - left. rewrite (Hne _ _ Hbk Nbk). split.
          + destruct b; reflexivity.
          + destruct (lk !! key'); [|reflexivity]. simpl. f_equal. apply Hit. }
      assert (Hfin : forall bk lk,
                 S1 !! bk = Some (bucket_node b lk) ->
                 items_at b S2 <$>
                   match S2 !! bk with
                   | Some (NSteps ls0) | Some (NMetrics ls0) => ls0 !! key'
                   | _ => None
                   end
                 = items_at b S1 <$>
                   match S1 !! bk with
                   | Some (NSteps ls0) | Some (NMetrics ls0) => ls0 !! key'
                   | _ => None
                   end
                 \/ (items_at b S1 <$>
                       match S1 !! bk with
                       | Some (NSteps ls0) | Some (NMetrics ls0) => ls0 !! key'
                       | _ => None
                       end = None
                     /\ items_at b S2 <$>
                          match S2 !! bk with
                          | Some (NSteps ls0) | Some (NMetrics ls0) =>
                              ls0 !! key'
                          | _ => None
                          end = Some []
                     /\ match S2 !! bk with
                        | Some (NSteps ls0) | Some (NMetrics ls0) => ls0 !! key'
                        | _ => None
                        end = Some l)).
      { intros bk lk Hbk.
        assert (Hs1 : match S1 !! bk with
                      | Some (NSteps ls0) | Some (NMetrics ls0) => ls0 !! key'
                      | _ => None
                      end = lk !! key')
          by (rewrite Hbk; destruct b; reflexivity).
        rewrite Hs1.
        destruct (Hgen bk lk Hbk) as [[-> Hi]|(Hn & -> & Hi)].
        - left. exact Hi.
        - right. rewrite Hn. simpl. rewrite Hi. auto. }
      destruct b.
      - apply (Hfin m' lmx Hm').
      - apply (Hfin s' lsx Hs'). }
    assert (Hw1 : w_clock w1 = w_clock w /\ w_tick w1 = w_tick w)
      by (unfold alloc in E1; injection E1 as _ <-; split; reflexivity).
    assert (Hw2 : w_clock w2 = w_clock w1 /\ w_tick w2 = w_tick w1)
      by (unfold store in E2; injection E2 as <-; split; reflexivity).
    destruct Hw1 as [Hc1 Ht1], Hw2 as [Hc2 Ht2].
    split; [congruence|]. split; [congruence|].
    split.
    + intros Hp. subst S2 S1. repeat apply payloads_insert; auto;
        destruct metric; simpl; auto.
    + eapply frames_trans; [exact F1|exact F2].
Qed.

Lemma append_entry_effect metric metrics S w bucket ls key l es n entry :
  collector_repr (w_heap w) metrics S -> unshared S ->
  S !! bucket = Some (bucket_node metric ls) ->
  ls !! key = Some l ->
  S !! l = Some (list_node metric es) ->
  entry_of metric n -> realize n = ODict entry ->
  exists w' S',
    append_entry bucket key entry w = (Ok tt, w')
    /\ collector_repr (w_heap w') metrics S'
    /\ unshared S'
    /\ (forall b pid' key',
          recorded b S' metrics pid' key'
          = if decide (list_at b S metrics pid' key' = Some l)
            then Some (items_at b S l ++ [payload n])
            else recorded b S metrics pid' key')
    /\ (payloads_scalar S -> entry_scalar n -> payloads_scalar S')
    /\ frames S w S' w'.
Proof.
  intros Hrepr Hun Hb Hkey Hl Hkind Hentry.
  pose proof Hrepr as (_ & Hok & _).
  assert (Hreal : realize (bucket_node metric ls) = ODict (VRef <$> ls))
    by (destruct metric; reflexivity).
  assert (Hreall : realize (list_node metric es) = OList (VRef <$> es))
    by (destruct metric; reflexivity).
  unfold append_entry, subscript, bind.
  rewrite (get_dict_node _ _ _ _ _ _ Hrepr Hb Hreal).
  unfold dict_getitem. rewrite lookup_fmap, Hkey.
  change (VRef <$> Some l) with (Some (VRef l)). cbv beta iota.
  unfold ret at 1. unfold as_ref, ret at 1. cbv beta iota.
  destruct (alloc_node metrics S w n Hrepr) as (e & w1 & E1 & He & R1 & F1).
  { destruct n; simpl in *; auto; contradiction. }
  rewrite Hentry in E1. rewrite E1.
  set (S1 := <[e := n]> S) in *.
  assert (Hl1 : S1 !! l = Some (list_node metric es))
    by (apply insert_keeps; assumption).
  assert (He1 : S1 !! e = Some n) by apply lookup_insert_eq.
  destruct (store_node metrics S1 w1 l (list_node metric es)
              (list_node metric (es ++ [e])) R1 Hl1)
    as (w2 & E2 & R2 & F2).
  { destruct metric; exact I. }
  { destruct R1 as (_ & Hok1 & _). pose proof (Hok1 _ _ Hl1) as Hn.
    destruct metric; simpl in *; (apply Forall_app; split; [exact Hn|]);
      constructor; try constructor;
      destruct n; simpl in Hkind; try contradiction; try discriminate; eauto. }
  unfold list_append, bind.
  rewrite (get_list_node _ _ _ _ _ _ R1 Hl1 Hreall).
  assert (Hreal2 : realize (list_node metric (es ++ [e]))
                   = OList ((VRef <$> es) ++ [VRef e]))
    by (destruct metric; simpl; rewrite fmap_app; reflexivity).
  rewrite Hreal2 in E2. rewrite E2.
  set (S2 := <[l := list_node metric (es ++ [e])]> S1) in *.
  assert (Hel : e <> l) by (intros ->; congruence).
  assert (Hkeep : forall x nx, S !! x = Some nx -> x <> l ->
                               S2 !! x = Some nx).
  { intros x nx Hx Hxl. subst S2 S1. rewrite lookup_insert_ne by congruence.
    apply insert_keeps; assumption. }
  assert (Hlow : forall x nx, S !! x = Some nx -> rank nx <= 1 ->
                              S2 !! x = Some nx).
  { intros x nx Hx Hrk. apply Hkeep; [exact Hx|]. intros ->.
    rewrite Hl in Hx. injection Hx as <-. destruct metric; simpl in Hrk; lia. }
  assert (Hup : forall x nx, S !! x = Some nx -> 3 <= rank nx ->
                             S2 !! x = Some nx).
  { intros x nx Hx Hrk. apply Hkeep; [exact Hx|]. intros ->.
    rewrite Hl in Hx. injection Hx as <-. destruct metric; simpl in Hrk; lia. }
  exists w2, S2.
  split; [reflexivity|]. split; [exact R2|].
  split.
  { subst S2. apply unshared_insert_leaf.
    - apply unshared_insert_leaf; [exact Hun|].
      intros k c Hc. destruct n; simpl in Hkind; try contradiction;
        exact Hc.
    - intros k c Hc. destruct metric; exact Hc. }
  split.
  { intros b pid' key'. unfold recorded.
    rewrite (list_at_kept _ _ _ _ _ _ _ Hrepr Hup).
    destruct (list_at b S metrics pid' key') as [l0|] eqn:Hl0;
      [|rewrite decide_False by discriminate; reflexivity].
    pose proof Hl0 as Hp.
    apply (list_at_path _ _ _ _ _ _ _ Hrepr) in Hp
      as (runs0 & r0 & s0 & m0 & ls0 & _ & _ & _ & Hb0 & Hk0).
    assert (exists es0, S !! l0 = Some (list_node b es0)) as [es0 Hes0].
    { pose proof (Hok _ _ Hb0) as Hn0. destruct b; simpl in Hn0;
        destruct (Hn0 _ _ Hk0) as [es0 H0]; exists es0; exact H0. }
    simpl. destruct (decide (l0 = l)) as [->|Nl].
    - rewrite decide_True by reflexivity. f_equal.
      rewrite Hl in Hes0. injection Hes0 as Hes0.
      assert (b = metric /\ es0 = es) as [-> ->].
      { destruct metric, b; simpl in Hes0; inversion Hes0; auto. }
      assert (Hes : node_ok S (list_node metric es)) by (apply (Hok _ _ Hl)).
      pose proof (entries_kept S S2 metric es Hes Hlow) as Hk.
      assert (He2 : S2 !! e = Some n).
      { subst S2. rewrite lookup_insert_ne by congruence. exact He1. }
      unfold items_at, values_at, durations_at. rewrite Hl.
      subst S2. rewrite lookup_insert_eq.
      destruct metric; unfold list_node in Hk, He2; cbv beta iota in Hk, He2;
        simpl; rewrite fmap_app; simpl; rewrite Hk; f_equal; f_equal.
      + unfold value_of. rewrite He2.
        destruct n; simpl in Hkind; try contradiction; try discriminate;
          reflexivity.
      + unfold duration_of. rewrite He2.
        destruct n; simpl in Hkind; try contradiction; try discriminate;
          reflexivity.
    - rewrite decide_False by congruence. f_equal.
      apply (items_at_kept _ _ _ _ _ _ _ Hrepr Hes0); [|exact Hlow].
      apply Hkeep; assumption. }
  split.
  - intros Hp Hs. subst S2 S1. repeat apply payloads_insert; auto.
    destruct metric; simpl; auto.
  - eapply frames_trans; [exact F1|exact F2].
Qed.

Lemma handle_event_effect metric metrics S w event ev pid key :
  collector_repr (w_heap w) metrics S -> unshared S ->
  w_heap w !! event = Some (ODict ev) ->
  dict_get ev "pipeline_id" (VStr "unknown") = VStr pid ->
  dict_get ev "event_type" (VStr "unknown") = VStr (kind_name metric) ->
  dict_get ev (key_field metric) (VStr "unknown") = VStr key ->
  exists w' S',
    MetricsCollector_handle_event metrics event w = (Ok tt, w')
    /\ collector_repr (w_heap w') metrics S'
    /\ unshared S'
    /\ (forall b pid' key',
          recorded b S' metrics pid' key'
          = if decide (b = metric /\ pid' = pid /\ key' = key)
            then Some (default [] (recorded b S metrics pid' key')
                       ++ [dict_get ev (payload_field metric) (VInt 0)])
            else recorded b S metrics pid' key')
    /\ (payloads_scalar S ->
        (forall k v, ev !! k = Some v -> scalar v) -> payloads_scalar S')
    /\ frames S w S' w'.
Proof.
  intros Hrepr Hun Hev Hpid Hty Hkeyf.
  unfold MetricsCollector_handle_event. unfold bind at 1.
  unfold get_dict at 1. rewrite Hev. rewrite Hpid, Hty.
  unfold bind at 1. simpl as_key. unfold ret at 1. unfold bind at 1.
  destruct (ensure_run_effect metrics S w pid Hrepr Hun)
    as (w1 & S1 & runs & run & s & m & E1 & R1 & U1 & Hroot & Hrun & Hr
        & Obs1 & P1 & F1).
  rewrite E1.
  destruct (subscript2_run _ metrics S1 R1 w1 eq_refl runs pid run s m
              Hroot Hrun Hr) as [Esteps Emets].
  pose proof R1 as (_ & Hok1 & _).
  destruct (Hok1 _ _ Hr) as ([ls Hs] & [lm Hm]).
  set (bucket := if metric then m else s).
  set (lb := if metric then lm else ls).
  assert (Hbk : S1 !! bucket = Some (bucket_node metric lb))
    by (subst bucket lb; destruct metric; assumption).
  destruct (ensure_list_effect metric metrics S1 w1 bucket lb key R1 U1 Hbk)
    as (w2 & S2 & ls2 & l & es & E2 & R2 & U2 & Hb2 & Hk2 & Hl2 & Keep2
        & Obs2 & _ & _ & P2 & F2).
  pose (n := if metric
             then NMetricEntry (dict_get ev "metric_value" (VInt 0))
                               (dict_get ev "step" (VStr "unknown"))
                               (dict_get ev "timestamp" (VFloat (now w2)))
             else NStepEntry (dict_get ev "duration" (VInt 0))
                             (dict_get ev "timestamp" (VFloat (now w2)))).
  assert (Hkind : entry_of metric n) by (subst n; destruct metric; reflexivity).
  pose (entry := if metric return gmap string val
                 then <["value" := dict_get ev "metric_value" (VInt 0)]>
                        (<["step" := dict_get ev "step" (VStr "unknown")]>
                           (<["timestamp" :=
                                dict_get ev "timestamp" (VFloat (now w2))]> ∅))
                 else <["duration" := dict_get ev "duration" (VInt 0)]>
                        (<["timestamp" :=
                             dict_get ev "timestamp" (VFloat (now w2))]> ∅)).
  assert (Hentry : realize n = ODict entry)
    by (subst n entry; destruct metric; reflexivity).
  destruct (append_entry_effect metric metrics S2 (ticked w2) bucket ls2 key l
              es n entry R2 U2 Hb2 Hk2 Hl2 Hkind Hentry)
    as (w3 & S3 & E3 & R3 & U3 & Obs3 & P3 & F3).
  assert (Hrb : run <> bucket /\ metrics <> bucket).
  { split; intros Heq; rewrite <- Heq in Hbk.
    - rewrite Hr in Hbk. destruct metric; discriminate.
    - rewrite Hroot in Hbk. destruct metric; discriminate. }
  destruct Hrb as [Hrb Hmb].
  assert (Htarget : list_at metric S2 metrics pid key = Some l).
  { apply (list_at_path _ _ _ _ _ _ _ R2).
    exists runs, run, s, m, ls2.
    split; [apply Keep2; auto|]. split; [exact Hrun|].
    split; [apply Keep2; auto|]. split; [exact Hb2|exact Hk2]. }
  assert (Hobs : forall b pid' key',
             recorded b S3 metrics pid' key'
             = if decide (b = metric /\ pid' = pid /\ key' = key)
               then Some (default [] (recorded b S metrics pid' key')
                          ++ [payload n])
               else recorded b S metrics pid' key').
  { intros b pid' key'. rewrite Obs3.
    destruct (decide (list_at b S2 metrics pid' key' = Some l)) as [Hyes|Hno].
    - destruct (list_at_inj _ _ _ _ _ _ _ _ _ _ R2 U2 Hyes Htarget)
        as (-> & -> & ->).
      rewrite decide_True by auto. f_equal. f_equal.
      assert (H2 : recorded metric S2 metrics pid key
                   = Some (items_at metric S2 l))
        by (unfold recorded; rewrite Htarget; reflexivity).
      destruct (Obs2 metric pid key) as [Heq|(Hnone & Hnil & _)].
      + rewrite <- Obs1, <- Heq, H2. reflexivity.
      + rewrite <- Obs1, Hnone. rewrite Hnil in H2. injection H2 as <-.
        reflexivity.
    - rewrite decide_False.
      + destruct (Obs2 b pid' key') as [Heq|(_ & _ & Hl')];
          [|contradiction].
        rewrite Heq. apply Obs1.
      + intros (-> & -> & ->). contradiction. }
  assert (Hpay : payload n = dict_get ev (payload_field metric) (VInt 0))
    by (subst n; destruct metric; reflexivity).
  rewrite Hpay in Hobs.
  assert (Hscal : payloads_scalar S ->
                  (forall k v, ev !! k = Some v -> scalar v) ->
                  payloads_scalar S3).
  { intros Hp Hs0. apply P3; [auto|]. subst n.
    destruct metric; simpl; repeat split; apply scalar_dict_get; simpl; auto. }
  assert (Hframes : frames S w S3 w3).
  { eapply frames_trans; [exact F1|].
    eapply frames_trans; [exact F2|].
    intros x o Hx Ho. apply (F3 x o Hx). exact Ho. }
  destruct metric; simpl in Hkeyf; subst bucket lb n entry;
    cbv beta iota in *.
  - change (val_eq_str (VStr (kind_name true)) "metric") with true.
    cbv iota. unfold bind at 1. rewrite Hkeyf. simpl as_key.
    unfold ret at 1. unfold bind at 1. rewrite Emets.
    unfold bind at 1. rewrite E2. unfold bind at 1. unfold time_time at 1.
    unfold ticked, now in E3. rewrite E3.
    exists w3, S3. repeat (split; [assumption || reflexivity|]). assumption.
  - change (val_eq_str (VStr (kind_name false)) "metric") with false.
    change (val_eq_str (VStr (kind_name false)) "step_end") with true.
    cbv iota.
    unfold bind at 1. rewrite Hkeyf. simpl as_key.
    unfold ret at 1. unfold bind at 1. rewrite Esteps.
    unfold bind at 1. rewrite E2. unfold bind at 1. unfold time_time at 1.
    unfold ticked, now in E3. rewrite E3.
    exists w3, S3. repeat (split; [assumption || reflexivity|]). assumption.
Qed.

Lemma val_eq_str_true v s : val_eq_str v s = true -> v = VStr s.
Proof.
  destruct v; simpl; try discriminate. intros H.
  apply bool_decide_eq_true in H. congruence.
Qed.

(** Whatever event it is handed and however it ends, the handler
    changes at most what is recorded under the key the event names. *)
Lemma handle_event_total metrics S w event :
  collector_repr (w_heap w) metrics S -> unshared S ->
  exists r w' S',
    MetricsCollector_handle_event metrics event w = (r, w')
    /\ collector_repr (w_heap w') metrics S'
    /\ unshared S'
    /\ frames S w S' w'
    /\ forall b pid key,
         recorded b S' metrics pid key = recorded b S metrics pid key
         \/ exists ev, w_heap w !! event = Some (ODict ev)
                       /\ request ev b pid key /\ r = Ok tt.
Proof.
  intros Hrepr Hun.
  assert (exists o, w_heap w !! event = o) as [o Hev] by eauto.
  destruct o as [[ev|xs|xs|cls attrs|c]|];
    try (unfold MetricsCollector_handle_event; unfold bind at 1;
         unfold get_dict at 1; rewrite Hev;
         eexists; exists w, S; split; [reflexivity|];
         split; [exact Hrepr|]; split; [exact Hun|];
         split; [apply frames_refl|]; left; reflexivity).
  destruct (dict_get ev "pipeline_id" (VStr "unknown")) as [| | | |pid|]
    eqn:Hpid;
    try (unfold MetricsCollector_handle_event; unfold bind at 1;
         unfold get_dict at 1; rewrite Hev; unfold bind at 1; rewrite Hpid;
         eexists; exists w, S; split; [reflexivity|];
         split; [exact Hrepr|]; split; [exact Hun|];
         split; [apply frames_refl|]; left; reflexivity).
  destruct (ensure_run_effect metrics S w pid Hrepr Hun)
    as (w1 & S1 & runs & run & s & m & E1 & R1 & U1 & Hroot & Hrun & Hr
        & Obs1 & P1 & F1).
  assert (Hstop : forall r,
             MetricsCollector_handle_event metrics event w = (r, w1) ->
             exists r w' S',
               MetricsCollector_handle_event metrics event w = (r, w')
               /\ collector_repr (w_heap w') metrics S'
               /\ unshared S'
               /\ frames S w S' w'
               /\ forall b pid key,
                   recorded b S' metrics pid key = recorded b S metrics pid key
                   \/ exists ev, w_heap w !! event = Some (ODict ev)
                                 /\ request ev b pid key /\ r = Ok tt).
  { intros r Hr1. exists r, w1, S1. split; [exact Hr1|].
    split; [exact R1|]. split; [exact U1|]. split; [exact F1|].
    intros b pid' key. left. apply Obs1. }
  assert (Hgo : forall b key,
             request ev b pid key ->
             exists r w' S',
               MetricsCollector_handle_event metrics event w = (r, w')
               /\ collector_repr (w_heap w') metrics S'
               /\ unshared S'
               /\ frames S w S' w'
               /\ forall b pid key,
                   recorded b S' metrics pid key = recorded b S metrics pid key
                   \/ exists ev, w_heap w !! event = Some (ODict ev)
                                 /\ request ev b pid key /\ r = Ok tt).
  { intros b key (Hp & Ht & Hk).
    destruct (handle_event_effect b metrics S w event ev pid key Hrepr Hun
                Hev Hp Ht Hk) as (w' & S' & E & R' & U' & Obs & _ & F').
    exists (Ok tt), w', S'. split; [exact E|]. split; [exact R'|].
    split; [exact U'|]. split; [exact F'|].
    intros b' pid' key'. rewrite Obs.
    destruct (decide (b' = b /\ pid' = pid /\ key' = key))
      as [(-> & -> & ->)|Hno]; [|left; reflexivity].
    right. exists ev. split; [exact Hev|].
    split; [|reflexivity]. split; auto. }
  assert (Hhead : MetricsCollector_handle_event metrics event w
                  = (if val_eq_str (dict_get ev "event_type" (VStr "unknown"))
                          "metric"
                     then
                       let metric_name :=
                         dict_get ev "metric_name" (VStr "unknown") in
                       let metric_value :=
                         dict_get ev "metric_value" (VInt 0) in
                       let! name := as_key metric_name in
                       let! mets := subscript2 metrics pid "metrics" in
                       do! ensure_list mets name in
                       let! now := time_time in
                       append_entry mets name
                         (<["value" := metric_value]>
                            (<["step" := dict_get ev "step" (VStr "unknown")]>
                               (<["timestamp" :=
                                    dict_get ev "timestamp" (VFloat now)]> ∅)))
                     else if val_eq_str
                               (dict_get ev "event_type" (VStr "unknown"))
                               "step_end"
                     then
                       let! stepk :=
                         as_key (dict_get ev "step" (VStr "unknown")) in
                       let! steps := subscript2 metrics pid "steps" in
                       do! ensure_list steps stepk in
                       let duration := dict_get ev "duration" (VInt 0) in
                       let! now := time_time in
                       append_entry steps stepk
                         (<["duration" := duration]>
                            (<["timestamp" :=
                                 dict_get ev "timestamp" (VFloat now)]> ∅))
                     else ret tt) w1).
  { unfold MetricsCollector_handle_event. unfold bind at 1.
    unfold get_dict at 1. rewrite Hev. unfold bind at 1. rewrite Hpid.
    simpl as_key. unfold ret at 1. unfold bind at 1. rewrite E1.
    reflexivity. }
  destruct (val_eq_str (dict_get ev "event_type" (VStr "unknown")) "metric")
    eqn:Hmetric.
  - apply val_eq_str_true in Hmetric.
    destruct (dict_get ev "metric_name" (VStr "unknown")) as [| | | |name|]
      eqn:Hname;
      try (apply (Hstop (Raise (mkExn "TypeError" "key is not a str")));
           rewrite Hhead; reflexivity).
    apply (Hgo true name). split; [exact Hpid|]. split; assumption.
  - destruct (val_eq_str (dict_get ev "event_type" (VStr "unknown"))
                         "step_end") eqn:Hend.
    + apply val_eq_str_true in Hend.
      destruct (dict_get ev "step" (VStr "unknown")) as [| | | |step|]
        eqn:Hstep;
        try (apply (Hstop (Raise (mkExn "TypeError" "key is not a str")));
             rewrite Hhead; reflexivity).
      apply (Hgo false step). split; [exact Hpid|]. split; assumption.
    + apply (Hstop (Ok tt)). rewrite Hhead. reflexivity.
Qed.

Lemma get_metric_values_recorded metrics S w pid name :
  collector_repr (w_heap w) metrics S ->
  get_metric_values metrics pid name w
  = (Ok (default [] (recorded true S metrics pid name)), w).
Proof.
  intros Hrepr.
  rewrite (get_metric_values_repr _ metrics S Hrepr w eq_refl).
  rewrite (recorded_values_eq _ _ _ _ _ Hrepr). reflexivity.
Qed.

Lemma get_step_durations_recorded metrics S w pid :
  collector_repr (w_heap w) metrics S ->
  exists ds, get_step_durations metrics pid w = (Ok ds, w)
             /\ forall step, ds !! step = recorded false S metrics pid step.
Proof.
  intros Hrepr. exists (recorded_durations S metrics pid).
  split; [apply (get_step_durations_repr _ metrics S Hrepr w eq_refl)|].
  intros step. apply (recorded_durations_eq _ _ _ _ _ Hrepr).
Qed.

(** X1.  On a well-formed state, [MetricsCollector.handle_event] handed a
    metric event returns normally and appends the event's value (0 when
    the event has none) to what [get_metric_values] returns for the run
    and the metric the event names; the state stays well-formed. *)
Theorem collector_records_metric metrics w event ev pid name :
  well_formed (w_heap w) metrics ->
  w_heap w !! event = Some (ODict ev) ->
  dict_get ev "event_type" (VStr "unknown") = VStr "metric" ->
  dict_get ev "pipeline_id" (VStr "unknown") = VStr pid ->
  dict_get ev "metric_name" (VStr "unknown") = VStr name ->
  exists vs w',
    get_metric_values metrics pid name w = (Ok vs, w)
    /\ MetricsCollector_handle_event metrics event w = (Ok tt, w')
    /\ well_formed (w_heap w') metrics
    /\ get_metric_values metrics pid name w'
       = (Ok (vs ++ [dict_get ev "metric_value" (VInt 0)]), w').
Proof.
  intros (S & Hrepr & Hun) Hev Hty Hpid Hname.
  destruct (handle_event_effect true metrics S w event ev pid name Hrepr Hun
              Hev Hpid Hty Hname) as (w' & S' & E & R' & U' & Obs & _ & _).
  exists (default [] (recorded true S metrics pid name)), w'.
  split; [apply (get_metric_values_recorded _ _ _ _ _ Hrepr)|].
  split; [exact E|]. split; [exists S'; auto|].
  rewrite (get_metric_values_recorded _ _ _ _ _ R'), Obs.
  rewrite decide_True by auto. reflexivity.
Qed.

(** X2.  On a well-formed state, [MetricsCollector.handle_event] handed a
    step_end event returns normally, and [get_step_durations] of the
    event's run then returns what it returned before with the event's
    duration (0 when the event has none) appended under the step's name. *)
Theorem collector_records_duration metrics w event ev pid step :
  well_formed (w_heap w) metrics ->
  w_heap w !! event = Some (ODict ev) ->
  dict_get ev "event_type" (VStr "unknown") = VStr "step_end" ->
  dict_get ev "pipeline_id" (VStr "unknown") = VStr pid ->
  dict_get ev "step" (VStr "unknown") = VStr step ->
  exists ds w',
    get_step_durations metrics pid w = (Ok ds, w)
    /\ MetricsCollector_handle_event metrics event w = (Ok tt, w')
    /\ well_formed (w_heap w') metrics
    /\ get_step_durations metrics pid w'
       = (Ok (<[step := default [] (ds !! step)
                        ++ [dict_get ev "duration" (VInt 0)]]> ds), w').
Proof.
  intros (S & Hrepr & Hun) Hev Hty Hpid Hstep.
  destruct (handle_event_effect false metrics S w event ev pid step Hrepr Hun
              Hev Hpid Hty Hstep) as (w' & S' & E & R' & U' & Obs & _ & _).
  destruct (get_step_durations_recorded metrics S w pid Hrepr)
    as (ds & Eds & Hds).
  destruct (get_step_durations_recorded metrics S' w' pid R')
    as (ds' & Eds' & Hds').
  exists ds, w'. split; [exact Eds|]. split; [exact E|].
  split; [exists S'; auto|]. rewrite Eds'. f_equal. f_equal.
  apply map_eq. intros k. rewrite Hds', Obs.
  destruct (decide (k = step)) as [->|Hne].
  - rewrite decide_True by auto. rewrite lookup_insert_eq, Hds. reflexivity.
  - rewrite decide_False by (intros (_ & _ & ?); contradiction).
    rewrite lookup_insert_ne by congruence. rewrite Hds. reflexivity.
Qed.

(** On a dictionary with string ids the handler returns. *)
Lemma handle_event_typed metrics S w event ev :
  collector_repr (w_heap w) metrics S -> unshared S ->
  w_heap w !! event = Some (ODict ev) ->
  str_ids ev ->
  exists w' S',
    MetricsCollector_handle_event metrics event w = (Ok tt, w')
    /\ collector_repr (w_heap w') metrics S'
    /\ unshared S'
    /\ frames S w S' w'
    /\ forall b pid key,
         recorded b S' metrics pid key = recorded b S metrics pid key
         \/ request ev b pid key.
Proof.
  intros Hrepr Hun Hev ((pid & Hpid) & (step & Hstep) & (name & Hname)).
  destruct (handle_event_total metrics S w event Hrepr Hun)
    as (r & w' & S' & E & R' & U' & F' & Obs).
  assert (Hr : r = Ok tt).
  { destruct (val_eq_str (dict_get ev "event_type" (VStr "unknown")) "metric")
      eqn:Hmetric.
    { apply val_eq_str_true in Hmetric.
      destruct (handle_event_effect true metrics S w event ev pid name
                  Hrepr Hun Hev Hpid Hmetric Hname) as (w2 & S2 & E2 & _).
      rewrite E in E2. injection E2 as -> _. reflexivity. }
    destruct (val_eq_str (dict_get ev "event_type" (VStr "unknown"))
                "step_end") eqn:Hend.
    { apply val_eq_str_true in Hend.
      destruct (handle_event_effect false metrics S w event ev pid step
                  Hrepr Hun Hev Hpid Hend Hstep) as (w2 & S2 & E2 & _).
      rewrite E in E2. injection E2 as -> _. reflexivity. }
    destruct (ensure_run_effect metrics S w pid Hrepr Hun)
      as (w1 & S1 & runs & run & s & m & E1 & _).
    unfold MetricsCollector_handle_event in E. unfold bind at 1 in E.
    unfold get_dict at 1 in E. rewrite Hev in E. unfold bind at 1 in E.
    rewrite Hpid in E. simpl as_key in E. unfold ret at 1 in E.
    unfold bind at 1 in E. rewrite E1 in E.
    rewrite Hmetric, Hend in E. injection E as <- _. reflexivity. }
  subst r. exists w', S'. split; [exact E|]. split; [exact R'|].
  split; [exact U'|]. split; [exact F'|].
  intros b pid' key. destruct (Obs b pid' key) as [H|(ev' & Hev' & Hreq & _)];
    [left; exact H|right].
  rewrite Hev in Hev'. injection Hev' as <-. exact Hreq.
Qed.

(** X3.  Runs are independent rows of the collector.  Handed an event
    that is a dictionary with string ids, [handle_event] returns, the
    state stays well-formed, and [get_step_durations] and
    [get_metric_values] of every run other than the event's return
    what they returned before. *)
Theorem collector_runs_independent metrics w event ev pid' :
  well_formed (w_heap w) metrics ->
  w_heap w !! event = Some (ODict ev) ->
  str_ids ev ->
  dict_get ev "pipeline_id" (VStr "unknown") <> VStr pid' ->
  exists w',
    MetricsCollector_handle_event metrics event w = (Ok tt, w')
    /\ well_formed (w_heap w') metrics
    /\ (get_step_durations metrics pid' w').1
       = (get_step_durations metrics pid' w).1
    /\ forall name, (get_metric_values metrics pid' name w').1
                    = (get_metric_values metrics pid' name w).1.
Proof.
  intros (S & Hrepr & Hun) Hev Hids Hother.
  destruct (handle_event_typed metrics S w event ev Hrepr Hun Hev Hids)
    as (w' & S' & E & R' & U' & _ & Obs).
  exists w'. split; [exact E|].
  assert (Hsame : forall b key,
             recorded b S' metrics pid' key = recorded b S metrics pid' key).
  { intros b key. destruct (Obs b pid' key) as [H|(Hp & _)];
      [exact H|]. destruct (Hother Hp). }
  split; [exists S'; auto|]. split.
  - destruct (get_step_durations_recorded metrics S w pid' Hrepr)
      as (ds & -> & Hds).
    destruct (get_step_durations_recorded metrics S' w' pid' R')
      as (ds' & -> & Hds'). simpl. f_equal.
    apply map_eq. intros k. rewrite Hds, Hds'. apply Hsame.
  - intros name.
    rewrite (get_metric_values_recorded _ _ _ _ _ Hrepr).
    rewrite (get_metric_values_recorded _ _ _ _ _ R'). simpl.
    rewrite Hsame. reflexivity.
Qed.

(** X4.  [handle_event] records by event type only: an event that is not
    a step_end changes the answer of [get_step_durations] for no run, an
    event that is not a metric changes the answer of [get_metric_values]
    for no run and no metric; an event of any other type changes
    neither. *)
Theorem collector_records_by_type metrics w event ev :
  well_formed (w_heap w) metrics ->
  w_heap w !! event = Some (ODict ev) ->
  let w' := (MetricsCollector_handle_event metrics event w).2 in
  (dict_get ev "event_type" (VStr "unknown") <> VStr "step_end" ->
   forall pid, (get_step_durations metrics pid w').1
               = (get_step_durations metrics pid w).1)
  /\ (dict_get ev "event_type" (VStr "unknown") <> VStr "metric" ->
      forall pid name, (get_metric_values metrics pid name w').1
                       = (get_metric_values metrics pid name w).1).
Proof.
  intros (S & Hrepr & Hun) Hev.
  destruct (handle_event_total metrics S w event Hrepr Hun)
    as (r & w' & S' & E & R' & U' & _ & Obs).
  rewrite E. simpl.
  assert (Hsame : forall b, dict_get ev "event_type" (VStr "unknown")
                            <> VStr (kind_name b) ->
             forall pid key,
               recorded b S' metrics pid key = recorded b S metrics pid key).
  { intros b Hty pid key.
    destruct (Obs b pid key) as [H|(ev' & Hev' & (_ & Ht & _) & _)];
      [exact H|].
    rewrite Hev in Hev'. injection Hev' as <-. contradiction. }
  split.
  - intros Hty pid.
    destruct (get_step_durations_recorded metrics S w pid Hrepr)
      as (ds & -> & Hds).
    destruct (get_step_durations_recorded metrics S' w' pid R')
      as (ds' & -> & Hds'). simpl. f_equal.
    apply map_eq. intros k. rewrite Hds, Hds'. apply (Hsame false Hty).
  - intros Hty pid name.
    rewrite (get_metric_values_recorded _ _ _ _ _ Hrepr).
    rewrite (get_metric_values_recorded _ _ _ _ _ R'). simpl.
    rewrite (Hsame true Hty). reflexivity.
Qed.

Lemma deliver_sys_keeps e t sys s l o :
  keeps_store s ->
  w_heap (s_world sys) !! l = Some o ->
  w_heap (s_world (deliver_sys e t sys s)) !! l = Some o.
Proof.
  intros Hk Hl. unfold deliver_sys. destruct (should_handle s t); [|exact Hl].
  simpl. unfold deliver_world. specialize (Hk e (s_world sys) l o Hl).
  destruct (handle_event s e (s_world sys)) as [[[]|x] w']; exact Hk.
Qed.

Lemma dispatch_sys_keeps subs e t sys l o :
  Forall keeps_store subs ->
  w_heap (s_world sys) !! l = Some o ->
  w_heap (s_world (dispatch_sys subs e t sys)) !! l = Some o.
Proof.
  intros Hall. revert sys. induction Hall as [|s subs Hs _ IH]; intros sys Hl;
    [exact Hl|].
  unfold dispatch_sys in *. simpl. apply IH.
  apply deliver_sys_keeps; assumption.
Qed.

Lemma request_stamped D w b pid key :
  request D b pid key -> request (stamped D w) b pid key.
Proof.
  unfold request, stamped. destruct (D !! "timestamp"); [auto|].
  unfold dict_get.
  rewrite !lookup_insert_ne by (destruct b; discriminate). auto.
Qed.

Lemma payload_stamped D w b :
  dict_get (stamped D w) (payload_field b) (VInt 0)
  = dict_get D (payload_field b) (VInt 0).
Proof.
  unfold stamped. destruct (D !! "timestamp"); [auto|].
  unfold dict_get.
  rewrite !lookup_insert_ne by (destruct b; discriminate). auto.
Qed.

(** Publishing an event on a bus that holds the collector, among
    subscribers that leave the store alone. *)
Lemma publish_to_collector before after sub metrics e D sys S b pid key :
  collector_repr (w_heap (s_world sys)) metrics S -> unshared S ->
  S !! e = None ->
  w_heap (s_world sys) !! e = Some (ODict D) ->
  handle_event sub = MetricsCollector_handle_event metrics ->
  should_handle sub (VStr (kind_name b)) = true ->
  Forall keeps_store before -> Forall keeps_store after ->
  request D b pid key ->
  exists sys' S',
    publish_event (before ++ sub :: after) e sys = (Ok tt, sys')
    /\ collector_repr (w_heap (s_world sys')) metrics S'
    /\ unshared S'
    /\ forall b' pid' key',
         recorded b' S' metrics pid' key'
         = if decide (b' = b /\ pid' = pid /\ key' = key)
           then Some (default [] (recorded b' S metrics pid' key')
                      ++ [dict_get D (payload_field b) (VInt 0)])
           else recorded b' S metrics pid' key'.
Proof.
  intros Hrepr Hun HSe He Hsub Hshould Hbefore Hafter Hreq.
  rewrite (publish_event_eq _ _ _ _ He).
  assert (Hty : event_type_of D = VStr (kind_name b))
    by (destruct Hreq as (_ & Ht & _); exact Ht).
  rewrite Hty, dispatch_sys_app.
  set (sys0 := mkSystem (stamp_world e D (s_world sys)) _).
  assert (Hkeep0 : forall l x, w_heap (s_world sys) !! l = Some x -> l <> e ->
                               w_heap (s_world sys0) !! l = Some x).
  { intros l x Hl Hne. subst sys0. simpl. unfold stamp_world.
    destruct (D !! "timestamp"); [exact Hl|]. simpl.
    rewrite lookup_insert_ne by congruence. exact Hl. }
  assert (He0 : w_heap (s_world sys0) !! e
                = Some (ODict (stamped D (s_world sys))))
    by (apply stamp_world_lookup; exact He).
  set (sys1 := dispatch_sys before e (VStr (kind_name b)) sys0).
  assert (Hkeep1 : forall l x, w_heap (s_world sys0) !! l = Some x ->
                               w_heap (s_world sys1) !! l = Some x).
  { intros l x Hl. apply dispatch_sys_keeps; assumption. }
  assert (R1 : collector_repr (w_heap (s_world sys1)) metrics S).
  { destruct Hrepr as (Hroot & Hok & Hheap). split; [exact Hroot|].
    split; [exact Hok|]. intros l n Hl. apply Hkeep1, Hkeep0.
    - apply Hheap, Hl.
    - intros ->. congruence. }
  destruct Hreq as (Hp & Ht & Hk).
  pose proof (request_stamped D (s_world sys) b pid key
                (conj Hp (conj Ht Hk))) as (Hp' & Ht' & Hk').
  destruct (handle_event_effect b metrics S (s_world sys1) e
              (stamped D (s_world sys)) pid key R1 Hun
              (Hkeep1 _ _ He0) Hp' Ht' Hk')
    as (w2 & S2 & E2 & R2 & U2 & Obs & _ & _).
  change (dispatch_sys (sub :: after) e (VStr (kind_name b)) sys1)
    with (dispatch_sys after e (VStr (kind_name b))
            (deliver_sys e (VStr (kind_name b)) sys1 sub)).
  set (sys2 := deliver_sys e (VStr (kind_name b)) sys1 sub).
  assert (Hw2 : s_world sys2 = w2).
  { subst sys2. unfold deliver_sys. rewrite Hshould. simpl.
    unfold deliver_world. rewrite Hsub, E2. reflexivity. }
  eexists. exists S2. split; [reflexivity|].
  split.
  { apply (collector_repr_frame (w_heap w2)); [exact R2|].
    intros l x Hl. apply dispatch_sys_keeps; [exact Hafter|].
    rewrite Hw2. exact Hl. }
  split; [exact U2|].
  intros b' pid' key'. rewrite Obs, payload_stamped. reflexivity.
Qed.

(** Publishing any event on such a bus: the collector's state stays
    well-formed, objects outside it stay as they are, and nothing is
    recorded that the event does not ask for. *)
Lemma publish_near_collector before after sub metrics e D sys S :
  collector_repr (w_heap (s_world sys)) metrics S -> unshared S ->
  S !! e = None ->
  w_heap (s_world sys) !! e = Some (ODict D) ->
  handle_event sub = MetricsCollector_handle_event metrics ->
  Forall keeps_store before -> Forall keeps_store after ->
  exists sys' S',
    publish_event (before ++ sub :: after) e sys = (Ok tt, sys')
    /\ collector_repr (w_heap (s_world sys')) metrics S'
    /\ unshared S'
    /\ (forall l x, S !! l = None -> l <> e ->
                    w_heap (s_world sys) !! l = Some x ->
                    w_heap (s_world sys') !! l = Some x)
    /\ forall b pid key,
         recorded b S' metrics pid key = recorded b S metrics pid key
         \/ request D b pid key.
Proof.
  intros Hrepr Hun HSe He Hsub Hbefore Hafter.
  rewrite (publish_event_eq _ _ _ _ He).
  rewrite dispatch_sys_app.
  set (t := event_type_of D).
  set (sys0 := mkSystem (stamp_world e D (s_world sys)) _).
  assert (Hkeep0 : forall l x, w_heap (s_world sys) !! l = Some x -> l <> e ->
                               w_heap (s_world sys0) !! l = Some x).
  { intros l x Hl Hne. subst sys0. simpl. unfold stamp_world.
    destruct (D !! "timestamp"); [exact Hl|]. simpl.
    rewrite lookup_insert_ne by congruence. exact Hl. }
  assert (He0 : w_heap (s_world sys0) !! e
                = Some (ODict (stamped D (s_world sys))))
    by (apply stamp_world_lookup; exact He).
  set (sys1 := dispatch_sys before e t sys0).
  assert (Hkeep1 : forall l x, w_heap (s_world sys0) !! l = Some x ->
                               w_heap (s_world sys1) !! l = Some x).
  { intros l x Hl. apply dispatch_sys_keeps; assumption. }
  assert (R1 : collector_repr (w_heap (s_world sys1)) metrics S).
  { destruct Hrepr as (Hroot & Hok & Hheap). split; [exact Hroot|].
    split; [exact Hok|]. intros l n Hl. apply Hkeep1, Hkeep0.
    - apply Hheap, Hl.
    - intros ->. congruence. }
  change (dispatch_sys (sub :: after) e t sys1)
    with (dispatch_sys after e t (deliver_sys e t sys1 sub)).
  set (sys2 := deliver_sys e t sys1 sub).
  assert (exists S2,
             collector_repr (w_heap (s_world sys2)) metrics S2
             /\ unshared S2
             /\ (forall l x, S !! l = None ->
                             w_heap (s_world sys1) !! l = Some x ->
                             w_heap (s_world sys2) !! l = Some x)
             /\ forall b pid key,
                  recorded b S2 metrics pid key = recorded b S metrics pid key
                  \/ request D b pid key) as (S2 & R2 & U2 & F2 & Obs2).
  { subst sys2. unfold deliver_sys. destruct (should_handle sub t).
    - destruct (handle_event_total metrics S (s_world sys1) e R1 Hun)
        as (r & w2 & S2 & E2 & R2 & U2 & F2 & Obs).
      exists S2. simpl. unfold deliver_world. rewrite Hsub, E2.
      assert (Hobs : forall b pid key,
                 recorded b S2 metrics pid key = recorded b S metrics pid key
                 \/ request D b pid key).
      { intros b pid key. destruct (Obs b pid key) as [H|(ev & Hev & Hr & _)];
          [left; exact H|right].
        rewrite (Hkeep1 _ _ He0) in Hev. injection Hev as <-.
        destruct Hr as (Hp & Ht & Hk). unfold request.
        unfold stamped in Hp, Ht, Hk.
        destruct (D !! "timestamp"); [auto|].
        unfold dict_get in *.
        rewrite !lookup_insert_ne in Hp, Ht, Hk by (destruct b; discriminate).
        auto. }
      destruct r as [[]|x]; simpl;
        (split; [exact R2|]; split; [exact U2|]; split; [|exact Hobs]);
        intros l y Hl Hy; apply (F2 l y Hl Hy).
    - exists S. split; [exact R1|]. split; [exact Hun|].
      split; [auto|]. intros b pid key. left. reflexivity. }
  eexists. exists S2. split; [reflexivity|].
  split.
  { apply (collector_repr_frame (w_heap (s_world sys2))); [exact R2|].
    intros l x Hl. apply dispatch_sys_keeps; [exact Hafter|exact Hl]. }
  split; [exact U2|]. split; [|exact Obs2].
  intros l x Hl Hne Hx. apply dispatch_sys_keeps; [exact Hafter|].
  apply F2; [exact Hl|]. apply Hkeep1, Hkeep0; assumption.
Qed.

Lemma repr_not_ctx h metrics S l c :
  collector_repr h metrics S -> h !! l = Some (OCtx c) -> S !! l = None.
Proof.
  intros (_ & _ & Hheap) Hl. destruct (S !! l) as [n|] eqn:Hn; [|reflexivity].
  apply Hheap in Hn. rewrite Hl in Hn. destruct n; discriminate.
Qed.

(** X5.  [record_metric] of a context, published on a bus that holds the
    collector among subscribers that leave existing objects alone,
    returns normally, and [get_metric_values] for the context's run and
    that metric then returns what it returned before followed by the
    value recorded. *)
Theorem record_metric_reaches_collector before after sub metrics self c
    step name value sys :
  well_formed (w_heap (s_world sys)) metrics ->
  handle_event sub = MetricsCollector_handle_event metrics ->
  should_handle sub (VStr "metric") = true ->
  Forall keeps_store before -> Forall keeps_store after ->
  w_heap (s_world sys) !! self = Some (OCtx c) ->
  exists vs sys',
    get_metric_values metrics (pipeline_id c) name (s_world sys)
    = (Ok vs, s_world sys)
    /\ record_metric (before ++ sub :: after) self step name value sys
       = (Ok tt, sys')
    /\ well_formed (w_heap (s_world sys')) metrics
    /\ get_metric_values metrics (pipeline_id c) name (s_world sys')
       = (Ok (vs ++ [value]), s_world sys').
Proof.
  intros (S & Hrepr & Hun) Hsub Hshould Hbefore Hafter Hc.
  destruct sys as [w hist]. simpl in *.
  exists (default [] (recorded true S metrics (pipeline_id c) name)).
  unfold record_metric, bind, lift. simpl.
  rewrite (get_ctx_eq self c w Hc). simpl.
  set (D := <["metric_name" := VStr name]> _).
  set (e := fresh (dom (w_heap w))).
  set (sys1 := mkSystem _ hist).
  assert (Hfresh : w_heap w !! e = None) by apply fresh_loc_None.
  assert (He : w_heap (s_world sys1) !! e = Some (ODict D))
    by apply lookup_insert_eq.
  assert (R1 : collector_repr (w_heap (s_world sys1)) metrics S).
  { apply (collector_repr_frame (w_heap w)); [exact Hrepr|].
    intros l x Hl. simpl. rewrite lookup_insert_ne; [exact Hl|].
    intros <-. congruence. }
  assert (HSe : S !! e = None) by apply (repr_fresh _ _ _ Hrepr).
  assert (Hreq : request D true (pipeline_id c) name).
  { subst D. unfold request, dict_get. simpl key_field. simpl kind_name.
    split; [|split].
    - replace (_ !! "pipeline_id") with (Some (VStr (pipeline_id c)));
        [reflexivity|symmetry; lookup_fields].
    - replace (_ !! "event_type") with (Some (VStr "metric"));
        [reflexivity|symmetry; lookup_fields].
    - replace (_ !! "metric_name") with (Some (VStr name));
        [reflexivity|symmetry; lookup_fields]. }
  destruct (publish_to_collector before after sub metrics e D sys1 S true
              (pipeline_id c) name R1 Hun HSe He Hsub Hshould Hbefore Hafter
              Hreq) as (sys' & S' & E & R' & U' & Obs).
  exists sys'.
  split; [apply (get_metric_values_recorded _ _ _ _ _ Hrepr)|].
  split; [exact E|]. split; [exists S'; auto|].
  rewrite (get_metric_values_recorded _ _ _ _ _ R'), Obs.
  rewrite decide_True by auto.
  assert (Hval : dict_get D (payload_field true) (VInt 0) = value).
  { subst D. unfold dict_get. simpl payload_field.
    replace (_ !! "metric_value") with (Some value);
      [reflexivity|symmetry; lookup_fields]. }
  rewrite Hval. reflexivity.
Qed.

Lemma collector_repr_agree h h2 metrics S :
  collector_repr h metrics S ->
  (forall l n, S !! l = Some n -> h2 !! l = h !! l) ->
  collector_repr h2 metrics S.
Proof.
  intros (Hroot & Hok & Hheap) Hagree. split; [exact Hroot|].
  split; [exact Hok|]. intros l n Hl. rewrite (Hagree _ _ Hl).
  apply Hheap, Hl.
Qed.

Lemma record_step_end_to_collector before after sub metrics self c step
    outputs sys S :
  collector_repr (w_heap (s_world sys)) metrics S -> unshared S ->
  handle_event sub = MetricsCollector_handle_event metrics ->
  should_handle sub (VStr "step_end") = true ->
  Forall keeps_store before -> Forall keeps_store after ->
  w_heap (s_world sys) !! self = Some (OCtx c) ->
  exists sys' S',
    record_step_end (before ++ sub :: after) self step outputs sys
    = (Ok tt, sys')
    /\ collector_repr (w_heap (s_world sys')) metrics S'
    /\ unshared S'
    /\ forall b' pid' key',
         recorded b' S' metrics pid' key'
         = if decide (b' = false /\ pid' = pipeline_id c /\ key' = step)
           then Some (default [] (recorded b' S metrics pid' key')
                      ++ [VFloat (now (s_world sys)
                                  - default (start_time c)
                                            (step_times c !! step))])
           else recorded b' S metrics pid' key'.
Proof.
  intros Hrepr Hun Hsub Hshould Hbefore Hafter Hc.
  destruct (record_step_end_eq (before ++ sub :: after) self c step outputs
              sys Hc) as (oi & w1 & Eoi & Hc1 & Hkeep & _ & _ & _ & Eq).
  rewrite Eq. clear Eq.
  set (e := fresh (dom (w_heap w1))).
  set (D := <["duration" := _]> _).
  set (sys1 := mkSystem _ _).
  assert (Hfresh : w_heap w1 !! e = None) by apply fresh_loc_None.
  assert (He : w_heap (s_world sys1) !! e = Some (ODict D))
    by apply lookup_insert_eq.
  assert (R0 : collector_repr (w_heap w1) metrics S)
    by (apply (collector_repr_frame _ _ _ _ Hrepr); exact Hkeep).
  assert (R1 : collector_repr (w_heap (s_world sys1)) metrics S).
  { apply (collector_repr_frame (w_heap w1)); [exact R0|].
    intros l x Hl. simpl. rewrite lookup_insert_ne; [exact Hl|].
    intros <-. congruence. }
  assert (HSe : S !! e = None) by apply (repr_fresh _ _ _ R0).
  assert (Hreq : request D false (pipeline_id c) step).
  { subst D. unfold request, dict_get. simpl key_field. simpl kind_name.
    split; [|split].
    - replace (_ !! "pipeline_id") with (Some (VStr (pipeline_id c)));
        [reflexivity|symmetry; lookup_fields].
    - replace (_ !! "event_type") with (Some (VStr "step_end"));
        [reflexivity|symmetry; lookup_fields].
    - replace (_ !! "step") with (Some (VStr step));
        [reflexivity|symmetry; lookup_fields]. }
  destruct (publish_to_collector before after sub metrics e D sys1 S false
              (pipeline_id c) step R1 Hun HSe He Hsub Hshould Hbefore Hafter
              Hreq) as (sys' & S' & E & R' & U' & Obs).
  exists sys', S'. split; [exact E|]. split; [exact R'|]. split; [exact U'|].
  intros b' pid' key'. rewrite Obs.
  assert (Hval : dict_get D (payload_field false) (VInt 0)
                 = VFloat (now (s_world sys)
                           - default (start_time c) (step_times c !! step))).
  { subst D. unfold dict_get. simpl payload_field.
    rewrite lookup_insert_eq. reflexivity. }
  rewrite Hval. reflexivity.
Qed.

Lemma durations_after metrics S S' w w' pid step d :
  collector_repr (w_heap w) metrics S ->
  collector_repr (w_heap w') metrics S' ->
  (forall b' pid' key',
     recorded b' S' metrics pid' key'
     = if decide (b' = false /\ pid' = pid /\ key' = step)
       then Some (default [] (recorded b' S metrics pid' key') ++ [d])
       else recorded b' S metrics pid' key') ->
  exists ds,
    get_step_durations metrics pid w = (Ok ds, w)
    /\ get_step_durations metrics pid w'
       = (Ok (<[step := default [] (ds !! step) ++ [d]]> ds), w').
Proof.
  intros Hrepr R' Obs.
  destruct (get_step_durations_recorded metrics S w pid Hrepr)
    as (ds & Eds & Hds).
  destruct (get_step_durations_recorded metrics S' w' pid R')
    as (ds' & Eds' & Hds').
  exists ds. split; [exact Eds|]. rewrite Eds'. f_equal. f_equal.
  apply map_eq. intros k. rewrite Hds', Obs.
  destruct (decide (k = step)) as [->|Hne].
  - rewrite decide_True by auto. rewrite lookup_insert_eq, Hds. reflexivity.
  - rewrite decide_False by (intros (_ & _ & ?); contradiction).
    rewrite lookup_insert_ne by congruence. rewrite Hds. reflexivity.
Qed.

(** X6.  [record_step_end] on a bus that holds the collector appends the
    step's duration to its list in [get_step_durations] of the context's
    run: the clock reading minus the step's recorded start, or minus the
    context's creation time when the step was never started. *)
Theorem record_step_end_reaches_collector before after sub metrics self c
    step outputs sys :
  well_formed (w_heap (s_world sys)) metrics ->
  handle_event sub = MetricsCollector_handle_event metrics ->
  should_handle sub (VStr "step_end") = true ->
  Forall keeps_store before -> Forall keeps_store after ->
  w_heap (s_world sys) !! self = Some (OCtx c) ->
  exists ds sys',
    get_step_durations metrics (pipeline_id c) (s_world sys)
    = (Ok ds, s_world sys)
    /\ record_step_end (before ++ sub :: after) self step outputs sys
       = (Ok tt, sys')
    /\ well_formed (w_heap (s_world sys')) metrics
    /\ get_step_durations metrics (pipeline_id c) (s_world sys')
       = (Ok (<[step := default [] (ds !! step)
                        ++ [VFloat (now (s_world sys)
                                    - default (start_time c)
                                              (step_times c !! step))]]> ds),
          s_world sys').
Proof.
  intros (S & Hrepr & Hun) Hsub Hshould Hbefore Hafter Hc.
  destruct (record_step_end_to_collector before after sub metrics self c step
              outputs sys S Hrepr Hun Hsub Hshould Hbefore Hafter Hc)
    as (sys' & S' & E & R' & U' & Obs).
  destruct (durations_after metrics S S' (s_world sys) (s_world sys')
              (pipeline_id c) step _ Hrepr R' Obs) as (ds & Eds & Eds').
  exists ds, sys'. split; [exact Eds|]. split; [exact E|].
  split; [exists S'; auto|exact Eds'].
Qed.

(** X7.  [record_step_start] followed by [record_step_end] of the same
    step, on a bus that holds the collector: both return normally, and
    [get_step_durations] of the context's run gains, under the step's
    name, the difference of the clock readings the two calls took. *)
Theorem timed_step_reaches_collector before after sub metrics self c step
    outputs sys :
  well_formed (w_heap (s_world sys)) metrics ->
  handle_event sub = MetricsCollector_handle_event metrics ->
  should_handle sub (VStr "step_end") = true ->
  Forall keeps_store before -> Forall keeps_store after ->
  w_heap (s_world sys) !! self = Some (OCtx c) ->
  exists ds sys1 sys2,
    get_step_durations metrics (pipeline_id c) (s_world sys)
    = (Ok ds, s_world sys)
    /\ record_step_start (before ++ sub :: after) self step sys
       = (Ok tt, sys1)
    /\ record_step_end (before ++ sub :: after) self step outputs sys1
       = (Ok tt, sys2)
    /\ well_formed (w_heap (s_world sys2)) metrics
    /\ get_step_durations metrics (pipeline_id c) (s_world sys2)
       = (Ok (<[step := default [] (ds !! step)
                        ++ [VFloat (now (s_world sys1)
                                    - now (s_world sys))]]> ds),
          s_world sys2).
Proof.
  intros (S & Hrepr & Hun) Hsub Hshould Hbefore Hafter Hc.
  destruct sys as [w hist]. simpl in *.
  pose proof (repr_not_ctx _ _ _ _ _ Hrepr Hc) as HSself.
  unfold record_step_start, bind, lift.
  unfold time_time at 1. simpl.
  rewrite (get_ctx_eq self c) by exact Hc. simpl.
  unfold get_ctx at 1. simpl. rewrite lookup_insert_eq. simpl.
  set (c1 := mkContext _ _ _ _).
  set (h1 := <[self := OCtx c1]> (w_heap w)).
  set (e := fresh (dom h1)).
  set (D := event_fields "step_start" c1 step).
  set (sys0 := mkSystem _ _).
  assert (Hfresh : h1 !! e = None) by apply fresh_loc_None.
  assert (Hse : self <> e).
  { intros Heq. rewrite <- Heq in Hfresh. subst h1.
    rewrite lookup_insert_eq in Hfresh. discriminate. }
  assert (He : w_heap (s_world sys0) !! e = Some (ODict D))
    by apply lookup_insert_eq.
  assert (HSe : S !! e = None).
  { destruct (S !! e) as [n|] eqn:Hn; [|reflexivity].
    destruct Hrepr as (_ & _ & Hheap). apply Hheap in Hn.
    subst h1. rewrite lookup_insert_ne in Hfresh by exact Hse. congruence. }
  assert (R0 : collector_repr (w_heap (s_world sys0)) metrics S).
  { apply (collector_repr_agree (w_heap w)); [exact Hrepr|].
    intros l n Hl. simpl.
    rewrite lookup_insert_ne by (intros <-; congruence).
    subst h1. rewrite lookup_insert_ne by (intros <-; congruence).
    reflexivity. }
  destruct (publish_near_collector before after sub metrics e D sys0 S R0 Hun
              HSe He Hsub Hbefore Hafter)
    as (sys1 & S1 & E1 & R1 & U1 & Keep1 & Obs1).
  assert (Hc1 : w_heap (s_world sys1) !! self = Some (OCtx c1)).
  { apply Keep1; [exact HSself|exact Hse|]. simpl.
    rewrite lookup_insert_ne by congruence. subst h1.
    apply lookup_insert_eq. }
  assert (Hsame : forall b pid key,
             recorded b S1 metrics pid key = recorded b S metrics pid key).
  { intros b pid key. destruct (Obs1 b pid key) as [H|(_ & Ht & _)];
      [exact H|]. exfalso. subst D. unfold dict_get in Ht.
    replace (event_fields "step_start" c1 step !! "event_type")
      with (Some (VStr "step_start")) in Ht by (symmetry; lookup_fields).
    destruct b; discriminate. }
  destruct (record_step_end_to_collector before after sub metrics self c1 step
              outputs sys1 S1 R1 U1 Hsub Hshould Hbefore Hafter Hc1)
    as (sys2 & S2 & E2 & R2 & U2 & Obs2).
  assert (Hstart : default (start_time c1) (step_times c1 !! step)
                   = w_clock w (w_tick w)).
  { subst c1. simpl. rewrite lookup_insert_eq. reflexivity. }
  rewrite Hstart in Obs2.
  assert (Hpid : pipeline_id c1 = pipeline_id c) by reflexivity.
  rewrite Hpid in Obs2.
  assert (Obs : forall b' pid' key',
             recorded b' S2 metrics pid' key'
             = if decide (b' = false /\ pid' = pipeline_id c /\ key' = step)
               then Some (default [] (recorded b' S metrics pid' key')
                          ++ [VFloat (now (s_world sys1)
                                      - w_clock w (w_tick w))])
               else recorded b' S metrics pid' key').
  { intros b' pid' key'. rewrite Obs2, Hsame. reflexivity. }
  destruct (durations_after metrics S S2 w (s_world sys2)
              (pipeline_id c) step _ Hrepr R2 Obs) as (ds & Eds & Eds').
  exists ds, sys1, sys2. split; [exact Eds|]. split; [exact E1|].
  split; [exact E2|]. split; [exists S2; auto|exact Eds'].
Qed.

Lemma unshared_new metrics : unshared {[metrics := NRoot ∅]}.
Proof.
  intros l1 n1 k1 l2 n2 k2 c H1 _ C1 _.
  apply lookup_singleton_Some in H1 as [_ <-]. simpl in C1.
  rewrite lookup_empty in C1. discriminate.
Qed.

Lemma collector_life_inv metrics own w :
  collector_life metrics own w ->
  exists S, collector_repr (w_heap w) metrics S /\ unshared S
            /\ forall l, is_Some (S !! l) -> l ∈ own.
Proof.
  induction 1 as [arg w sub w' Hinit|own w event ev _ IH Hev Hids
                 |own w w' _ IH Hkeep].
  - destruct (MetricsCollector_init_repr arg w)
      as (m & sub' & w2 & E & _ & _ & Hrepr & _).
    rewrite E in Hinit. injection Hinit as -> _ ->.
    exists {[metrics := NRoot ∅]}. split; [exact Hrepr|].
    split; [apply unshared_new|].
    intros l [n Hl]. apply lookup_singleton_Some in Hl as [<- _].
    apply elem_of_singleton. reflexivity.
  - destruct IH as (S & Hrepr & Hun & Hown).
    destruct (handle_event_typed metrics S w event ev Hrepr Hun Hev Hids)
      as (w' & S' & E & R' & U' & F & _).
    rewrite E. simpl. exists S'. split; [exact R'|]. split; [exact U'|].
    intros l [n Hl]. apply elem_of_union.
    destruct (S !! l) as [n0|] eqn:Hl0; [left; apply Hown; eauto|right].
    apply elem_of_difference. split.
    + apply elem_of_dom. destruct R' as (_ & _ & Hheap). eauto.
    + intros Hin. apply elem_of_dom in Hin as [x Hx].
      destruct (F l x Hl0 Hx) as [_ Hnone]. congruence.
  - destruct IH as (S & Hrepr & Hun & Hown). exists S.
    split; [|split; [exact Hun|exact Hown]].
    destruct Hrepr as (Hroot & Hok & Hheap). split; [exact Hroot|].
    split; [exact Hok|]. intros l n Hl. apply Hkeep; [|apply Hheap, Hl].
    apply Hown. eauto.
Qed.

(** X8.  From its creation on, through any events with string ids
    handed to it and any other code that does not write to the objects
    it created, a collector's state is well-formed, and
    [get_step_durations] and [get_metric_values] return without raising
    and without changing anything. *)
Theorem collector_always_well_formed metrics own w :
  collector_life metrics own w ->
  well_formed (w_heap w) metrics
  /\ (forall pid, exists ds, get_step_durations metrics pid w = (Ok ds, w))
  /\ (forall pid name,
        exists vs, get_metric_values metrics pid name w = (Ok vs, w)).
Proof.
  intros Hlife.
  destruct (collector_life_inv metrics own w Hlife) as (S & Hrepr & Hun & _).
  split; [exists S; auto|]. split.
  - intros pid. eexists.
    apply (get_step_durations_repr _ metrics S Hrepr w eq_refl).
  - intros pid name. eexists.
    apply (get_metric_values_repr _ metrics S Hrepr w eq_refl).
Qed.

Lemma observed_world_wf : well_formed (w_heap observed_world) 2%positive.
Proof.
  exists {[2%positive := NRoot ∅]}. split; [|apply unshared_new].
  split; [|split].
  - exists ∅. apply lookup_singleton_eq.
  - intros l n Hl. apply lookup_singleton_Some in Hl as [_ <-].
    intros pid r Hr. rewrite lookup_empty in Hr. discriminate.
  - intros l n Hl. apply lookup_singleton_Some in Hl as [<- <-].
    vm_compute. reflexivity.
Qed.

Lemma noting_keeps_store : keeps_store noting_subscriber.
Proof. intros e w l o Hl. exact Hl. Qed.

Lemma failing_keeps_store : keeps_store failing_subscriber.
Proof. intros e w l o Hl. exact Hl. Qed.

Lemma collector_records_metric_witness :
  exists w',
    MetricsCollector_handle_event 2%positive 1%positive observed_world
    = (Ok tt, w')
    /\ get_metric_values 2%positive "p1" "latency_ms" w'
       = (Ok [VFloat (241 # 2)], w').
Proof.
  destruct (collector_records_metric 2%positive observed_world 1%positive
              metric_event "p1" "latency_ms" observed_world_wf
              eq_refl eq_refl eq_refl eq_refl)
    as (vs & w' & Evs & E & _ & Eget).
  assert (H0 : get_metric_values 2%positive "p1" "latency_ms" observed_world
               = (Ok [], observed_world)) by (vm_compute; reflexivity).
  rewrite H0 in Evs. injection Evs as <-.
  exists w'. split; [exact E|exact Eget].
Defined.

Lemma collector_records_duration_witness :
  exists w',
    MetricsCollector_handle_event 2%positive 4%positive observed_world
    = (Ok tt, w')
    /\ get_step_durations 2%positive "p1" w'
       = (Ok (<["load" := [VFloat (2 # 1)]]> ∅), w').
Proof.
  destruct (collector_records_duration 2%positive observed_world 4%positive
              (step_end_event "p1" "load" (2 # 1)) "p1" "load"
              observed_world_wf eq_refl eq_refl eq_refl eq_refl)
    as (ds & w' & Eds & E & _ & Eget).
  assert (H0 : get_step_durations 2%positive "p1" observed_world
               = (Ok ∅, observed_world)) by (vm_compute; reflexivity).
  rewrite H0 in Eds. injection Eds as <-.
  exists w'. split; [exact E|exact Eget].
Defined.

Lemma metric_event_str_ids : str_ids metric_event.
Proof. repeat split; eexists; reflexivity. Qed.

Lemma busy_world_repr :
  collector_repr (w_heap busy_world) 2%positive {[2%positive := NRoot ∅]}.
Proof.
  split; [|split].
  - exists ∅. apply lookup_singleton_eq.
  - intros l n Hl. apply lookup_singleton_Some in Hl as [_ <-].
    intros pid r Hr. rewrite lookup_empty in Hr. discriminate.
  - intros l n Hl. apply lookup_singleton_Some in Hl as [<- <-].
    vm_compute. reflexivity.
Qed.

Lemma busy_recorded_wf : well_formed (w_heap busy_recorded) 2%positive.
Proof.
  destruct (handle_event_typed 2%positive _ busy_world 1%positive metric_event
              busy_world_repr (unshared_new _) eq_refl metric_event_str_ids)
    as (w' & S' & E & R' & U' & _).
  unfold busy_recorded. rewrite E. exists S'. split; assumption.
Qed.

Lemma collector_runs_independent_witness :
  (get_metric_values 2%positive "p1" "latency_ms"
     (MetricsCollector_handle_event 2%positive 3%positive busy_recorded).2).1
  = Ok [VFloat (241 # 2)].
Proof.
  destruct (collector_runs_independent 2%positive busy_recorded 3%positive
              (step_end_event "p2" "load" (3 # 1)) "p1" busy_recorded_wf)
    as (w' & E & _ & _ & Hv).
  - vm_compute. reflexivity.
  - repeat split; eexists; reflexivity.
  - discriminate.
  - rewrite E. simpl. rewrite Hv. vm_compute. reflexivity.
Defined.

Lemma collector_records_by_type_witness :
  (get_step_durations 2%positive "p1"
     (MetricsCollector_handle_event 2%positive 1%positive observed_world).2).1
  = (get_step_durations 2%positive "p1" observed_world).1.
Proof.
  refine (proj1 (collector_records_by_type 2%positive observed_world
                   1%positive metric_event observed_world_wf eq_refl) _ "p1").
  vm_compute. discriminate.
Defined.

Lemma record_metric_reaches_collector_witness :
  exists sys',
    record_metric [noting_subscriber; sample_collector; failing_subscriber]
      3%positive "embed" "latency_ms" (VFloat (241 # 2)) observed_sys
    = (Ok tt, sys')
    /\ get_metric_values 2%positive "p1" "latency_ms" (s_world sys')
       = (Ok [VFloat (241 # 2)], s_world sys').
Proof.
  destruct (record_metric_reaches_collector [noting_subscriber]
              [failing_subscriber] sample_collector 2%positive 3%positive
              sample_context "embed" "latency_ms" (VFloat (241 # 2))
              observed_sys observed_world_wf eq_refl eq_refl)
    as (vs & sys' & Evs & E & _ & Eget).
  - constructor; [apply noting_keeps_store|constructor].
  - constructor; [apply failing_keeps_store|constructor].
  - reflexivity.
  - assert (H0 : get_metric_values 2%positive "p1" "latency_ms" observed_world
                 = (Ok [], observed_world)) by (vm_compute; reflexivity).
    simpl in Evs. rewrite H0 in Evs. injection Evs as <-.
    exists sys'. split; [exact E|exact Eget].
Defined.

Lemma record_step_end_reaches_collector_witness :
  exists sys',
    record_step_end [noting_subscriber; sample_collector; failing_subscriber]
      3%positive "load" VNone observed_sys
    = (Ok tt, sys')
    /\ get_step_durations 2%positive "p1" (s_world sys')
       = (Ok (<["load" := [VFloat (sample_clock 3 - (105 # 1))]]> ∅),
          s_world sys').
Proof.
  destruct (record_step_end_reaches_collector [noting_subscriber]
              [failing_subscriber] sample_collector 2%positive 3%positive
              sample_context "load" VNone
              observed_sys observed_world_wf eq_refl eq_refl)
    as (ds & sys' & Eds & E & _ & Eget).
  - constructor; [apply noting_keeps_store|constructor].
  - constructor; [apply failing_keeps_store|constructor].
  - reflexivity.
  - assert (H0 : get_step_durations 2%positive "p1" observed_world
                 = (Ok ∅, observed_world)) by (vm_compute; reflexivity).
    simpl in Eds. rewrite H0 in Eds. injection Eds as <-.
    exists sys'. split; [exact E|exact Eget].
Defined.

Lemma timed_step_reaches_collector_witness :
  exists sys1 sys2,
    record_step_start [noting_subscriber; sample_collector; failing_subscriber]
      3%positive "parse" observed_sys = (Ok tt, sys1)
    /\ record_step_end [noting_subscriber; sample_collector; failing_subscriber]
         3%positive "parse" VNone sys1 = (Ok tt, sys2)
    /\ get_step_durations 2%positive "p1" (s_world sys2)
       = (Ok (<["parse" := [VFloat (now (s_world sys1) - sample_clock 3)]]> ∅),
          s_world sys2).
Proof.
  destruct (timed_step_reaches_collector [noting_subscriber]
              [failing_subscriber] sample_collector 2%positive 3%positive
              sample_context "parse" VNone
              observed_sys observed_world_wf eq_refl eq_refl)
    as (ds & sys1 & sys2 & Eds & E1 & E2 & _ & Eget).
  - constructor; [apply noting_keeps_store|constructor].
  - constructor; [apply failing_keeps_store|constructor].
  - reflexivity.
  - assert (H0 : get_step_durations 2%positive "p1" observed_world
                 = (Ok ∅, observed_world)) by (vm_compute; reflexivity).
    simpl in Eds. rewrite H0 in Eds. injection Eds as <-.
    exists sys1, sys2. split; [exact E1|]. split; [exact E2|exact Eget].
Defined.

Lemma collector_always_well_formed_witness :
  exists metrics sub w',
    MetricsCollector_init None observed_world = (Ok (metrics, sub), w')
    /\ well_formed
         (w_heap (MetricsCollector_handle_event metrics 1%positive w').2)
         metrics.
Proof.
  destruct (MetricsCollector_init_repr None observed_world)
    as (metrics & sub & w' & E & _).
  exists metrics, sub, w'. split; [exact E|].
  assert (Hev : w_heap w' !! 1%positive = Some (ODict metric_event)).
  { unfold MetricsCollector_init, bind in E. rewrite alloc_eq in E.
    simpl in E. injection E as _ _ <-. simpl.
    rewrite lookup_insert_ne; [reflexivity|].
    intros Heq. vm_compute in Heq. discriminate. }
  apply (collector_always_well_formed metrics _ _
           (life_event metrics _ w' 1%positive metric_event
              (life_init metrics None observed_world sub w' E)
              Hev metric_event_str_ids)).
Defined.

(** After [handle_event], whatever the event and the outcome, the lists
    the accessors return extend the ones they returned before. *)
Lemma handle_event_appends metrics w event :
  well_formed (w_heap w) metrics ->
  let w' := (MetricsCollector_handle_event metrics event w).2 in
  (forall pid name vs,
     get_metric_values metrics pid name w = (Ok vs, w) ->
     exists more,
       get_metric_values metrics pid name w' = (Ok (vs ++ more), w'))
  /\ (forall pid ds,
        get_step_durations metrics pid w = (Ok ds, w) ->
        exists ds',
          get_step_durations metrics pid w' = (Ok ds', w')
          /\ forall step dl, ds !! step = Some dl ->
                             exists more, ds' !! step = Some (dl ++ more)).
Proof.
  intros (S & Hrepr & Hun).
  destruct (handle_event_total metrics S w event Hrepr Hun)
    as (r & w' & S' & E & R' & U' & _ & Obs).
  rewrite E. simpl.
  (* what is recorded under a key after the call *)
  assert (Hafter : forall b pid key,
             exists S2, collector_repr (w_heap w') metrics S2
                        /\ exists more,
                             default [] (recorded b S2 metrics pid key)
                             = default [] (recorded b S metrics pid key) ++ more
                             /\ (is_Some (recorded b S metrics pid key) ->
                                 is_Some (recorded b S2 metrics pid key))).
  { intros b pid key.
    destruct (Obs b pid key) as [Hsame|(ev & Hev & (Hp & Ht & Hk) & ->)].
    - exists S'. split; [exact R'|]. exists []. rewrite Hsame, app_nil_r.
      auto.
    - destruct (handle_event_effect b metrics S w event ev pid key Hrepr Hun
                  Hev Hp Ht Hk) as (w2 & S2 & E2 & R2 & _ & Obs2 & _ & _).
      rewrite E in E2. injection E2 as <-.
      exists S2. split; [exact R2|]. eexists. rewrite Obs2.
      rewrite decide_True by auto. simpl. split; [reflexivity|eauto]. }
  split.
  - intros pid name vs Evs.
    rewrite (get_metric_values_recorded _ _ _ _ _ Hrepr) in Evs.
    injection Evs as <-.
    destruct (Hafter true pid name) as (S2 & R2 & more & Hmore & _).
    exists more. rewrite (get_metric_values_recorded _ _ _ _ _ R2), Hmore.
    reflexivity.
  - intros pid ds Eds.
    destruct (get_step_durations_recorded metrics S w pid Hrepr)
      as (ds0 & Eds0 & Hds). rewrite Eds0 in Eds. injection Eds as <-.
    destruct (get_step_durations_recorded metrics S' w' pid R')
      as (ds' & Eds' & Hds').
    exists ds'. split; [exact Eds'|]. intros step dl Hdl.
    destruct (Hafter false pid step) as (S2 & R2 & more & Hmore & Hsome).
    destruct (get_step_durations_recorded metrics S2 w' pid R2)
      as (ds2 & Eds2 & Hds2).
    rewrite Eds' in Eds2. injection Eds2 as <-.
    exists more. rewrite Hds2. rewrite Hds in Hdl.
    destruct (Hsome (ex_intro _ dl Hdl)) as [dl2 Hdl2].
    rewrite Hdl2. rewrite Hdl, Hdl2 in Hmore. simpl in Hmore.
    rewrite Hmore. reflexivity.
Qed.

(** After an event with string ids, the lists the accessors return
    extend the ones they returned before. *)
Lemma handle_event_typed_appends metrics w event ev :
  well_formed (w_heap w) metrics ->
  w_heap w !! event = Some (ODict ev) ->
  str_ids ev ->
  exists w',
    MetricsCollector_handle_event metrics event w = (Ok tt, w')
    /\ (forall pid name vs,
          get_metric_values metrics pid name w = (Ok vs, w) ->
          exists more,
            get_metric_values metrics pid name w' = (Ok (vs ++ more), w'))
    /\ (forall pid ds,
          get_step_durations metrics pid w = (Ok ds, w) ->
          exists ds',
            get_step_durations metrics pid w' = (Ok ds', w')
            /\ forall step dl, ds !! step = Some dl ->
                               exists more, ds' !! step = Some (dl ++ more)).
Proof.
  intros Hwf Hev Hids.
  pose proof (handle_event_appends metrics w event Hwf) as Happ.
  destruct Hwf as (S & Hrepr & Hun).
  destruct (handle_event_typed metrics S w event ev Hrepr Hun Hev Hids)
    as (w' & S' & E & _).
  rewrite E in Happ. simpl in Happ. exists w'. split; [exact E|exact Happ].
Qed.

(** X9.  The collector only appends.  Handed an event that is a
    dictionary with string ids, [handle_event] returns, and what
    [get_metric_values] returned before is a prefix of what it returns
    after, and so is every step's list in [get_step_durations]. *)
Theorem collector_append_only metrics w event ev :
  well_formed (w_heap w) metrics ->
  w_heap w !! event = Some (ODict ev) ->
  str_ids ev ->
  exists w',
    MetricsCollector_handle_event metrics event w = (Ok tt, w')
    /\ (forall pid name vs,
          get_metric_values metrics pid name w = (Ok vs, w) ->
          exists more,
            get_metric_values metrics pid name w' = (Ok (vs ++ more), w'))
    /\ (forall pid ds,
          get_step_durations metrics pid w = (Ok ds, w) ->
          exists ds',
            get_step_durations metrics pid w' = (Ok ds', w')
            /\ forall step dl, ds !! step = Some dl ->
                               exists more, ds' !! step = Some (dl ++ more)).
Proof. exact (handle_event_typed_appends metrics w event ev). Qed.

(** Adding a value that is not a number to a number fails, and so does
    [sum] over a list that holds such a value. *)
Lemma py_sum_from_bad acc xs :
  is_Some (as_num acc) ->
  Exists (fun x => as_num x = None) xs ->
  exists e, py_sum_from acc xs = Raise e /\ exn_type e = "TypeError".
Proof.
  intros Hacc Hex. revert acc Hacc.
  induction xs as [|x xs IH]; intros acc [a Ha]; [inversion Hex|].
  simpl. destruct (as_num x) as [n|] eqn:Hx.
  - destruct (py_add_num acc x a n Ha Hx) as (v & m & -> & Hv & _).
    apply IH; [|eauto]. inversion Hex as [? ? Hbad|? ? Hrest]; subst;
      [congruence|exact Hrest].
  - unfold py_add. rewrite Ha, Hx.
    destruct a; eexists; split; reflexivity.
Qed.

Lemma average_bad ds :
  Exists (fun d => as_num d = None) ds ->
  exists e, average ds = Raise e /\ exn_type e = "TypeError".
Proof.
  intros Hex. destruct ds as [|d ds]; [inversion Hex|].
  unfold average, py_sum.
  destruct (py_sum_from_bad (VInt 0) (d :: ds)) as (e & -> & He);
    [eexists; reflexivity|exact Hex|eauto].
Qed.

(** X10.  The collector stores durations as they come.  Once the list
    of a step holds a value that is not a number (a step_end event
    carried a duration that is a string, [None], a list),
    [get_average_duration] of that step raises [TypeError], and goes on
    doing so whatever events are handled afterwards. *)
Theorem bad_duration_breaks_average metrics w pid step ds dl :
  well_formed (w_heap w) metrics ->
  get_step_durations metrics pid w = (Ok ds, w) ->
  ds !! step = Some dl ->
  Exists (fun d => as_num d = None) dl ->
  (exists e, get_average_duration metrics pid step w = (Raise e, w)
             /\ exn_type e = "TypeError")
  /\ forall event,
       let w' := (MetricsCollector_handle_event metrics event w).2 in
       exists e, get_average_duration metrics pid step w' = (Raise e, w')
                 /\ exn_type e = "TypeError".
Proof.
  intros Hwf Eds Hdl Hbad.
  assert (Hraise : forall w0 ds0 dl0,
             get_step_durations metrics pid w0 = (Ok ds0, w0) ->
             ds0 !! step = Some dl0 ->
             Exists (fun d => as_num d = None) dl0 ->
             exists e, get_average_duration metrics pid step w0 = (Raise e, w0)
                       /\ exn_type e = "TypeError").
  { intros w0 ds0 dl0 E0 Hl0 Hb0. unfold get_average_duration, bind.
    rewrite E0, Hl0. simpl. unfold of_result.
    destruct (average_bad dl0 Hb0) as (e & -> & He). eauto. }
  split; [apply (Hraise w ds dl Eds Hdl Hbad)|].
  intros event w'.
  destruct (handle_event_appends metrics w event Hwf) as [_ Hsteps].
  destruct (Hsteps pid ds Eds) as (ds' & Eds' & Hpre).
  destruct (Hpre step dl Hdl) as (more & Hdl').
  apply (Hraise w' ds' (dl ++ more) Eds' Hdl').
  apply Exists_app. left. exact Hbad.
Qed.

(** X11.  A new collector: its state is a new, empty dictionary; it is
    well-formed; with no filter given, or an empty one, it accepts
    exactly the metric and step_end events; and every query answers
    "nothing": no durations, no values, no average. *)
Theorem new_collector_is_empty arg w :
  exists metrics sub w',
    MetricsCollector_init arg w = (Ok (metrics, sub), w')
    /\ w_heap w !! metrics = None
    /\ handle_event sub = MetricsCollector_handle_event metrics
    /\ (arg = None \/ arg = Some [] ->
        forall t, should_handle sub t = true
                  <-> t = VStr "metric" \/ t = VStr "step_end")
    /\ well_formed (w_heap w') metrics
    /\ (forall pid, get_step_durations metrics pid w' = (Ok ∅, w'))
    /\ (forall pid name, get_metric_values metrics pid name w' = (Ok [], w'))
    /\ (forall pid step,
          get_average_duration metrics pid step w' = (Ok VNone, w')).
Proof.
  destruct (MetricsCollector_init_repr arg w)
    as (metrics & sub & w' & E & Hh & _ & Hrepr & _).
  exists metrics, sub, w'. split; [exact E|].
  assert (Hm : metrics = fresh (dom (w_heap w))
               /\ event_types sub
                  = event_types_or arg ["metric"; "step_end"]).
  { unfold MetricsCollector_init, bind in E. rewrite alloc_eq in E.
    simpl in E. injection E as <- <- _. auto. }
  destruct Hm as [-> Hty].
  split; [apply fresh_loc_None|]. split; [exact Hh|].
  split.
  { intros Harg t. unfold should_handle. rewrite Hty.
    assert (Hdef : event_types_or arg ["metric"; "step_end"]
                   = ["metric"; "step_end"])
      by (destruct Harg as [-> | ->]; reflexivity).
    rewrite Hdef.
    rewrite bool_decide_eq_false_2
      by (intros Hin; repeat (apply elem_of_cons in Hin as [Hin|Hin];
                              [discriminate|]); inversion Hin).
    simpl. destruct t as [| | | |s|]; try (split; [discriminate|]);
      try (intros [H|H]; discriminate).
    rewrite bool_decide_eq_true. split.
    - intros Hin. apply elem_of_cons in Hin as [->|Hin]; [auto|].
      apply elem_of_cons in Hin as [->|Hin]; [auto|inversion Hin].
    - intros [H|H]; injection H as ->; [left|right; left]. }
  split; [exists {[fresh (dom (w_heap w)) := NRoot ∅]};
          split; [exact Hrepr|apply unshared_new]|].
  assert (Hdur : forall pid,
             get_step_durations (fresh (dom (w_heap w))) pid w' = (Ok ∅, w')).
  { intros pid.
    rewrite (get_step_durations_repr _ _ _ Hrepr w' eq_refl).
    unfold recorded_durations, run_of. rewrite lookup_singleton_eq.
    rewrite lookup_empty. reflexivity. }
  split; [exact Hdur|]. split.
  - intros pid name.
    rewrite (get_metric_values_repr _ _ _ Hrepr w' eq_refl).
    unfold recorded_values, run_of. rewrite lookup_singleton_eq.
    rewrite lookup_empty. reflexivity.
  - intros pid step. unfold get_average_duration, bind. rewrite Hdur.
    rewrite lookup_empty. reflexivity.
Qed.

(** X12.  [event_types or ["*"]]: a subscriber built without a filter,
    or with an empty list as its filter, is a wildcard subscriber.
    Wherever it stands on the bus, [publish_event] runs its handler on
    every event, whatever the event's type is and whether the event has
    one at all: the handler runs on the world the subscribers before it
    have left, with its failure logged, and the loop goes on from the
    world the handler leaves. *)
Theorem empty_filter_is_wildcard cls arg h before after e d sys :
  arg = None \/ arg = Some [] ->
  w_heap (s_world sys) !! e = Some (ODict d) ->
  let s := EventSubscriber_init cls arg h in
  exists sys1 sys',
    publish_event before e sys = (Ok tt, sys1)
    /\ publish_event (before ++ s :: after) e sys = (Ok tt, sys')
    /\ sys'
       = dispatch_sys after e (event_type_of d)
           (mkSystem
              match h e (s_world sys1) with
              | (Ok _, w') => w'
              | (Raise x, w') =>
                  set_log (w_log w' ++ [(ERROR, error_message s x)]) w'
              end
              (s_hist sys1 ++ [Handled s e (w_heap (s_world sys1) !! e)])).
Proof.
  intros Harg He s. eexists. eexists.
  split; [apply (publish_event_eq _ _ _ _ He)|].
  split; [apply (publish_event_eq _ _ _ _ He)|].
  rewrite dispatch_sys_app.
  change (dispatch_sys (s :: after) e (event_type_of d) ?x)
    with (dispatch_sys after e (event_type_of d)
            (deliver_sys e (event_type_of d) x s)).
  f_equal. unfold deliver_sys.
  assert (Hyes : should_handle s (event_type_of d) = true).
  { subst s. unfold should_handle, EventSubscriber_init. simpl.
    destruct Harg as [-> | ->]; simpl; reflexivity. }
  rewrite Hyes. reflexivity.
Qed.

Lemma is_PipelineContext_eq v w :
  is_PipelineContext v w = ((is_PipelineContext v w).1, w).
Proof. reflexivity. Qed.

(** With no context anywhere, the wrapper creates one. *)
Lemma resolve_context_new args kwargs w :
  (forall a rest, args = a :: rest ->
                  (is_PipelineContext a w).1 = Ok false) ->
  (forall k, kwargs !! "context" = Some k ->
             (is_PipelineContext k w).1 = Ok false) ->
  exists l w',
    resolve_context VNone args kwargs w = (Ok (VRef l), w')
    /\ w_heap w !! l = None
    /\ w_heap w' !! l
       = Some (OCtx (mkContext (w_uuid w (w_nuuid w)) VNone (now w) ∅))
    /\ w_nuuid w' = S (w_nuuid w)
    /\ forall l' o, w_heap w !! l' = Some o -> w_heap w' !! l' = Some o.
Proof.
  intros Hargs Hkw.
  assert ((match args with
           | a :: _ => is_PipelineContext a
           | [] => ret false
           end) w = (Ok false, w)) as Hb.
  { destruct args as [|a rest]; [reflexivity|].
    rewrite is_PipelineContext_eq, (Hargs a rest eq_refl). reflexivity. }
  unfold resolve_context. unfold bind at 1. rewrite Hb. simpl.
  assert (Hmid : (match kwargs !! "context" with
                  | Some k =>
                      let! b := is_PipelineContext k in
                      ret (if b then k else VNone)
                  | None => ret VNone
                  end) w = (Ok VNone, w)).
  { destruct (kwargs !! "context") as [k|] eqn:Hk; [|reflexivity].
    unfold bind. rewrite is_PipelineContext_eq, (Hkw k eq_refl).
    reflexivity. }
  unfold bind at 1. rewrite Hmid. simpl.
  unfold bind, PipelineContext_init, bind, uuid4, time_time. simpl.
  eexists. eexists. split; [reflexivity|]. simpl.
  split; [apply fresh_loc_None|]. split; [apply lookup_insert_eq|].
  split; [reflexivity|].
  intros l' o Hl'. rewrite lookup_insert_ne; [exact Hl'|].
  intros <-. rewrite fresh_loc_None in Hl'. discriminate.
Qed.

(** X13.  The context the wrapper of [step_timing] works with.  The first
    positional argument is taken only when the decorator was given no
    context; the keyword argument [context] is looked at in the [elif] of
    that test, so it replaces a context the decorator was given; the
    decorator's own context is used when no keyword context is passed;
    and when there is none at all a new context is created, with the
    next generated run id, no parent and the current clock reading. *)
Theorem resolve_context_order self_context args kwargs w :
  (self_context = VNone ->
   forall a rest, args = a :: rest ->
     (is_PipelineContext a w).1 = Ok true ->
     resolve_context self_context args kwargs w = (Ok a, w))
  /\ (forall k, kwargs !! "context" = Some k ->
        (is_PipelineContext k w).1 = Ok true ->
        self_context <> VNone
        \/ (forall a rest, args = a :: rest ->
                           (is_PipelineContext a w).1 = Ok false) ->
        resolve_context self_context args kwargs w = (Ok k, w))
  /\ (self_context <> VNone ->
      (forall k, kwargs !! "context" = Some k ->
                 (is_PipelineContext k w).1 = Ok false) ->
      resolve_context self_context args kwargs w = (Ok self_context, w))
  /\ (self_context = VNone ->
      (forall a rest, args = a :: rest ->
                      (is_PipelineContext a w).1 = Ok false) ->
      (forall k, kwargs !! "context" = Some k ->
                 (is_PipelineContext k w).1 = Ok false) ->
      exists l w',
        resolve_context self_context args kwargs w = (Ok (VRef l), w')
        /\ w_heap w !! l = None
        /\ w_heap w' !! l
           = Some (OCtx (mkContext (w_uuid w (w_nuuid w)) VNone (now w) ∅))
        /\ w_nuuid w' = S (w_nuuid w)
        /\ forall l' o, w_heap w !! l' = Some o -> w_heap w' !! l' = Some o).
Proof.
  assert (Hfirst : forall b,
             (match args with
              | a :: _ => is_PipelineContext a
              | [] => ret false
              end) w
             = (Ok b, w) ->
             resolve_context self_context args kwargs w
             = (let! context :=
                  if is_None self_context && b
                  then ret (default VNone (head args))
                  else match kwargs !! "context" with
                       | Some k =>
                           let! b := is_PipelineContext k in
                           ret (if b then k else self_context)
                       | None => ret self_context
                       end in
                if is_None context then
                  let! l := PipelineContext_init None VNone in ret (VRef l)
                else ret context) w).
  { intros b Hb. unfold resolve_context. unfold bind at 1. rewrite Hb.
    reflexivity. }
  assert (Hctx : forall v, (is_PipelineContext v w).1 = Ok true ->
                           is_None v = false).
  { intros v Hv. destruct v; simpl in *; try discriminate. reflexivity. }
  assert (Hnone : forall v, v <> VNone -> is_None v = false).
  { intros v Hv. destruct v; simpl; congruence. }
  split; [|split; [|split]].
  - intros -> a rest -> Ha.
    rewrite (Hfirst true)
      by (rewrite is_PipelineContext_eq, Ha; reflexivity).
    simpl. unfold bind, ret. simpl. rewrite (Hctx a Ha). reflexivity.
  - intros k Hk Hkc Hcase.
    assert (exists b, (match args with
                       | a :: _ => is_PipelineContext a
                       | [] => ret false
                       end) w = (Ok b, w)
                      /\ is_None self_context && b = false)
      as (b & Hb & Hand).
    { destruct args as [|a rest].
      - exists false. split; [reflexivity|apply andb_false_r].
      - destruct Hcase as [Hself|Hargs].
        + exists (match (is_PipelineContext a w).1 with
                  | Ok b => b
                  | Raise _ => false
                  end).
          split; [|rewrite (Hnone _ Hself); reflexivity].
          destruct a; reflexivity.
        + exists false. split; [|apply andb_false_r].
          rewrite is_PipelineContext_eq, (Hargs a rest eq_refl).
          reflexivity. }
    rewrite (Hfirst b Hb), Hand. rewrite Hk. unfold bind.
    rewrite is_PipelineContext_eq, Hkc. simpl.
    rewrite (Hctx k Hkc). reflexivity.
  - intros Hself Hkw.
    assert (exists b, (match args with
                       | a :: _ => is_PipelineContext a
                       | [] => ret false
                       end) w = (Ok b, w)) as (b & Hb).
    { destruct args as [|a rest]; [exists false; reflexivity|].
      destruct a; eexists; reflexivity. }
    rewrite (Hfirst b Hb), (Hnone _ Hself). simpl.
    destruct (kwargs !! "context") as [k|] eqn:Hk.
    + unfold bind. rewrite is_PipelineContext_eq, (Hkw k eq_refl). simpl.
      rewrite (Hnone _ Hself). reflexivity.
    + unfold bind, ret. simpl. rewrite (Hnone _ Hself). reflexivity.
  - intros -> Hargs Hkw. apply resolve_context_new; assumption.
Qed.

(** What [record_step_start] publishes. *)
Lemma record_step_start_spec bus self c step sys :
  w_heap (s_world sys) !! self = Some (OCtx c) ->
  exists sys' e d,
    record_step_start bus self step sys = (Ok tt, sys')
    /\ published (s_hist sys') = published (s_hist sys) ++ [(e, d)]
    /\ d !! "event_type" = Some (VStr "step_start")
    /\ d !! "pipeline_id" = Some (VStr (pipeline_id c))
    /\ d !! "parent_id" = Some (parent_id c)
    /\ d !! "step" = Some (VStr step).
Proof.
  intros Hc. unfold record_step_start, bind, lift.
  unfold time_time at 1. simpl.
  rewrite (get_ctx_eq self c) by exact Hc. simpl.
  unfold get_ctx at 1. simpl. rewrite lookup_insert_eq. simpl.
  set (c1 := mkContext _ _ _ _).
  set (h1 := <[self := OCtx c1]> (w_heap (s_world sys))).
  set (e := fresh (dom h1)).
  set (D := event_fields "step_start" c1 step).
  set (sysE := mkSystem _ _).
  assert (He : w_heap (s_world sysE) !! e = Some (ODict D))
    by apply lookup_insert_eq.
  assert (Hts : D !! "timestamp" = None) by (subst D; lookup_fields).
  rewrite (publish_event_eq _ _ _ _ He).
  eexists. exists e, (stamped D (s_world sysE)).
  split; [reflexivity|].
  split.
  { rewrite dispatch_sys_published. simpl. apply published_app. }
  unfold stamped. rewrite Hts.
  repeat split; subst D; lookup_fields.
Qed.


Lemma output_info_descriptor outputs w :
  exists oi w1,
    output_info_of outputs w = (Ok oi, w1)
    /\ descriptor (w_heap w1) oi.
Proof.
  assert (Hplain : forall ty w0,
             exists oi w1,
               (let! l := alloc (ODict (<["type" := VStr ty]> ∅))
                in ret (VRef l)) w0 = (Ok oi, w1)
               /\ descriptor (w_heap w1) oi).
  { intros ty w0. eexists. eexists. split; [reflexivity|]. right.
    eexists. eexists. split; [reflexivity|]. simpl.
    split; [apply lookup_insert_eq|]. intros k x Hk. left.
    apply lookup_insert_Some in Hk as [[_ <-]|[_ Hk]]; [exact I|].
    rewrite lookup_empty in Hk. discriminate. }
  assert (Hsized : forall ty n w0,
             exists oi w1,
               (let! l := alloc (ODict (<["type" := VStr ty]>
                                          (<["length" := VInt (Z.of_nat n)]> ∅)))
                in ret (VRef l)) w0 = (Ok oi, w1)
               /\ descriptor (w_heap w1) oi).
  { intros ty n w0. eexists. eexists. split; [reflexivity|]. right.
    eexists. eexists. split; [reflexivity|]. simpl.
    split; [apply lookup_insert_eq|]. intros k x Hk. left.
    apply lookup_insert_Some in Hk as [[_ <-]|[_ Hk]]; [exact I|].
    apply lookup_insert_Some in Hk as [[_ <-]|[_ Hk]]; [exact I|].
    rewrite lookup_empty in Hk. discriminate. }
  assert (Hattrs : forall ty names w0,
             exists oi w1,
               (let! a := alloc (OList (VStr <$> names)) in
                let! l := alloc (ODict (<["type" := VStr ty]>
                                          (<["attributes" := VRef a]> ∅))) in
                ret (VRef l)) w0 = (Ok oi, w1)
               /\ descriptor (w_heap w1) oi).
  { intros ty names w0. eexists. eexists. split; [reflexivity|]. right.
    eexists. eexists. split; [reflexivity|]. simpl.
    set (a := fresh (dom (w_heap w0))).
    set (h1 := <[a := OList (VStr <$> names)]> (w_heap w0)).
    assert (Hne : fresh (dom h1) <> a).
    { intros Heq. pose proof (fresh_loc_None h1) as Hf. rewrite Heq in Hf.
      subst h1. rewrite lookup_insert_eq in Hf. discriminate. }
    split; [apply lookup_insert_eq|]. intros k x Hk.
    apply lookup_insert_Some in Hk as [[_ <-]|[_ Hk]]; [left; exact I|].
    apply lookup_insert_Some in Hk as [[_ <-]|[_ Hk]].
    - right. exists a, names. split; [reflexivity|].
      split; [congruence|].
      rewrite lookup_insert_ne by exact Hne. apply lookup_insert_eq.
    - rewrite lookup_empty in Hk. discriminate. }
  destruct outputs as [| | | | |l]; simpl; try apply Hplain.
  - eexists. eexists. split; [reflexivity|]. left. reflexivity.
  - destruct (w_heap w !! l) as [[d|xs|xs|cls attrs|c]|].
    + exact (Hplain "dict" w).
    + exact (Hsized "list" (length xs) w).
    + exact (Hsized "tuple" (length xs) w).
    + exact (Hattrs cls (attrs.*1) w).
    + exact (Hattrs "PipelineContext"
               ["pipeline_id"; "parent_id"; "event_manager"; "start_time";
                "step_times"] w).
    + exact (Hplain "object" w).
Qed.

Lemma descriptor_dumps h oi seen depth :
  descriptor h oi ->
  (forall l, l ∈ seen -> h !! l = None) ->
  2 <= depth ->
  exists j, dumps depth seen h oi = Ok j.
Proof.
  intros [->|(lo & d & -> & Hlo & Hd)] Hseen Hdepth.
  - apply dumps_scalar. exact I.
  - destruct depth as [|[|depth]]; try lia.
    apply (dumps_dict _ _ _ _ d); [|exact Hlo|].
    { intros Hin. rewrite (Hseen _ Hin) in Hlo. discriminate. }
    intros k x Hk. destruct (Hd k x Hk) as [Hs|(la & names & -> & Hne & Hla)].
    + apply dumps_scalar. exact Hs.
    + apply (dumps_list _ _ _ _ (VStr <$> names)); [|exact Hla|].
      * intros Hin. apply elem_of_union in Hin as [Hin|Hin].
        -- apply elem_of_singleton in Hin. contradiction.
        -- rewrite (Hseen _ Hin) in Hla. discriminate.
      * apply Forall_fmap. apply Forall_forall. intros s _. simpl.
        destruct depth; eexists; reflexivity.
Qed.

(** The event of [record_step_end], at the moment a subscriber gets it,
    is a dictionary the encoder accepts. *)
Lemma step_end_event_dumps before s after self c step outputs sys :
  w_heap (s_world sys) !! self = Some (OCtx c) ->
  scalar (parent_id c) ->
  Forall keeps_store before ->
  exists e sysE sys1 sys',
    record_step_end (before ++ s :: after) self step outputs sys
    = publish_event (before ++ s :: after) e sysE
    /\ w_heap (s_world sys) !! e = None
    /\ publish_event before e sysE = (Ok tt, sys1)
    /\ publish_event (before ++ s :: after) e sysE = (Ok tt, sys')
    /\ sys' = dispatch_sys (s :: after) e (VStr "step_end") sys1
    /\ exists text,
         json_dumps (VRef e) (s_world sys1) = (Ok text, s_world sys1).
Proof.
  intros Hc Hpar Hbefore.
  destruct (record_step_end_eq (before ++ s :: after) self c step outputs
              sys Hc) as (oi & w1 & Eoi & Hc1 & Hkeep & _ & _ & _ & Eq).
  destruct (output_info_descriptor outputs (ticked (s_world sys)))
    as (oi' & w1' & Eoi' & Hdesc).
  rewrite Eoi in Eoi'. injection Eoi' as <- <-.
  set (e := fresh (dom (w_heap w1))) in *.
  set (D := <["duration" := _]> _) in Eq.
  set (sysE := mkSystem _ _) in Eq.
  assert (Hfresh : w_heap w1 !! e = None) by apply fresh_loc_None.
  assert (He : w_heap (s_world sysE) !! e = Some (ODict D))
    by apply lookup_insert_eq.
  assert (Hty : event_type_of D = VStr "step_end").
  { subst D. unfold event_type_of, dict_get.
    replace (_ !! "event_type") with (Some (VStr "step_end"));
      [reflexivity|symmetry; lookup_fields]. }
  exists e, sysE.
  eexists. eexists.
  split; [exact Eq|].
  split.
  { destruct (w_heap (s_world sys) !! e) as [x|] eqn:Hx; [|reflexivity].
    rewrite (Hkeep _ _ Hx) in Hfresh. discriminate. }
  split; [apply (publish_event_eq _ _ _ _ He)|].
  split; [apply (publish_event_eq _ _ _ _ He)|].
  rewrite Hty. split; [apply dispatch_sys_app|].
  set (sys0 := mkSystem (stamp_world e D (s_world sysE)) _).
  assert (Hstamp : exists D', w_heap (s_world sys0) !! e = Some (ODict D')
                   /\ forall k x, D' !! k = Some x ->
                        scalar x \/ x = oi).
  { exists (stamped D (s_world sysE)). split.
    - subst sys0. simpl. unfold stamp_world, stamped.
      destruct (D !! "timestamp"); [exact He|]. simpl.
      apply lookup_insert_eq.
    - assert (HD : forall k x, D !! k = Some x -> scalar x \/ x = oi).
      { intros k x Hk. subst D. unfold event_fields in Hk.
        repeat (apply lookup_insert_Some in Hk as [[_ <-]|[_ Hk]];
                [auto; left; exact I|]).
        rewrite lookup_empty in Hk. discriminate. }
      intros k x. unfold stamped. destruct (D !! "timestamp"); [apply HD|].
      intros Hk. apply lookup_insert_Some in Hk as [[_ <-]|[_ Hk]];
        [left; exact I|apply (HD _ _ Hk)]. }
  destruct Hstamp as (D' & He0 & HD').
  assert (Hsub0 : forall l x, l <> e -> w_heap w1 !! l = Some x ->
                              w_heap (s_world sys0) !! l = Some x).
  { intros l x Hne Hl. subst sys0. simpl. unfold stamp_world.
    destruct (D !! "timestamp"); simpl;
      repeat rewrite lookup_insert_ne by congruence; exact Hl. }
  set (sys1 := dispatch_sys before e (VStr "step_end") sys0).
  assert (Hsub1 : forall l x, w_heap (s_world sys0) !! l = Some x ->
                              w_heap (s_world sys1) !! l = Some x).
  { intros l x Hl. apply dispatch_sys_keeps; assumption. }
  destruct (descriptor_dumps (w_heap w1) oi ({[e]} ∪ ∅)
              (Nat.pred recursion_limit) Hdesc) as [joi Hjoi].
  { intros l Hin. apply elem_of_union in Hin as [Hin|Hin].
    - apply elem_of_singleton in Hin. subst l. exact Hfresh.
    - apply elem_of_empty in Hin. contradiction. }
  { unfold recursion_limit. simpl. lia. }
  assert (Hagree : forall l x, w_heap w1 !! l = Some x ->
                               w_heap (s_world sys1) !! l = Some x).
  { intros l x Hl. apply Hsub1, Hsub0; [|exact Hl]. intros ->. congruence. }
  pose proof (dumps_agree _ _ Hagree _ _ _ _ Hjoi) as Hjoi1.
  unfold json_dumps.
  destruct (dumps_dict (Nat.pred recursion_limit) ∅ (w_heap (s_world sys1))
              e D') as [text Htext].
  - apply not_elem_of_empty.
  - apply Hsub1, He0.
  - intros k x Hk. destruct (HD' k x Hk) as [Hs| ->].
    + apply dumps_scalar, Hs.
    + eauto.
  - exists text. change recursion_limit with (S (Nat.pred recursion_limit)).
    rewrite Htext. reflexivity.
Qed.

(** X15.  Whatever [outputs] is, the event [record_step_end] publishes
    can be encoded by [json.dumps] when a subscriber receives it: the
    outputs themselves are not in the event, only a description of
    them.  This holds for a context whose parent id is a string or
    [None], and for a subscriber that comes after subscribers which
    leave existing objects alone. *)
Theorem step_end_event_serialisable before s after self c step outputs sys :
  w_heap (s_world sys) !! self = Some (OCtx c) ->
  scalar (parent_id c) ->
  Forall keeps_store before ->
  exists e sysE sys1 sys',
    record_step_end (before ++ s :: after) self step outputs sys
    = publish_event (before ++ s :: after) e sysE
    /\ w_heap (s_world sys) !! e = None
    /\ publish_event before e sysE = (Ok tt, sys1)
    /\ publish_event (before ++ s :: after) e sysE = (Ok tt, sys')
    /\ sys' = dispatch_sys (s :: after) e (VStr "step_end") sys1
    /\ exists text,
         json_dumps (VRef e) (s_world sys1) = (Ok text, s_world sys1).
Proof.
  exact (step_end_event_dumps before s after self c step outputs sys).
Qed.

Lemma bad_duration_recorded_wf :
  well_formed (w_heap bad_duration_recorded) 2%positive.
Proof.
  assert (Hrepr : collector_repr (w_heap bad_duration_world) 2%positive
                    {[2%positive := NRoot ∅]}).
  { split; [|split].
    - exists ∅. apply lookup_singleton_eq.
    - intros l n Hl. apply lookup_singleton_Some in Hl as [_ <-].
      intros pid r Hr. rewrite lookup_empty in Hr. discriminate.
    - intros l n Hl. apply lookup_singleton_Some in Hl as [<- <-].
      vm_compute. reflexivity. }
  destruct (handle_event_total 2%positive _ bad_duration_world 1%positive
              Hrepr (unshared_new _))
    as (r & w' & S' & E & R' & U' & _).
  unfold bad_duration_recorded. rewrite E. exists S'. split; assumption.
Qed.

Lemma collector_append_only_witness :
  exists w' more,
    MetricsCollector_handle_event 2%positive 1%positive busy_recorded
    = (Ok tt, w')
    /\ get_metric_values 2%positive "p1" "latency_ms" w'
       = (Ok ([VFloat (241 # 2)] ++ more), w').
Proof.
  destruct (collector_append_only 2%positive busy_recorded 1%positive
              metric_event busy_recorded_wf)
    as (w' & E & Hv & _).
  - vm_compute. reflexivity.
  - exact metric_event_str_ids.
  - destruct (Hv "p1" "latency_ms" [VFloat (241 # 2)]) as [more Hmore].
    + vm_compute. reflexivity.
    + exists w', more. split; [exact E|exact Hmore].
Defined.

Lemma bad_duration_breaks_average_witness :
  exists e,
    get_average_duration 2%positive "p1" "load" bad_duration_recorded
    = (Raise e, bad_duration_recorded)
    /\ exn_type e = "TypeError".
Proof.
  refine (proj1 (bad_duration_breaks_average 2%positive bad_duration_recorded
                   "p1" "load" (<["load" := [VStr "fast"]]> ∅) [VStr "fast"]
                   bad_duration_recorded_wf _ _ _)).
  - vm_compute. reflexivity.
  - reflexivity.
  - constructor. reflexivity.
Defined.

Lemma empty_filter_is_wildcard_witness :
  exists sys1 sys',
    publish_event [] 1%positive sample_sys = (Ok tt, sys1)
    /\ publish_event sample_bus 1%positive sample_sys = (Ok tt, sys')
    /\ w_log (s_world sys')
       = w_log (s_world sys1)
         ++ [(ERROR, "Error in subscriber FileStorageSubscriber: No space left on device");
             (INFO, "event seen")].
Proof.
  destruct (empty_filter_is_wildcard "FileStorageSubscriber" None
              (fun _ => raise "OSError" "No space left on device")
              [] [step_end_subscriber; noting_subscriber]
              1%positive metric_event sample_sys
              (or_introl eq_refl) eq_refl) as (sys1 & sys' & E1 & E & Hsys).
  exists sys1, sys'. split; [exact E1|]. split; [exact E|].
  assert (H1 : should_handle step_end_subscriber (event_type_of metric_event)
               = false) by (vm_compute; reflexivity).
  assert (H2 : should_handle noting_subscriber (event_type_of metric_event)
               = true) by (vm_compute; reflexivity).
  rewrite Hsys, dispatch_sys_world. simpl. rewrite H1, H2. simpl.
  rewrite <- app_assoc. reflexivity.
Defined.

Lemma resolve_context_order_witness :
  resolve_context (VRef 2%positive) [] (<["context" := VRef 3%positive]> ∅)
    two_contexts_world
  = (Ok (VRef 3%positive), two_contexts_world).
Proof.
  refine (proj1 (proj2 (resolve_context_order (VRef 2%positive) []
                          (<["context" := VRef 3%positive]> ∅)
                          two_contexts_world))
            (VRef 3%positive) eq_refl eq_refl (or_introl _)).
  discriminate.
Defined.


Lemma step_end_event_serialisable_witness :
  exists e sysE sys1 text,
    record_step_end [failing_subscriber; noting_subscriber] 2%positive "load"
      (VRef 2%positive) context_sys
    = publish_event [failing_subscriber; noting_subscriber] e sysE
    /\ publish_event [failing_subscriber] e sysE = (Ok tt, sys1)
    /\ json_dumps (VRef e) (s_world sys1) = (Ok text, s_world sys1).
Proof.
  destruct (step_end_event_serialisable [failing_subscriber] noting_subscriber
              [] 2%positive sample_context "load" (VRef 2%positive)
              context_sys eq_refl I
              (Forall_cons_2 _ _ _ failing_keeps_store (Forall_nil_2 _)))
    as (e & sysE & sys1 & sys' & E & _ & E1 & _ & _ & text & Ht).
  exists e, sysE, sys1, text. split; [exact E|]. split; [exact E1|exact Ht].
Defined.

(** On a bus that holds the collector among subscribers that leave
    existing objects alone, the published event is, when the call
    returns, as the bus has stamped it. *)
Lemma publish_keeps_event before after sub metrics e D sys S :
  collector_repr (w_heap (s_world sys)) metrics S -> unshared S ->
  S !! e = None ->
  w_heap (s_world sys) !! e = Some (ODict D) ->
  handle_event sub = MetricsCollector_handle_event metrics ->
  Forall keeps_store before -> Forall keeps_store after ->
  w_heap (s_world (dispatch_sys (before ++ sub :: after) e (event_type_of D)
                     (mkSystem (stamp_world e D (s_world sys))
                        (s_hist sys
                         ++ [Published e (stamped D (s_world sys))])))) !! e
  = Some (ODict (stamped D (s_world sys))).
Proof.
  intros Hrepr Hun HSe He Hsub Hbefore Hafter.
  rewrite dispatch_sys_app.
  set (t := event_type_of D).
  set (sys0 := mkSystem (stamp_world e D (s_world sys)) _).
  assert (Hkeep0 : forall l x, w_heap (s_world sys) !! l = Some x -> l <> e ->
                               w_heap (s_world sys0) !! l = Some x).
  { intros l x Hl Hne. subst sys0. simpl. unfold stamp_world.
    destruct (D !! "timestamp"); [exact Hl|]. simpl.
    rewrite lookup_insert_ne by congruence. exact Hl. }
  assert (He0 : w_heap (s_world sys0) !! e
                = Some (ODict (stamped D (s_world sys))))
    by (apply stamp_world_lookup; exact He).
  set (sys1 := dispatch_sys before e t sys0).
  assert (Hkeep1 : forall l x, w_heap (s_world sys0) !! l = Some x ->
                               w_heap (s_world sys1) !! l = Some x).
  { intros l x Hl. apply dispatch_sys_keeps; assumption. }
  assert (R1 : collector_repr (w_heap (s_world sys1)) metrics S).
  { destruct Hrepr as (Hroot & Hok & Hheap). split; [exact Hroot|].
    split; [exact Hok|]. intros l n Hl. apply Hkeep1, Hkeep0.
    - apply Hheap, Hl.
    - intros ->. congruence. }
  change (dispatch_sys (sub :: after) e t sys1)
    with (dispatch_sys after e t (deliver_sys e t sys1 sub)).
  apply dispatch_sys_keeps; [exact Hafter|].
  unfold deliver_sys. destruct (should_handle sub t); [|apply Hkeep1, He0].
  simpl. unfold deliver_world. rewrite Hsub.
  destruct (handle_event_total metrics S (s_world sys1) e R1 Hun)
    as (r & w2 & S2 & E2 & _ & _ & F2 & _).
  rewrite E2.
  destruct (F2 e _ HSe (Hkeep1 _ _ He0)) as [Hkept _].
  destruct r as [[]|x]; exact Hkept.
Qed.

(** C10.  [publish_event] writes into the caller's own dictionary: an
    event passed without a timestamp gets one, at the same location;
    apart from that key the bus adds and changes nothing, an event
    passed with a timestamp is left as it was, and no other object is
    touched.  Every later change to the world is made by the handlers
    of the matching subscribers.  So when each of these, in the world
    it is called in, leaves the event as it is, the caller finds its
    dictionary with the timestamp when the call returns; this is the
    case on a bus that holds the metrics collector among subscribers
    that leave existing objects alone. *)
Theorem publish_event_writes_callers_dict subs e d sys :
  w_heap (s_world sys) !! e = Some (ODict d) ->
  let call := fun w s =>
                match handle_event s e w with
                | (Ok _, w') => w'
                | (Raise x, w') =>
                    set_log (w_log w' ++ [(ERROR, error_message s x)]) w'
                end in
  let matching :=
    List.filter (fun s => should_handle s (event_type_of d)) subs in
  exists sys' d' w0,
    publish_event subs e sys = (Ok tt, sys')
    /\ stamp e (s_world sys) = (Ok tt, w0)
    /\ w_heap w0 !! e = Some (ODict d')
    /\ (d !! "timestamp" = None ->
        d' !! "timestamp"
        = Some (VFloat (w_clock (s_world sys) (w_tick (s_world sys)))))
    /\ (is_Some (d !! "timestamp") -> d' = d)
    /\ (forall k, k ≠ "timestamp" -> d' !! k = d !! k)
    /\ (forall l, l ≠ e -> w_heap w0 !! l = w_heap (s_world sys) !! l)
    /\ s_world sys' = foldl call w0 matching
    /\ ((forall pre s post,
           matching = pre ++ s :: post ->
           w_heap (handle_event s e (foldl call w0 pre)).2 !! e
           = w_heap (foldl call w0 pre) !! e) ->
        w_heap (s_world sys') !! e = Some (ODict d'))
    /\ (forall before sub after metrics S,
          subs = before ++ sub :: after ->
          handle_event sub = MetricsCollector_handle_event metrics ->
          collector_repr (w_heap (s_world sys)) metrics S ->
          unshared S ->
          S !! e = None ->
          Forall keeps_store before -> Forall keeps_store after ->
          w_heap (s_world sys') !! e = Some (ODict d')).
Proof.
  intros He call matching. eexists. exists (stamped d (s_world sys)).
  exists (stamp_world e d (s_world sys)).
  split; [apply (publish_event_eq _ _ _ _ He)|].
  split; [apply (stamp_eq _ _ _ He)|].
  split; [apply (stamp_world_lookup _ _ _ He)|].
  assert (Hstamped :
            (d !! "timestamp" = None ->
             stamped d (s_world sys) !! "timestamp"
             = Some (VFloat (w_clock (s_world sys) (w_tick (s_world sys)))))
            /\ (is_Some (d !! "timestamp") -> stamped d (s_world sys) = d)
            /\ (forall k, k ≠ "timestamp" ->
                          stamped d (s_world sys) !! k = d !! k)
            /\ (forall l, l ≠ e ->
                          w_heap (stamp_world e d (s_world sys)) !! l
                          = w_heap (s_world sys) !! l)).
  { unfold stamped, stamp_world.
    destruct (d !! "timestamp") as [v|] eqn:Ets.
    - split; [discriminate|]. split; [reflexivity|].
      split; reflexivity.
    - split; [intros _; apply lookup_insert_eq|].
      split; [intros [v Hv]; discriminate|].
      split.
      + intros k Hk. apply lookup_insert_ne. congruence.
      + intros l Hl. simpl. apply lookup_insert_ne. congruence. }
  destruct Hstamped as (H1 & H2 & H3 & H4).
  split; [exact H1|]. split; [exact H2|]. split; [exact H3|].
  split; [exact H4|].
  assert (Hworld : s_world
                     (dispatch_sys subs e (event_type_of d)
                        (mkSystem (stamp_world e d (s_world sys))
                           (s_hist sys
                            ++ [Published e (stamped d (s_world sys))])))
                   = foldl call (stamp_world e d (s_world sys)) matching)
    by apply dispatch_sys_world.
  split; [exact Hworld|]. split.
  - intros Hframe. rewrite Hworld.
    assert (Hgen : forall pre post,
               matching = pre ++ post ->
               w_heap (foldl call (stamp_world e d (s_world sys)) (pre ++ post))
                 !! e
               = w_heap (foldl call (stamp_world e d (s_world sys)) pre) !! e).
    { intros pre post. revert pre.
      induction post as [|s post IH]; intros pre Hm;
        [rewrite app_nil_r; reflexivity|].
      replace (pre ++ s :: post) with ((pre ++ [s]) ++ post)
        by (rewrite <- app_assoc; reflexivity).
      rewrite IH by (rewrite <- app_assoc; exact Hm).
      rewrite foldl_app. simpl. unfold call at 1.
      pose proof (Hframe pre s post Hm) as Hs.
      destruct (handle_event s e (foldl call _ pre)) as [[[]|x] w'];
        exact Hs. }
    pose proof (Hgen [] matching eq_refl) as Hg. simpl in Hg. rewrite Hg.
    apply (stamp_world_lookup _ _ _ He).
  - intros before sub after metrics S -> Hsub Hrepr Hun HSe Hbefore Hafter.
    apply (publish_keeps_event before after sub metrics e d sys S);
      assumption.
Qed.

Lemma observed_world_repr :
  collector_repr (w_heap observed_world) 2%positive {[2%positive := NRoot ∅]}.
Proof.
  split; [|split].
  - exists ∅. apply lookup_singleton_eq.
  - intros l n Hl. apply lookup_singleton_Some in Hl as [_ <-].
    intros pid r Hr. rewrite lookup_empty in Hr. discriminate.
  - intros l n Hl. apply lookup_singleton_Some in Hl as [<- <-].
    vm_compute. reflexivity.
Qed.

Lemma publish_event_writes_callers_dict_witness :
  exists sys',
    publish_event collector_bus 1%positive observed_sys = (Ok tt, sys')
    /\ w_heap (s_world sys') !! 1%positive
       = Some (ODict (<["timestamp" := VFloat (115 # 1)]> metric_event)).
Proof.
  destruct (publish_event_writes_callers_dict collector_bus 1%positive
              metric_event observed_sys eq_refl)
    as (sys' & d' & w0 & Hpub & _ & _ & Hts & _ & Hrest & _ & _ & _ & Hcoll).
  exists sys'. split; [exact Hpub|].
  assert (Hfinal : w_heap (s_world sys') !! 1%positive = Some (ODict d')).
  { apply (Hcoll [noting_subscriber] sample_collector [failing_subscriber]
             2%positive {[2%positive := NRoot ∅]} eq_refl eq_refl
             observed_world_repr (unshared_new _)).
    - apply lookup_singleton_ne. discriminate.
    - constructor; [apply noting_keeps_store|constructor].
    - constructor; [apply failing_keeps_store|constructor]. }
  rewrite Hfinal. f_equal. f_equal. apply map_eq. intros k.
  destruct (decide (k = "timestamp")) as [->|Hk].
  - rewrite lookup_insert_eq. apply (Hts eq_refl).
  - rewrite lookup_insert_ne by congruence. apply Hrest, Hk.
Defined.
